(** * Privacy Oracle Agent: a shallow embedding of the daemon core

    The development follows the JavaScript sources of the agent:

    - [JS]          the fragment of the language runtime the code relies on
                    (strings as sequences of code units, numbers, [parseInt],
                    decimal rendering, truthiness);
    - [Scheduler]   [src/daemon/scheduler.js];
    - [MarketStore] [src/storage/market-store.js] over a model of its three
                    SQLite tables;
    - [Daemon]      the orchestrator ([src/daemon/index.js]);
    - [NewsScorer]  [src/monitoring/news-scorer.js];
    - [Emitter]     the event bus ([src/events/emitter.js]);
    - [NewsMonitor] [src/monitoring/news-monitor.js];
    - [Lifecycle]   the shutdown controller ([src/daemon/lifecycle.js]).

    Definitions come first, one module per source file; the facts proved
    about them follow in the [*Facts] and [*Properties] modules. *)

From Stdlib Require Import ZArith NArith List Bool Lia String Ascii.
From Stdlib Require Import Permutation Sorting.Sorted.
From Stdlib Require Floats.SpecFloat.
Import ListNotations.

Local Open Scope Z_scope.

(* ===================================================================== *)
(** * The JavaScript runtime fragment *)
(* ===================================================================== *)

Module JS.

(** ** Strings

    A JavaScript string is a finite sequence of UTF-16 code units. *)

Definition char := N.
Definition jsstring := list char.

(** String literals of the sources, written in ASCII. *)
Definition js (s : string) : jsstring :=
  map N_of_ascii (list_ascii_of_string s).

(** A string between double quotes (code unit 34). *)
Definition quote (s : jsstring) : jsstring := 34%N :: s ++ [34%N].

Fixpoint str_eqb (a b : jsstring) : bool :=
  match a, b with
  | [], [] => true
  | x :: a', y :: b' => (x =? y)%N && str_eqb a' b'
  | _, _ => false
  end.

(** [String.prototype.startsWith] and [String.prototype.includes]. *)
Fixpoint startsWith (s pat : jsstring) {struct pat} : bool :=
  match pat, s with
  | [], _ => true
  | p :: pat', c :: s' => (p =? c)%N && startsWith s' pat'
  | _ :: _, [] => false
  end.

Fixpoint includes (s pat : jsstring) : bool :=
  startsWith s pat ||
  match s with
  | [] => false
  | _ :: s' => includes s' pat
  end.

(** [s.split(sep)] for a separator made of one code unit: the pieces
    between the occurrences of [sep], empty pieces included. *)
Fixpoint split (s : jsstring) (sep : char) : list jsstring :=
  match s with
  | [] => [[]]
  | c :: s' =>
      if (c =? sep)%N then [] :: split s' sep
      else match split s' sep with
           | piece :: pieces => (c :: piece) :: pieces
           | [] => [[c]]
           end
  end.

(** [span p s]: the longest prefix of [s] whose code units satisfy [p],
    and the rest. *)
Fixpoint span (p : char -> bool) (s : jsstring) : jsstring * jsstring :=
  match s with
  | [] => ([], [])
  | c :: s' =>
      if p c then let (a, b) := span p s' in (c :: a, b)
      else ([], s)
  end.

Definition is_digit (c : char) : bool := ((48 <=? c) && (c <=? 57))%N.

(** ASCII letters are the only code units that [toLowerCase] maps to
    [a]..[z]; this is the part of it that is applied to single letters. *)
Definition ascii_lower (c : char) : char :=
  if ((65 <=? c) && (c <=? 90))%N then (c + 32)%N else c.

(** [StrWhiteSpaceChar] of the language specification: white space and
    line terminators, the code units [parseInt] skips. *)
Definition is_whitespace (c : char) : bool :=
  existsb (N.eqb c)
    [9; 10; 11; 12; 13; 32; 160; 5760; 8192; 8193; 8194; 8195; 8196; 8197;
     8198; 8199; 8200; 8201; 8202; 8232; 8233; 8239; 8287; 12288; 65279]%N.

(** ** Numbers

    A JavaScript number is an IEEE 754 double.  The quantities of the
    daemon (timestamps in milliseconds, durations in days, counters,
    parsed intervals) are integers, and the integer-valued doubles are
    closed under [+] and [*]: the result of an operation is the exact
    integer result rounded to 53 significant bits, ties to even, or an
    infinity.  [number] is that part of the doubles. *)

Inductive number :=
| NaN
| PInf
| NInf
| Num (z : Z).

Definition MAX_SAFE_INTEGER : Z := 2 ^ 53 - 1.

(** Rounding of an exact integer result to the nearest double. *)
Definition round53 (z : Z) : number :=
  let a := Z.abs z in
  if a <? 2 ^ 53 then Num z
  else
    let e := Z.log2 a - 52 in
    let q := a / 2 ^ e in
    let r := a mod 2 ^ e in
    let half := 2 ^ (e - 1) in
    let q' := if r <? half then q
              else if half <? r then q + 1
              else if Z.even q then q else q + 1 in
    let v := q' * 2 ^ e in
    if 2 ^ 1024 <=? v then (if z <? 0 then NInf else PInf)
    else Num (Z.sgn z * v).

Definition num_add (a b : number) : number :=
  match a, b with
  | NaN, _ | _, NaN => NaN
  | PInf, NInf | NInf, PInf => NaN
  | PInf, _ | _, PInf => PInf
  | NInf, _ | _, NInf => NInf
  | Num x, Num y => round53 (x + y)
  end.

Definition num_mul (a b : number) : number :=
  match a, b with
  | NaN, _ | _, NaN => NaN
  | Num x, Num y => round53 (x * y)
  | Num x, PInf | PInf, Num x =>
      if x =? 0 then NaN else if x <? 0 then NInf else PInf
  | Num x, NInf | NInf, Num x =>
      if x =? 0 then NaN else if x <? 0 then PInf else NInf
  | PInf, PInf | NInf, NInf => PInf
  | PInf, NInf | NInf, PInf => NInf
  end.

(** [a >= b] on numbers. *)
Definition num_geb (a b : number) : bool :=
  match a, b with
  | NaN, _ | _, NaN => false
  | PInf, _ => true
  | _, NInf => true
  | NInf, _ => false
  | _, PInf => false
  | Num x, Num y => y <=? x
  end.

Definition num_eqb (a b : number) : bool :=
  match a, b with
  | PInf, PInf | NInf, NInf => true
  | Num x, Num y => x =? y
  | _, _ => false
  end.

Definition num_neg (a : number) : number :=
  match a with
  | NaN => NaN
  | PInf => NInf
  | NInf => PInf
  | Num x => Num (- x)
  end.

Definition num_sub (a b : number) : number := num_add a (num_neg b).

(** [a < b] on numbers. *)
Definition num_ltb (a b : number) : bool :=
  match a, b with
  | NaN, _ | _, NaN => false
  | Num x, Num y => x <? y
  | NInf, NInf | PInf, _ => false
  | NInf, _ => true
  | Num _, PInf => true
  | Num _, NInf => false
  end.

(** [Math.min(a, b)] *)
Definition Math_min (a b : number) : number :=
  match a, b with
  | NaN, _ | _, NaN => NaN
  | _, _ => if num_ltb b a then b else a
  end.

Definition isNaN (n : number) : bool :=
  match n with NaN => true | _ => false end.

(** [ToBoolean] on numbers and on strings. *)
Definition truthy_num (n : number) : bool :=
  match n with
  | NaN => false
  | Num z => negb (z =? 0)
  | _ => true
  end.

Definition truthy_str (s : jsstring) : bool :=
  match s with [] => false | _ => true end.

(** ** Strings as text

    A string given to a database that keeps its text in UTF-8 is encoded
    on the way in and decoded on the way out.  UTF-8 has no encoding for a
    surrogate that is not part of a pair: each one is replaced by U+FFFD.
    [utf8_text s] is the string that comes back (what
    [String.prototype.toWellFormed] gives for [s]). *)
Definition is_high_surrogate (c : char) : bool :=
  ((55296 <=? c) && (c <=? 56319))%N.

Definition is_low_surrogate (c : char) : bool :=
  ((56320 <=? c) && (c <=? 57343))%N.

Fixpoint utf8_text (s : jsstring) : jsstring :=
  match s with
  | [] => []
  | c :: rest =>
      if is_high_surrogate c then
        match rest with
        | d :: rest' =>
            if is_low_surrogate d then c :: d :: utf8_text rest'
            else 65533%N :: utf8_text rest
        | [] => [65533%N]
        end
      else if is_low_surrogate c then 65533%N :: utf8_text rest
      else c :: utf8_text rest
  end.

(** [String.prototype.isWellFormed] *)
Definition isWellFormed (s : jsstring) : bool := str_eqb (utf8_text s) s.

(** ** Optional properties

    A property of an object is absent ([undefined]), [null], or holds a
    value. *)

Inductive jsopt (A : Type) :=
| Undefined
| Null
| Just (a : A).
Arguments Undefined {A}.
Arguments Null {A}.
Arguments Just {A} a.

(** [x || null] for a string property, as a nullable column value. *)
Definition str_or_null (x : jsopt jsstring) : option jsstring :=
  match x with
  | Just s => if truthy_str s then Some s else None
  | _ => None
  end.

(** [x || null] for a number property. *)
Definition num_or_null (x : jsopt number) : option number :=
  match x with
  | Just n => if truthy_num n then Some n else None
  | _ => None
  end.

(** [x || dflt] for a number property. *)
Definition num_or (x : jsopt number) (dflt : number) : number :=
  match x with
  | Just n => if truthy_num n then n else dflt
  | _ => dflt
  end.

(** [ToNumber] of a property used in arithmetic. *)
Definition to_number (x : jsopt number) : number :=
  match x with
  | Undefined => NaN
  | Null => Num 0
  | Just n => n
  end.

(** A value read back from a nullable column. *)
Definition of_column {A : Type} (x : option A) : jsopt A :=
  match x with
  | Some a => Just a
  | None => Null
  end.

(** ** Decimal digits *)

(** Value of a sequence of decimal digits, most significant first. *)
Fixpoint digits_value (acc : Z) (ds : jsstring) : Z :=
  match ds with
  | [] => acc
  | c :: ds' => digits_value (10 * acc + (Z.of_N c - 48)) ds'
  end.

(** Decimal rendering of a natural number, by repeated division. *)
Fixpoint decimal_fuel (fuel : nat) (n : Z) : jsstring :=
  match fuel with
  | O => [Z.to_N (48 + n mod 10)]
  | S fuel' =>
      if n <? 10 then [Z.to_N (48 + n)]
      else decimal_fuel fuel' (n / 10) ++ [Z.to_N (48 + n mod 10)]
  end.

Definition decimal (n : Z) : jsstring :=
  decimal_fuel (Z.to_nat (Z.log2 n)) n.

(** [BigInt.prototype.toString()]. *)
Definition bigint_toString (z : Z) : jsstring :=
  if z <? 0 then 45%N :: decimal (- z) else decimal z.

(** ** [parseInt(s, 10)]

    Leading white space is skipped, an optional sign is read, and the
    longest run of decimal digits that follows is the value. With no digit
    the result is [NaN]; whatever follows the digits is ignored.  (For
    more than 20 significant digits an implementation may approximate the
    value; the model takes the correctly rounded one.) *)
Definition parseInt (s : jsstring) : number :=
  let s1 := snd (span is_whitespace s) in
  let '(negative, s2) :=
    match s1 with
    | 45%N :: rest => (true, rest)
    | 43%N :: rest => (false, rest)
    | _ => (false, s1)
    end in
  match fst (span is_digit s2) with
  | [] => NaN
  | ds => let v := digits_value 0 ds in
          round53 (if negative then - v else v)
  end.

(** ** JSON values

    The values [JSON.parse] produces.  A text column written with
    [JSON.stringify] is represented by the value it parses to. *)

#[local] Set Warnings "-register-all".
Inductive json :=
| JNull
| JBool (b : bool)
| JNum (z : Z)
| JStr (s : jsstring)
| JArr (items : list json)
| JObj (fields : list (jsstring * json)).

Definition truthy_json (v : json) : bool :=
  match v with
  | JNull => false
  | JBool b => b
  | JNum z => negb (z =? 0)
  | JStr s => truthy_str s
  | _ => true
  end.

(** What [JSON.stringify] writes for a number: non-finite numbers become
    [null]. *)
Definition json_of_number (n : number) : json :=
  match n with
  | Num z => JNum z
  | _ => JNull
  end.

Definition json_number (x : jsopt number) : jsopt number :=
  match x with
  | Just (Num z) => Just (Num z)
  | Just _ => Null
  | other => other
  end.

Fixpoint json_field (k : jsstring) (fields : list (jsstring * json))
  : option json :=
  match fields with
  | [] => None
  | (k', v) :: rest => if str_eqb k k' then Some v else json_field k rest
  end.

(** ** Fractions

    Quotients are not integers; they are computed on IEEE 754 doubles as
    specified by [SpecFloat] (53 bits of precision, exponents up to
    1024). *)

Definition f64 := SpecFloat.spec_float.

Definition f64_of_Z (z : Z) : f64 :=
  SpecFloat.binary_normalize 53 1024 z 0 false.

Definition f64_of_number (n : number) : f64 :=
  match n with
  | NaN => SpecFloat.S754_nan
  | PInf => SpecFloat.S754_infinity false
  | NInf => SpecFloat.S754_infinity true
  | Num z => f64_of_Z z
  end.

Definition f64_add : f64 -> f64 -> f64 := SpecFloat.SFadd 53 1024.
Definition f64_div : f64 -> f64 -> f64 := SpecFloat.SFdiv 53 1024.
Definition f64_mul : f64 -> f64 -> f64 := SpecFloat.SFmul 53 1024.

(** The double written as the decimal literal [num/den]. *)
Definition f64_lit (num den : Z) : f64 := f64_div (f64_of_Z num) (f64_of_Z den).

(** [Math.round]: the nearest integer, halves towards positive infinity. *)
Definition Math_round (x : f64) : number :=
  match x with
  | SpecFloat.S754_zero _ => Num 0
  | SpecFloat.S754_infinity false => PInf
  | SpecFloat.S754_infinity true => NInf
  | SpecFloat.S754_nan => NaN
  | SpecFloat.S754_finite sign m e =>
      let sm := if sign then Z.neg m else Z.pos m in
      if 0 <=? e then Num (sm * 2 ^ e)
      else Num ((sm + 2 ^ (- e - 1)) / 2 ^ (- e))
  end.

End JS.

(* ===================================================================== *)
(** * Outcomes of fallible calls *)
(* ===================================================================== *)

(** A call returns a value or throws an [Error] carrying a message. *)
Inductive result (A : Type) :=
| Ok (a : A)
| Throw (message : JS.jsstring).
Arguments Ok {A} a.
Arguments Throw {A} message.

(* ===================================================================== *)
(** * The scheduler ([src/daemon/scheduler.js]) *)
(* ===================================================================== *)

Module Scheduler.
Import JS.

(** ** [parseSchedule] *)

Inductive parsed_schedule :=
| Cron (expression : jsstring)
| Interval (ms : number) (original : option jsstring).

(** The match of [/^(\d+)(s|m|h|d)$/i]: the whole string is a non-empty
    run of digits followed by one unit letter, in either case.  The two
    capture groups are returned. *)
Definition is_unit (c : char) : bool :=
  existsb (N.eqb (ascii_lower c)) (js "smhd").

Definition match_interval (s : jsstring) : option (jsstring * char) :=
  match span is_digit s with
  | ((_ :: _) as ds, [u]) => if is_unit u then Some (ds, u) else None
  | _ => None
  end.

(** The table [multipliers], with its products evaluated as written. *)
Definition multipliers (unit : char) : number :=
  if (unit =? 115)%N then Num 1000
  else if (unit =? 109)%N then num_mul (Num 60) (Num 1000)
  else if (unit =? 104)%N then num_mul (num_mul (Num 60) (Num 60)) (Num 1000)
  else if (unit =? 100)%N then
    num_mul (num_mul (num_mul (Num 24) (Num 60)) (Num 60)) (Num 1000)
  else NaN.

Definition invalid_schedule_message (schedule : jsstring) : jsstring :=
  js "Invalid schedule format: " ++ schedule ++
  js ". Use cron expression or interval (e.g., " ++ quote (js "5m") ++
  js ", " ++ quote (js "1h") ++ js ")".

Definition parseSchedule (schedule : jsstring) : result parsed_schedule :=
  if includes schedule (js "*") || (5 <=? List.length (split schedule 32%N))%nat
  then Ok (Cron schedule)
  else
    match match_interval schedule with
    | Some (digits, u) =>
        let value := parseInt digits in
        let unit := ascii_lower u in
        Ok (Interval (num_mul value (multipliers unit)) (Some schedule))
    | None =>
        let ms := parseInt schedule in
        if negb (isNaN ms) then Ok (Interval ms None)
        else Throw (invalid_schedule_message schedule)
    end.

(** The multiplier table as the specification states it. *)
Definition spec_multiplier (unit : char) : Z :=
  if (unit =? 115)%N then 1000
  else if (unit =? 109)%N then 60000
  else if (unit =? 104)%N then 3600000
  else if (unit =? 100)%N then 86400000
  else 0.

(** A plain non-negative integer, in the words of the specification: a
    non-empty run of decimal digits. *)
Definition is_plain_integer (s : jsstring) : bool :=
  match s with
  | [] => false
  | _ => forallb is_digit s
  end.

(** ** Tasks, timers and the job queue

    A registered [task] function is opaque to the scheduler.  What the
    scheduler observes of a call is whether the call itself throws or
    returns, and, when it returns, after how many further turns of the
    job queue the awaited result settles and how. *)

Inductive settlement :=
| Fulfilled
| Rejected (message : jsstring).

Inductive action :=
| SyncThrow (message : jsstring)
| Async (turns : nat) (result : settlement).

Record task := mkTask {
  schedule : parsed_schedule;
  originalSchedule : jsstring;
  task_fn : action;
  runImmediately : bool;
  enabled : bool;
  lastRun : option number;
  nextRun : option number;
  runCount : number;
  errors : list (number * jsstring)
}.

(** A [Map] keeps its entries in insertion order; [set] on a present key
    replaces the value in place. *)
Section MapOps.
Context {V : Type}.

Fixpoint map_get (k : jsstring) (m : list (jsstring * V)) : option V :=
  match m with
  | [] => None
  | (k', v) :: m' => if str_eqb k k' then Some v else map_get k m'
  end.

Fixpoint map_set (k : jsstring) (v : V) (m : list (jsstring * V))
  : list (jsstring * V) :=
  match m with
  | [] => [(k, v)]
  | (k', v') :: m' =>
      if str_eqb k k' then (k', v) :: m' else (k', v') :: map_set k v m'
  end.

Fixpoint map_delete (k : jsstring) (m : list (jsstring * V))
  : list (jsstring * V) :=
  match m with
  | [] => []
  | (k', v') :: m' =>
      if str_eqb k k' then m' else (k', v') :: map_delete k m'
  end.

End MapOps.

(** What happens, in order: a task function is called, an execution of
    [executeTask] finishes, a timer is armed with [setTimeout]. *)
Inductive event :=
| Invoked (name : jsstring)
| Completed (name : jsstring)
| Armed (name : jsstring) (delay : number).

(** Who waits for an execution started by [executeTask]: nobody (the call
    in [start] is not awaited), the caller of [runNow], or the timer
    callback, which re-arms the timer afterwards. *)
Inductive waiter :=
| NotAwaited
| RunNowCaller
| TimerCallback.

(** A suspended computation waiting in the job queue. *)
Inductive job :=
| ResumeTask (name : jsstring) (turns : nat) (result : settlement)
             (w : waiter)
| Reschedule (name : jsstring).

(** The scheduler object ([tasks], [timers], [running]) together with the
    part of the host it acts on: the timers pending in the event loop, the
    job queue and the record of events.  The configuration object of a
    task, which the code passes around by reference, is the entry of the
    task in [tasks]: an operation on it reads and updates that entry. *)
Record t := mkScheduler {
  tasks : list (jsstring * task);
  timers : list (jsstring * nat);
  running : bool;
  pending_timers : list (nat * (jsstring * number));
  next_timer_id : nat;
  jobs : list job;
  log : list event
}.

Definition empty : t :=
  mkScheduler [] [] false [] 0 [] [].

Definition with_tasks (s : t) (tasks' : list (jsstring * task)) : t :=
  mkScheduler tasks' (timers s) (running s) (pending_timers s)
    (next_timer_id s) (jobs s) (log s).

Definition with_running (s : t) (b : bool) : t :=
  mkScheduler (tasks s) (timers s) b (pending_timers s)
    (next_timer_id s) (jobs s) (log s).

Definition add_event (s : t) (e : event) : t :=
  mkScheduler (tasks s) (timers s) (running s) (pending_timers s)
    (next_timer_id s) (jobs s) (log s ++ [e]).

Definition enqueue (s : t) (j : job) : t :=
  mkScheduler (tasks s) (timers s) (running s) (pending_timers s)
    (next_timer_id s) (jobs s ++ [j]) (log s).

(** [clearTimeout] *)
Definition clearTimeout (s : t) (id : nat) : t :=
  mkScheduler (tasks s) (timers s) (running s)
    (filter (fun p => negb (Nat.eqb (fst p) id)) (pending_timers s))
    (next_timer_id s) (jobs s) (log s).

(** [setTimeout(callback, delay)] followed by [this.timers.set(name, timer)] *)
Definition setTimeout (s : t) (name : jsstring) (delay : number) : t :=
  let id := next_timer_id s in
  mkScheduler (tasks s) (map_set name id (timers s)) (running s)
    (pending_timers s ++ [(id, (name, delay))]) (S id) (jobs s)
    (log s ++ [Armed name delay]).

Record task_config := mkConfig {
  cfg_name : jsopt jsstring;
  cfg_schedule : jsopt jsstring;
  cfg_task : option action;
  cfg_runImmediately : option bool;
  cfg_enabled : option bool
}.

Definition addTask (s : t) (config : task_config) : result t :=
  match cfg_name config, cfg_schedule config, cfg_task config with
  | Just name, Just sched, Some fn =>
      if truthy_str name && truthy_str sched then
        match parseSchedule sched with
        | Throw m => Throw m
        | Ok parsed =>
            Ok (with_tasks s
                  (map_set name
                     (mkTask parsed sched fn
                        (match cfg_runImmediately config with
                         | Some b => b | None => false end)
                        (match cfg_enabled config with
                         | Some b => b | None => true end)
                        None None (Num 0) [])
                     (tasks s)))
        end
      else Throw (js "Task requires name, schedule, and task function")
  | _, _, _ => Throw (js "Task requires name, schedule, and task function")
  end.

Definition removeTask (s : t) (name : jsstring) : t :=
  let s1 :=
    match map_get name (timers s) with
    | Some timer =>
        let s' := clearTimeout s timer in
        mkScheduler (tasks s') (map_delete name (timers s')) (running s')
          (pending_timers s') (next_timer_id s') (jobs s') (log s')
    | None => s
    end in
  with_tasks s1 (map_delete name (tasks s1)).

Section WithCron.

(** [cronParser.parseExpression(e).next().toDate().getTime()]: the next
    occurrence of a cron expression after [now], or an error for an
    expression the library rejects. *)
Variable cron_next : jsstring -> number -> result number.

(** The body of [catch] in [executeTask]: the error is recorded and only
    the last ten errors are kept. *)
Definition record_error (now : number) (message : jsstring) (c : task) : task :=
  let errs := errors c ++ [(now, message)] in
  let errs' := if (10 <? List.length errs)%nat then tl errs else errs in
  mkTask (schedule c) (originalSchedule c) (task_fn c) (runImmediately c)
    (enabled c) (lastRun c) (nextRun c) (runCount c) errs'.

Definition update_task (s : t) (name : jsstring) (f : task -> task) : t :=
  match map_get name (tasks s) with
  | Some c => with_tasks s (map_set name (f c) (tasks s))
  | None => s
  end.

(** The end of an execution of [executeTask], when the awaited call has
    settled (or has thrown). *)
Definition finish_task (s : t) (now : number) (name : jsstring)
  (result : settlement) : t :=
  let s1 :=
    match result with
    | Fulfilled => s
    | Rejected message => update_task s name (record_error now message)
    end in
  add_event s1 (Completed name).

(** [executeTask(name, config)] up to its first suspension: the
    bookkeeping, the call of the task function, and, if the call returns,
    the suspension at [await] until the result settles.  [w] tells who is
    waiting for the execution. *)
Definition executeTask (s : t) (now : number) (name : jsstring) (w : waiter)
  : t :=
  match map_get name (tasks s) with
  | None => s
  | Some c =>
      let c1 :=
        mkTask (schedule c) (originalSchedule c) (task_fn c)
          (runImmediately c) (enabled c) (Some now) (nextRun c)
          (num_add (runCount c) (Num 1)) (errors c) in
      let s1 := add_event (with_tasks s (map_set name c1 (tasks s)))
                  (Invoked name) in
      match task_fn c with
      | SyncThrow message =>
          let s2 := finish_task s1 now name (Rejected message) in
          match w with
          | TimerCallback => enqueue s2 (Reschedule name)
          | _ => s2
          end
      | Async turns result => enqueue s1 (ResumeTask name turns result w)
      end
  end.

Definition scheduleNext (s : t) (now : number) (name : jsstring) : t :=
  match map_get name (tasks s) with
  | None => s
  | Some c =>
      if negb (running s) || negb (enabled c) then s
      else
        let delay :=
          match schedule c with
          | Interval ms _ => Ok ms
          | Cron expression =>
              match cron_next expression now with
              | Ok next =>
                  let d := num_sub next now in
                  Ok (if num_ltb d (Num 1000) then Num 1000 else d)
              | Throw m => Throw m
              end
          end in
        match delay with
        | Throw _ => s
        | Ok d =>
            let c1 :=
              mkTask (schedule c) (originalSchedule c) (task_fn c)
                (runImmediately c) (enabled c) (lastRun c)
                (Some (num_add now d)) (runCount c) (errors c) in
            setTimeout (with_tasks s (map_set name c1 (tasks s))) name d
        end
  end.

(** One iteration of the loop of [start]. *)
Definition start_task (now : number) (s : t) (name : jsstring) : t :=
  match map_get name (tasks s) with
  | None => s
  | Some config =>
      if negb (enabled config) then s
      else
        let s1 := if runImmediately config
                  then executeTask s now name NotAwaited else s in
        scheduleNext s1 now name
  end.

Definition start (s : t) (now : number) : t :=
  if running s then s
  else fold_left (start_task now) (map fst (tasks s)) (with_running s true).

Definition stop (s : t) : t :=
  mkScheduler (tasks s) [] false
    (filter (fun p => negb (existsb (fun q => Nat.eqb (snd q) (fst p))
                                    (timers s)))
            (pending_timers s))
    (next_timer_id s) (jobs s) (log s).

Definition set_enabled (b : bool) (c : task) : task :=
  mkTask (schedule c) (originalSchedule c) (task_fn c) (runImmediately c)
    b (lastRun c) (nextRun c) (runCount c) (errors c).

Definition enableTask (s : t) (now : number) (name : jsstring) : t :=
  match map_get name (tasks s) with
  | None => s
  | Some _ =>
      let s1 := update_task s name (set_enabled true) in
      if running s1 then scheduleNext s1 now name else s1
  end.

Definition disableTask (s : t) (name : jsstring) : t :=
  match map_get name (tasks s) with
  | None => s
  | Some _ =>
      let s1 := update_task s name (set_enabled false) in
      match map_get name (timers s1) with
      | Some timer =>
          let s2 := clearTimeout s1 timer in
          mkScheduler (tasks s2) (map_delete name (timers s2)) (running s2)
            (pending_timers s2) (next_timer_id s2) (jobs s2) (log s2)
      | None => s1
      end
  end.

Definition runNow (s : t) (now : number) (name : jsstring) : result t :=
  match map_get name (tasks s) with
  | None => Throw (js "Task not found: " ++ name)
  | Some _ => Ok (executeTask s now name RunNowCaller)
  end.

(** The callback given to [setTimeout] by [scheduleNext], when timer [id]
    fires.  The callback holds the configuration object the timer was
    armed for; here it is the entry registered under the name of the
    timer, which is that object as long as the name was neither removed
    nor registered anew since the timer was armed. *)
Definition fire_timer (s : t) (now : number) (id : nat) : t :=
  match find (fun p => Nat.eqb (fst p) id) (pending_timers s) with
  | None => s
  | Some (_, (name, _)) =>
      let s1 := clearTimeout s id in
      match map_get name (tasks s1) with
      | None => s1
      | Some config =>
          if negb (running s1) || negb (enabled config) then s1
          else executeTask s1 now name TimerCallback
      end
  end.

(** One turn of the job queue.  The continuation of an execution acts on
    the entry registered under the name of the task, which is the object
    the execution was started with as long as the name was neither removed
    nor registered anew in the meantime. *)
Definition run_job (s : t) (now : number) : t :=
  match jobs s with
  | [] => s
  | j :: rest =>
      let s0 := mkScheduler (tasks s) (timers s) (running s)
                  (pending_timers s) (next_timer_id s) rest (log s) in
      match j with
      | ResumeTask name (S turns) result w =>
          enqueue s0 (ResumeTask name turns result w)
      | ResumeTask name O result w =>
          let s1 := finish_task s0 now name result in
          match w with
          | TimerCallback => enqueue s1 (Reschedule name)
          | _ => s1
          end
      | Reschedule name => scheduleNext s0 now name
      end
  end.

Fixpoint run_jobs (fuel : nat) (s : t) (now : number) : t :=
  match fuel with
  | O => s
  | S fuel' =>
      match jobs s with
      | [] => s
      | _ => run_jobs fuel' (run_job s now) now
      end
  end.

Definition event_name (e : event) : jsstring :=
  match e with
  | Invoked name | Completed name | Armed name _ => name
  end.

(** The events of one task in a record of events. *)
Definition events_of (name : jsstring) (events : list event) : list event :=
  filter (fun e => str_eqb (event_name e) name) events.

(** [untouched name s s']: going from [s] to [s'], the entry of [name] in
    the tasks is the same, the scheduler runs as before, the events added
    to the record do not concern [name], and no job was removed. *)
Definition untouched (name : jsstring) (s s' : t) : Prop :=
  map_get name (tasks s') = map_get name (tasks s) /\
  running s' = running s /\
  (exists added, log s' = log s ++ added /\ events_of name added = []) /\
  (forall j, In j (jobs s) -> In j (jobs s')).

(** In a record of events, does every [setTimeout] for [name] come after
    an execution of [name] has finished? *)
Fixpoint completed_before_armed (name : jsstring) (events : list event)
  : bool :=
  match events with
  | [] => true
  | Completed n :: rest =>
      if str_eqb n name then true else completed_before_armed name rest
  | Armed n _ :: rest =>
      if str_eqb n name then false else completed_before_armed name rest
  | Invoked _ :: rest => completed_before_armed name rest
  end.

End WithCron.

(** A cron library that is never consulted, and the registration made by
    the daemon: one task, every hour, run immediately, whose function
    settles one turn after it returns. *)
Definition no_cron (expression : jsstring) (now : number) : result number :=
  Throw (js "no cron expression").

Definition market_creation : task_config :=
  mkConfig (Just (js "market-creation")) (Just (js "1h"))
    (Some (Async 1 Fulfilled)) (Some true) None.

Definition market_creation_scheduler : t :=
  match addTask empty market_creation with
  | Ok s => s
  | Throw _ => empty
  end.

(** ** Snapshots of the tasks *)

Record task_info := mkTaskInfo {
  info_name : jsstring;
  info_schedule : jsstring;
  info_enabled : bool;
  info_lastRun : option number;
  info_nextRun : option number;
  info_runCount : number;
  recentErrors : list (number * jsstring)
}.

(** [array.slice(-n)]: the last [n] elements. *)
Definition last_n {A : Type} (n : nat) (l : list A) : list A :=
  skipn (List.length l - n) l.

Definition getTaskInfo (s : t) (taskName : jsstring) : option task_info :=
  match map_get taskName (tasks s) with
  | None => None
  | Some config =>
      Some (mkTaskInfo taskName (originalSchedule config) (enabled config)
              (lastRun config) (nextRun config) (runCount config)
              (last_n 5 (errors config)))
  end.

(** [getAllTasks()]: what [getTaskInfo] returns for each name, in the
    order of the map. *)
Definition getAllTasks (s : t) : list (option task_info) :=
  map (fun entry => getTaskInfo s (fst entry)) (tasks s).

Definition getNextRun (s : t) (taskName : jsstring) : option number :=
  match map_get taskName (tasks s) with
  | None => None
  | Some config => nextRun config
  end.

(** ** Notions used to state the properties of the scheduler *)

(** Every task keeps at most ten errors. *)
Definition errors_bounded (s : t) : Prop :=
  forall name c, In (name, c) (tasks s) -> (List.length (errors c) <= 10)%nat.

(** The two maps of a scheduler have distinct keys. *)
Definition well_formed (s : t) : Prop :=
  NoDup (map fst (tasks s)) /\ NoDup (map fst (timers s)).

(** The timers pending in the event loop that were armed for a task. *)
Definition pending_for (s : t) (name : jsstring) : list nat :=
  map fst (filter (fun p => str_eqb (fst (snd p)) name) (pending_timers s)).

End Scheduler.

(* ===================================================================== *)
(** * The record store ([src/storage/market-store.js]) *)
(* ===================================================================== *)

Module MarketStore.
Import JS.

(** ** The tables

    A numeric column holds [NULL] ([None]) or a value.  Numbers bound to a
    column keep their value, except [NaN], which SQLite stores as [NULL].
    A TEXT column holds UTF-8: a row records the strings that were bound to
    the statement that wrote it, and the value of a TEXT column is the
    text of the string bound ([utf8_text]), which is what every query
    compares and every read returns. *)

Module Row.
Record t := mk {
  bound_address : jsstring;
  bound_question : jsstring;
  bound_category : option jsstring;
  bound_category_key : option jsstring;
  creation_time : option number;
  bound_creation_signature : option jsstring;
  bound_initial_liquidity : option jsstring;
  duration_days : option number;
  end_time : option number;
  bound_status : option jsstring;
  bound_outcome : option jsstring;
  bound_volume : option jsstring;
  resolution_time : option number;
  metadata : json
}.

(** The TEXT columns. *)
Definition address (r : t) : jsstring := utf8_text (bound_address r).
Definition question (r : t) : jsstring := utf8_text (bound_question r).
Definition category (r : t) : option jsstring :=
  option_map utf8_text (bound_category r).
Definition category_key (r : t) : option jsstring :=
  option_map utf8_text (bound_category_key r).
Definition creation_signature (r : t) : option jsstring :=
  option_map utf8_text (bound_creation_signature r).
Definition initial_liquidity (r : t) : option jsstring :=
  option_map utf8_text (bound_initial_liquidity r).
Definition status (r : t) : option jsstring :=
  option_map utf8_text (bound_status r).
Definition outcome (r : t) : option jsstring :=
  option_map utf8_text (bound_outcome r).
Definition volume (r : t) : option jsstring :=
  option_map utf8_text (bound_volume r).
End Row.

Module Event.
Record t := mk {
  id : Z;
  bound_event_type : option jsstring;
  bound_signature : option jsstring;
  data : json;
  processed : Z;
  timestamp : option number
}.

(** The TEXT columns. *)
Definition event_type (e : t) : option jsstring :=
  option_map utf8_text (bound_event_type e).
Definition signature (e : t) : option jsstring :=
  option_map utf8_text (bound_signature e).
End Event.

Record t := mkStore {
  markets : list Row.t;
  daemon_state : list (jsstring * (json * number));
  webhook_events : list Event.t;
  event_seq : Z
}.

(** [new MarketStore(path)] on a fresh database, after [_initSchema]. *)
Definition empty : t := mkStore [] [] [] 0.

Definition sql_number (n : number) : option number :=
  if isNaN n then None else Some n.

(** ** Market objects

    The argument of [saveMarket] and the result of [_rowToMarket].  A
    liquidity or a volume is a decimal string or a [BigInt]. *)

Inductive amount :=
| AStr (s : jsstring)
| ABig (z : Z).

Definition amount_toString (a : amount) : jsstring :=
  match a with
  | AStr s => s
  | ABig z => bigint_toString z
  end.

(** [x?.toString() || null] *)
Definition amount_column (x : jsopt amount) : option jsstring :=
  match x with
  | Just a => let s := amount_toString a in
              if truthy_str s then Some s else None
  | _ => None
  end.

Record market := mkMarket {
  address : jsstring;
  question : jsstring;
  category : jsopt jsstring;
  categoryKey : jsopt jsstring;
  creationTime : jsopt number;
  creationSignature : jsopt jsstring;
  initialLiquidity : jsopt amount;
  durationDays : jsopt number;
  endTime : jsopt number;
  status : jsopt jsstring;
  outcome : jsopt jsstring;
  volume : jsopt amount;
  resolutionTime : jsopt number;
  metadata : jsopt json
}.

Definition _rowToMarket (row : Row.t) : market :=
  mkMarket (Row.address row) (Row.question row)
    (of_column (Row.category row)) (of_column (Row.category_key row))
    (of_column (Row.creation_time row))
    (of_column (Row.creation_signature row))
    (of_column (option_map AStr (Row.initial_liquidity row)))
    (of_column (Row.duration_days row))
    (of_column (Row.end_time row))
    (of_column (Row.status row)) (of_column (Row.outcome row))
    (of_column (option_map AStr (Row.volume row)))
    (of_column (Row.resolution_time row))
    (Just (Row.metadata row)).

(** [SELECT * FROM markets WHERE address = ?] *)
Definition getMarket (s : t) (address : jsstring) : option market :=
  option_map _rowToMarket
    (find (fun r => str_eqb (Row.address r) (utf8_text address)) (markets s)).

(** [record.endTime || (record.creationTime +
                        (record.durationDays * 24 * 60 * 60 * 1000))] *)
Definition computed_endTime (record : market) : number :=
  match endTime record with
  | Just n =>
      if truthy_num n then n
      else num_add (to_number (creationTime record))
             (num_mul (num_mul (num_mul (num_mul
                (to_number (durationDays record))
                (Num 24)) (Num 60)) (Num 60)) (Num 1000))
  | _ =>
      num_add (to_number (creationTime record))
        (num_mul (num_mul (num_mul (num_mul
           (to_number (durationDays record))
           (Num 24)) (Num 60)) (Num 60)) (Num 1000))
  end.

(** The row bound by [stmt.run(...)] in [saveMarket]. *)
Definition row_of_record (now : number) (record : market) : Row.t :=
  Row.mk (address record) (question record)
    (str_or_null (category record))
    (str_or_null (categoryKey record))
    (sql_number (num_or (creationTime record) now))
    (str_or_null (creationSignature record))
    (amount_column (initialLiquidity record))
    (num_or_null (durationDays record))
    (sql_number (computed_endTime record))
    (match str_or_null (status record) with
     | Some st => Some st
     | None => Some (js "active")
     end)
    (str_or_null (outcome record))
    (amount_column (volume record))
    (num_or_null (resolutionTime record))
    (match metadata record with
     | Just v => if truthy_json v then v else JObj []
     | _ => JObj []
     end).

(** [INSERT OR REPLACE INTO markets]: [address] is the primary key; a row
    with the same key is deleted and the new row is inserted. *)
Definition insert_or_replace (row : Row.t) (rows : list Row.t)
  : list Row.t :=
  filter (fun r => negb (str_eqb (Row.address r) (Row.address row))) rows
  ++ [row].

Definition with_markets (s : t) (rows : list Row.t) : t :=
  mkStore rows (daemon_state s) (webhook_events s) (event_seq s).

(** [saveMarket(record)]: the store after the call and the record read
    back.  [now] is the value of [Date.now()] during the call.  (The
    notification sent on the event bus does not touch the store.) *)
Definition saveMarket (s : t) (now : number) (record : market)
  : t * option market :=
  let s' := with_markets s
              (insert_or_replace (row_of_record now record) (markets s)) in
  (s', getMarket s' (address record)).

(** ** Queries *)

Record query := mkQuery {
  q_status : jsopt jsstring;
  q_category : jsopt jsstring;
  q_since : jsopt number;
  q_until : jsopt number;
  q_limit : jsopt Z;
  q_offset : jsopt Z
}.

(** [getAllMarkets()] and [getAllMarkets({})] *)
Definition no_options : query :=
  mkQuery Undefined Undefined Undefined Undefined Undefined Undefined.

(** A TEXT column compared with a string bound as a parameter. *)
Definition col_eqb (c : option jsstring) (v : jsstring) : bool :=
  match c with Some x => str_eqb x (utf8_text v) | None => false end.

Definition col_geb (c : option number) (v : number) : bool :=
  match c with Some x => num_geb x v | None => false end.

(** Order of the values of a numeric column: [NULL] first. *)
Definition col_ltb (a b : option number) : bool :=
  match a, b with
  | None, None => false
  | None, Some _ => true
  | Some _, None => false
  | Some x, Some y => num_ltb x y
  end.

(** [ORDER BY creation_time DESC].  SQLite leaves open the order of rows
    with equal keys; they are kept in table order here. *)
Fixpoint insert_desc (r : Row.t) (l : list Row.t) : list Row.t :=
  match l with
  | [] => [r]
  | x :: l' =>
      if col_ltb (Row.creation_time x) (Row.creation_time r)
      then r :: x :: l'
      else x :: insert_desc r l'
  end.

Definition order_by_creation_desc (l : list Row.t) : list Row.t :=
  fold_left (fun acc r => insert_desc r acc) l [].

Definition where_clause (options : query) (r : Row.t) : bool :=
  (match str_or_null (q_status options) with
   | Some st => col_eqb (Row.status r) st
   | None => true
   end) &&
  (match str_or_null (q_category options) with
   | Some c => col_eqb (Row.category_key r) c
   | None => true
   end) &&
  (match num_or_null (q_since options) with
   | Some n => col_geb (Row.creation_time r) n
   | None => true
   end) &&
  (match num_or_null (q_until options) with
   | Some n => match Row.creation_time r with
               | Some x => num_geb n x
               | None => false
               end
   | None => true
   end).

Definition limit_offset (options : query) (rows : list Row.t)
  : list Row.t :=
  match q_limit options with
  | Just lim =>
      if lim =? 0 then rows
      else
        let skipped :=
          match q_offset options with
          | Just off => if 0 <? off then skipn (Z.to_nat off) rows else rows
          | _ => rows
          end in
        if lim <? 0 then skipped else firstn (Z.to_nat lim) skipped
  | _ => rows
  end.

Definition getAllMarkets (s : t) (options : query) : list market :=
  map _rowToMarket
    (limit_offset options
       (order_by_creation_desc (filter (where_clause options) (markets s)))).

(** [DELETE FROM markets WHERE address = ?] and [changes > 0] *)
Definition deleteMarket (s : t) (address : jsstring) : t * bool :=
  (with_markets s
     (filter (fun r => negb (str_eqb (Row.address r) (utf8_text address)))
        (markets s)),
   existsb (fun r => str_eqb (Row.address r) (utf8_text address)) (markets s)).

(** ** Performance metrics *)

(** [CAST(text AS INTEGER)]: leading spaces are skipped, the longest
    prefix that reads as an integer is taken ([0] if there is none), and a
    value outside the 64-bit range is replaced by the nearest bound. *)
Definition is_sql_space (c : char) : bool :=
  existsb (N.eqb c) [9; 10; 11; 12; 13; 32]%N.

Definition INT64_MAX : Z := 2 ^ 63 - 1.
Definition INT64_MIN : Z := - 2 ^ 63.

Definition cast_integer (text : jsstring) : Z :=
  let s1 := snd (span is_sql_space text) in
  let '(negative, s2) :=
    match s1 with
    | 45%N :: rest => (true, rest)
    | 43%N :: rest => (false, rest)
    | _ => (false, s1)
    end in
  let v := digits_value 0 (fst (span is_digit s2)) in
  let v' := if negative then - v else v in
  Z.max INT64_MIN (Z.min INT64_MAX v').

(** [SUM] over 64-bit integers: [NULL]s are skipped, the sum of no value
    is [NULL], and an overflow of the running sum is an error. *)
Fixpoint sql_sum (acc : option Z) (values : list (option Z))
  : result (option Z) :=
  match values with
  | [] => Ok acc
  | None :: rest => sql_sum acc rest
  | Some v :: rest =>
      let total := match acc with Some a => a + v | None => v end in
      if (total <? INT64_MIN) || (INT64_MAX <? total)
      then Throw (js "integer overflow")
      else sql_sum (Some total) rest
  end.

(** [BigInt(n)] of a number: a [RangeError] unless [n] is an integer. *)
Definition BigInt (n : number) : result Z :=
  match n with
  | Num z => Ok z
  | _ => Throw (js "The number cannot be converted to a BigInt")
  end.

Record metrics := mkMetrics {
  totalVolume : jsstring;
  averageDuration : number;
  resolutionRate : f64;
  marketCount : nat
}.

(** [Math.round(x * 100) / 100] *)
Definition two_decimals (x : f64) : f64 :=
  f64_div (f64_of_number (Math_round (f64_mul x (f64_of_Z 100))))
          (f64_of_Z 100).

Definition getPerformanceMetrics (s : t) : result metrics :=
  let resolved :=
    filter (fun r => col_eqb (Row.status r) (js "resolved")) (markets s) in
  match sql_sum None
          (map (fun r => option_map cast_integer (Row.volume r)) (markets s))
  with
  | Throw m => Throw m
  | Ok volumeResult =>
      (* the integer read back as a number; then [BigInt(total || 0)] *)
      let total_number :=
        match volumeResult with
        | Some z => Just (round53 z)
        | None => Null
        end in
      let totalVolume := BigInt (num_or total_number (Num 0)) in
      let averageDuration :=
        if (0 <? List.length resolved)%nat then
          let totalDays :=
            fold_left
              (fun sum m => num_add sum
                              (num_or (of_column (Row.duration_days m))
                                      (Num 0)))
              resolved (Num 0) in
          f64_div (f64_of_number totalDays)
                  (f64_of_Z (Z.of_nat (List.length resolved)))
        else f64_of_Z 0 in
      let total := List.length (markets s) in
      let resolutionRate :=
        if (0 <? total)%nat
        then f64_div (f64_of_Z (Z.of_nat (List.length resolved)))
                     (f64_of_Z (Z.of_nat total))
        else f64_of_Z 0 in
      match totalVolume with
      | Throw m => Throw m
      | Ok volume_sum =>
          Ok (mkMetrics
                (bigint_toString volume_sum)
                (Math_round averageDuration)
                (two_decimals resolutionRate)
                (List.length resolved))
      end
  end.

(** ** Daemon state *)

Definition with_daemon_state (s : t)
  (rows : list (jsstring * (json * number))) : t :=
  mkStore (markets s) rows (webhook_events s) (event_seq s).

(** [INSERT OR REPLACE INTO daemon_state] *)
Definition put_state (key : jsstring) (value : json) (now : number)
  (rows : list (jsstring * (json * number)))
  : list (jsstring * (json * number)) :=
  filter (fun r => negb (str_eqb (utf8_text (fst r)) (utf8_text key))) rows
  ++ [(key, (value, now))].

Fixpoint object_set (k : jsstring) (v : json)
  (fields : list (jsstring * json)) : list (jsstring * json) :=
  match fields with
  | [] => [(k, v)]
  | (k', v') :: rest =>
      if str_eqb k k' then (k', v) :: rest else (k', v') :: object_set k v rest
  end.

(** The two calling conventions of [saveState]. *)
Inductive state_arg :=
| ByKey (key : jsstring) (value : json)
| WholeState (stateObject : list (jsstring * json)).

Definition saveState (s : t) (now : number) (arg : state_arg) : t :=
  match arg with
  | ByKey key value =>
      with_daemon_state s (put_state key value now (daemon_state s))
  | WholeState stateObject =>
      with_daemon_state s
        (put_state (js "__full_state__")
           (JObj (object_set (js "savedAt") (json_of_number now) stateObject))
           now (daemon_state s))
  end.

Definition select_state (s : t) (key : jsstring) : json :=
  match find (fun r => str_eqb (utf8_text (fst r)) (utf8_text key))
          (daemon_state s) with
  | Some (_, (value, _)) => value
  | None => JNull
  end.

(** [getState(key)]; [getState()] reads the whole-state row. *)
Definition getState (s : t) (key : jsopt jsstring) : json :=
  match str_or_null key with
  | Some k => select_state s k
  | None => select_state s (js "__full_state__")
  end.

(** [getAllState()]: the properties of the whole-state object and the
    other keys, merged in table order. *)
Definition getAllState (s : t) : list (jsstring * json) :=
  fold_left
    (fun state r =>
       if str_eqb (utf8_text (fst r)) (js "__full_state__") then
         match fst (snd r) with
         | JObj fields =>
             fold_left (fun st f => object_set (fst f) (snd f) st) fields state
         | _ => state
         end
       else object_set (utf8_text (fst r)) (fst (snd r)) state)
    (daemon_state s) [].

(** ** Inbound events *)

Definition saveWebhookEvent (s : t) (now : number)
  (type signature : option jsstring) (data : json) : t :=
  let id := event_seq s + 1 in
  mkStore (markets s) (daemon_state s)
    (webhook_events s ++ [Event.mk id type signature data 0 (sql_number now)])
    id.

Fixpoint insert_event_desc (e : Event.t) (l : list Event.t) : list Event.t :=
  match l with
  | [] => [e]
  | x :: l' =>
      if col_ltb (Event.timestamp x) (Event.timestamp e)
      then e :: x :: l'
      else x :: insert_event_desc e l'
  end.

(** [getWebhookEvents(limit)] with a number *)
Definition getWebhookEvents (s : t) (limit : Z) : list Event.t :=
  let sorted :=
    fold_left (fun acc e => insert_event_desc e acc) (webhook_events s) [] in
  if limit <? 0 then sorted else firstn (Z.to_nat limit) sorted.

(** [markWebhookProcessed(id)]: [processed] becomes 1 in the row with
    that identifier; its other columns are as they were. *)
Definition markWebhookProcessed (s : t) (id : Z) : t :=
  mkStore (markets s) (daemon_state s)
    (map (fun e =>
            if Event.id e =? id
            then Event.mk (Event.id e) (Event.event_type e)
                   (Event.signature e) (Event.data e) 1 (Event.timestamp e)
            else e)
         (webhook_events s))
    (event_seq s).

(** ** Clear, export, import *)

(** [clear()]: the three tables are emptied (the event id sequence is
    kept by SQLite). *)
Definition clear (s : t) : t := mkStore [] [] [] (event_seq s).

(** A JSON text is represented by what [JSON.parse] makes of it: an error,
    or a document whose properties [markets], [state] and [events] may be
    present. *)
Record document := mkDocument {
  doc_markets : jsopt (list market);
  doc_state : jsopt (list (jsstring * json));
  doc_events : jsopt (list Event.t)
}.

Inductive json_text :=
| Malformed
| Text (d : document).

(** A market object as it is written by [JSON.stringify]: numbers that
    are not finite become [null]. *)
Definition json_market (m : market) : market :=
  mkMarket (address m) (question m) (category m) (categoryKey m)
    (json_number (creationTime m)) (creationSignature m)
    (initialLiquidity m) (json_number (durationDays m))
    (json_number (endTime m)) (status m) (outcome m) (volume m)
    (json_number (resolutionTime m)) (metadata m).

Definition export (s : t) : json_text :=
  Text (mkDocument
          (Just (map json_market (getAllMarkets s no_options)))
          (Just (getAllState s))
          (Just (getWebhookEvents s 1000))).

(** [import(jsonString)]: every market of the document goes through
    [saveMarket]; the result is [false] when the text does not parse. *)
Definition import (s : t) (now : number) (jsonString : json_text)
  : t * bool :=
  match jsonString with
  | Malformed => (s, false)
  | Text data =>
      match doc_markets data with
      | Just markets =>
          (fold_left (fun st m => fst (saveMarket st now m)) markets s, true)
      | _ => (s, true)
      end
  end.

(** ** Construction

    [new MarketStore(dbPath)].  For a path other than [':memory:'] the
    directory of the path is computed with [dirname], which accepts
    strings only, and the database file at that path is opened; otherwise
    the database is a fresh one in memory.  [files] gives the tables found
    in the file at a path. *)
Inductive constructor_arg :=
| ArgNull
| ArgPath (path : jsstring)
| ArgObject (storagePath : jsopt jsstring).

Definition construct (files : jsstring -> t) (dbPath : constructor_arg)
  : result t :=
  match dbPath with
  | ArgNull => Ok empty
  | ArgPath path =>
      if truthy_str path && negb (str_eqb path (js ":memory:"))
      then Ok (files path)
      else Ok empty
  | ArgObject _ =>
      Throw (js "The " ++ quote (js "path") ++
             js " argument must be of type string. Received an instance of Object")
  end.

(** ** Notions used to state the properties of the store *)

(** The rows stored under an identifier. *)
Definition rows_for (s : t) (address : jsstring) : list Row.t :=
  filter (fun r => str_eqb (Row.address r) (utf8_text address)) (markets s).





(** The row written when a market that was read from a row is saved
    again, possibly after a passage through JSON. *)
Definition resaved (now : number) (r : Row.t) : Row.t :=
  row_of_record now (json_market (_rowToMarket r)).

(** Is the identifier of a row among [addresses]? *)
Definition stored_in (addresses : list jsstring) (r : Row.t) : bool :=
  existsb (str_eqb (Row.address r)) addresses.

(** The identifiers and question texts of the stored records. *)
Definition contents (s : t) : list (jsstring * jsstring) :=
  map (fun r => (Row.address r, Row.question r)) (markets s).

(** ** [updateMarket]

    The keys of [fieldMap] are the updates this model covers, with values
    of the types of their columns ([None] is [null]); other property names
    are spliced by the code into the SQL text as they are. *)
Inductive update :=
| SetStatus (value : option jsstring)
| SetOutcome (value : option jsstring)
| SetVolume (value : option jsstring)
| SetResolutionTime (value : option number).

Definition apply_update (r : Row.t) (u : update) : Row.t :=
  match u with
  | SetStatus v =>
      Row.mk (Row.bound_address r) (Row.bound_question r)
        (Row.bound_category r) (Row.bound_category_key r)
        (Row.creation_time r) (Row.bound_creation_signature r)
        (Row.bound_initial_liquidity r) (Row.duration_days r)
        (Row.end_time r) v (Row.bound_outcome r) (Row.bound_volume r)
        (Row.resolution_time r) (Row.metadata r)
  | SetOutcome v =>
      Row.mk (Row.bound_address r) (Row.bound_question r)
        (Row.bound_category r) (Row.bound_category_key r)
        (Row.creation_time r) (Row.bound_creation_signature r)
        (Row.bound_initial_liquidity r) (Row.duration_days r)
        (Row.end_time r) (Row.bound_status r) v (Row.bound_volume r)
        (Row.resolution_time r) (Row.metadata r)
  | SetVolume v =>
      Row.mk (Row.bound_address r) (Row.bound_question r)
        (Row.bound_category r) (Row.bound_category_key r)
        (Row.creation_time r) (Row.bound_creation_signature r)
        (Row.bound_initial_liquidity r) (Row.duration_days r)
        (Row.end_time r) (Row.bound_status r) (Row.bound_outcome r) v
        (Row.resolution_time r) (Row.metadata r)
  | SetResolutionTime v =>
      Row.mk (Row.bound_address r) (Row.bound_question r)
        (Row.bound_category r) (Row.bound_category_key r)
        (Row.creation_time r) (Row.bound_creation_signature r)
        (Row.bound_initial_liquidity r) (Row.duration_days r)
        (Row.end_time r) (Row.bound_status r) (Row.bound_outcome r)
        (Row.bound_volume r)
        (match v with Some n => sql_number n | None => None end)
        (Row.metadata r)
  end.

(** [UPDATE markets SET ... WHERE address = ?]: the assignments are made
    in the row stored under the address, the rightmost one of a column
    winning. *)
Definition update_rows (address : jsstring) (updates : list update)
  (rows : list Row.t) : list Row.t :=
  map (fun r => if str_eqb (Row.address r) (utf8_text address)
                then fold_left apply_update updates r else r)
      rows.

(** [updateMarket(address, updates)]: [null] and no change for an absent
    record; otherwise the record read back after the update. *)
Definition updateMarket (s : t) (address : jsstring) (updates : list update)
  : t * option market :=
  match getMarket s address with
  | None => (s, None)
  | Some _ =>
      let s' :=
        match updates with
        | [] => s
        | _ => with_markets s (update_rows address updates (markets s))
        end in
      (s', getMarket s' address)
  end.

(** The value that a list of updates assigns last to a column, if it
    assigns one. *)
Definition last_assigned {A : Type} (pick : update -> option A)
  (us : list update) : option A :=
  fold_left (fun acc u => match pick u with Some v => Some v | None => acc end)
    us None.

Definition status_set (u : update) : option (option jsstring) :=
  match u with SetStatus v => Some v | _ => None end.

Definition outcome_set (u : update) : option (option jsstring) :=
  match u with SetOutcome v => Some v | _ => None end.

Definition volume_set (u : update) : option (option jsstring) :=
  match u with SetVolume v => Some v | _ => None end.

Definition resolutionTime_set (u : update) : option (option number) :=
  match u with SetResolutionTime v => Some v | _ => None end.

(** ** [getStats]: the counters

    (The grouping by category, for which SQLite leaves the order of the
    groups and the row that represents a group to the query plan, is not
    part of this model.) *)
Record stats := mkStats {
  total : nat;
  active : nat;
  resolved : nat;
  cancelled : nat;
  recentCount : nat
}.

Definition count_status (s : t) (status : jsstring) : nat :=
  List.length (filter (fun r => col_eqb (Row.status r) status) (markets s)).

Definition getStats (s : t) (now : number) : stats :=
  let weekAgo :=
    num_sub now
      (num_mul (num_mul (num_mul (num_mul (Num 7) (Num 24)) (Num 60))
                        (Num 60)) (Num 1000)) in
  mkStats (List.length (markets s))
    (count_status s (js "active"))
    (count_status s (js "resolved"))
    (count_status s (js "cancelled"))
    (List.length
       (filter (fun r => col_geb (Row.creation_time r) weekAgo) (markets s))).

(** ** Inbound events, with filters *)

Record event_filters := mkFilters {
  f_eventType : jsopt jsstring;
  f_processed : jsopt bool;
  f_limit : jsopt Z
}.

(** [getWebhookEvents(filters)] with an object: [processed] is compared
    when it is not [undefined], [null] counting as [false]. *)
Definition getWebhookEventsBy (s : t) (filters : event_filters)
  : list Event.t :=
  let matching e :=
    (match str_or_null (f_eventType filters) with
     | Some ty => col_eqb (Event.event_type e) ty
     | None => true
     end) &&
    (match f_processed filters with
     | Undefined => true
     | Null => Event.processed e =? 0
     | Just b => Event.processed e =? (if b then 1 else 0)
     end) in
  let sorted :=
    fold_left (fun acc e => insert_event_desc e acc)
      (filter matching (webhook_events s)) [] in
  match f_limit filters with
  | Just lim =>
      if lim =? 0 then sorted
      else if lim <? 0 then sorted
      else firstn (Z.to_nat lim) sorted
  | _ => sorted
  end.

(** [logWebhookEvent(eventType, signature, data)] *)
Definition logWebhookEvent (s : t) (now : number)
  (eventType signature : option jsstring) (data : json) : t :=
  saveWebhookEvent s now eventType signature data.

(** [a] comes before [b] in the order newest first: its creation time is
    not below that of [b]. *)
Definition not_older (a b : Row.t) : Prop :=
  col_ltb (Row.creation_time a) (Row.creation_time b) = false.

(** The identifiers of the inbound events are distinct and none is above
    the counter of the sequence. *)
Definition events_well_numbered (s : t) : Prop :=
  NoDup (map Event.id (webhook_events s)) /\
  forall e, In e (webhook_events s) -> Event.id e <= event_seq s.

End MarketStore.

(* ===================================================================== *)
(** * The daemon orchestrator ([src/daemon/index.js]) *)
(* ===================================================================== *)

Module Daemon.
Import JS.

(** ** Configuration

    The constructor merges defaults with the options it is given: a
    property that is given keeps its value, a property that is absent
    ([Undefined]) takes the default.  The options of the news monitor, of
    the webhook listener and of logging configure collaborators that are
    outside this model. *)

Record config := mkConfig {
  schedule : jsopt jsstring;
  maxIterations : jsopt number;
  marketsPerRound : jsopt number;
  dryRun : jsopt bool;
  storagePath : jsopt jsstring
}.

Definition default {A : Type} (x : jsopt A) (d : jsopt A) : jsopt A :=
  match x with
  | Undefined => d
  | given => given
  end.

Definition merge_defaults (options : config) : config :=
  mkConfig
    (default (schedule options) (Just (js "1h")))
    (default (maxIterations options) Null)
    (default (marketsPerRound options) (Just (Num 1)))
    (default (dryRun options) (Just false))
    (default (storagePath options) Null).

(** ** State *)

(** Notifications published on the event bus by the daemon. *)
Inductive event :=
| DAEMON_STARTED
| DAEMON_STOPPED (totalIterations : number)
| CYCLE_START (iteration : number)
| CYCLE_COMPLETE (iteration : number) (successCount failCount : nat)
| CYCLE_ERROR (iteration : number) (error : jsstring)
| MARKET_CREATED (market : jsstring)
| MARKET_FAILED (error : jsstring)
| STATE_SAVED (iterationCount : number)
| STATE_RESTORED.

(** The store object held in [this.store]: its tables, and whether the
    connection is still open. *)
Record handle := mkHandle {
  db : MarketStore.t;
  is_open : bool
}.

Record t := mkDaemon {
  cfg : config;
  scheduler : Scheduler.t;
  store : option handle;
  isRunning : bool;
  iterationCount : number;
  startTime : jsopt number;
  events : list event
}.

(** [new PrivacyOracleDaemon(options)] *)
Definition create (options : config) : t :=
  mkDaemon (merge_defaults options) Scheduler.empty None false (Num 0)
    Null [].

Definition emit (d : t) (e : event) : t :=
  mkDaemon (cfg d) (scheduler d) (store d) (isRunning d) (iterationCount d)
    (startTime d) (events d ++ [e]).

Definition with_store (d : t) (h : option handle) : t :=
  mkDaemon (cfg d) (scheduler d) h (isRunning d) (iterationCount d)
    (startTime d) (events d).

Definition with_iterationCount (d : t) (n : number) : t :=
  mkDaemon (cfg d) (scheduler d) (store d) (isRunning d) n
    (startTime d) (events d).

Definition with_scheduler (d : t) (sch : Scheduler.t) : t :=
  mkDaemon (cfg d) sch (store d) (isRunning d) (iterationCount d)
    (startTime d) (events d).

Definition with_isRunning (d : t) (b : bool) : t :=
  mkDaemon (cfg d) (scheduler d) (store d) b (iterationCount d)
    (startTime d) (events d).

(** A daemon whose store is the open database [tables]. *)
Definition attach (d : t) (tables : MarketStore.t) : t :=
  with_store d (Some (mkHandle tables true)).

Definition not_open : jsstring := js "The database connection is not open".

(** ** [saveState] and [restoreState] *)

(** A property as [JSON.stringify] writes it: a property whose value is
    [undefined] is left out. *)
Definition json_property {A : Type} (key : jsstring) (to_json : A -> json)
  (x : jsopt A) : list (jsstring * json) :=
  match x with
  | Undefined => []
  | Null => [(key, JNull)]
  | Just a => [(key, to_json a)]
  end.

(** The object written under the key ['daemon']. *)
Definition state_object (d : t) (now : number) : json :=
  JObj [(js "iterationCount", json_of_number (iterationCount d));
        (js "lastRunTime", json_of_number now);
        (js "config",
         JObj (json_property (js "schedule") JStr (schedule (cfg d)) ++
               json_property (js "marketsPerRound") json_of_number
                 (marketsPerRound (cfg d))))].

Definition saveState (d : t) (now : number) : result t :=
  match store d with
  | None => Ok d
  | Some h =>
      if is_open h then
        let tables :=
          MarketStore.saveState (db h) now
            (MarketStore.ByKey (js "daemon") (state_object d now)) in
        Ok (emit (with_store d (Some (mkHandle tables true)))
                 (STATE_SAVED (iterationCount d)))
      else Throw not_open
  end.

(** The value of [state.iterationCount || 0].  The counter is written by
    [saveState] as a number; a value of another type is not a counter and
    is read as [NaN]. *)
Definition restored_count (state : json) : number :=
  match state with
  | JObj fields =>
      match json_field (js "iterationCount") fields with
      | Some v =>
          if truthy_json v then
            match v with
            | JNum z => round53 z
            | _ => NaN
            end
          else Num 0
      | None => Num 0
      end
  | _ => Num 0
  end.

Definition restoreState (d : t) : t :=
  match store d with
  | None => d
  | Some h =>
      if is_open h then
        let state := MarketStore.getState (db h) (Just (js "daemon")) in
        if truthy_json state then
          emit (with_iterationCount d (restored_count state)) STATE_RESTORED
        else d
      else d
  end.

(** ** [stop] *)

(** The final state and, when [saveState] fails, the error with which
    the call rejects. *)
Definition stop (d : t) (now : number) : t * option jsstring :=
  if negb (isRunning d) then (d, None)
  else
    let d1 := with_scheduler d (Scheduler.stop (scheduler d)) in
    match saveState d1 now with
    | Throw m => (d1, Some m)
    | Ok d2 =>
        let d3 :=
          match store d2 with
          | Some h => with_store d2 (Some (mkHandle (db h) false))
          | None => d2
          end in
        (emit (with_isRunning d3 false) (DAEMON_STOPPED (iterationCount d3)),
         None)
    end.

(** ** [executeCycle] *)

(** What the market-creation service reports for one market. *)
Record creation := mkCreation {
  success : bool;
  market : jsstring;
  question : jsstring;
  category : jsopt jsstring;
  categoryKey : jsopt jsstring;
  signature : jsopt jsstring;
  liquidity : jsopt MarketStore.amount;
  durationDays : jsopt number;
  error : jsstring
}.

Definition maxIterations_reached (d : t) : bool :=
  match maxIterations (cfg d) with
  | Just m => truthy_num m && num_geb (iterationCount d) m
  | _ => false
  end.

(** The record passed to [saveMarket] for a market that was created. *)
Definition market_record (d : t) (now : number) (newsContext : json)
  (r : creation) : MarketStore.market :=
  MarketStore.mkMarket (market r) (question r) (category r) (categoryKey r)
    (Just now) (signature r) (liquidity r) (durationDays r) Undefined
    (Just (js "active")) Undefined Undefined Undefined
    (Just (JObj [(js "newsContext", newsContext);
                 (js "iteration", json_of_number (iterationCount d))])).

(** The loop over the results of the batch; it stops at the first call
    that throws. *)
Fixpoint store_results (d : t) (now : number) (newsContext : json)
  (results : list creation) : t * option jsstring :=
  match results with
  | [] => (d, None)
  | r :: rest =>
      if success r then
        match store d with
        | None =>
            (d, Some (js "Cannot read properties of null (reading 'saveMarket')"))
        | Some h =>
            if is_open h then
              let tables :=
                fst (MarketStore.saveMarket (db h) now
                       (market_record d now newsContext r)) in
              store_results
                (emit (with_store d (Some (mkHandle tables true)))
                      (MARKET_CREATED (market r)))
                now newsContext rest
            else (d, Some not_open)
        end
      else
        store_results (emit d (MARKET_FAILED (error r))) now newsContext rest
  end.

(** [this.iterationCount++] and the cycle-start notification. *)
Definition begin_cycle (d : t) : t :=
  let d1 := with_iterationCount d (num_add (iterationCount d) (Num 1)) in
  emit d1 (CYCLE_START (iterationCount d1)).

(** The end of the cycle: after an error in the body, the [catch]; else
    the state is saved and the completion is published, and an error in
    saving is caught in the same way. *)
Definition finish_cycle (d : t) (now : number) (err : option jsstring)
  (successCount failCount : nat) : t :=
  match err with
  | Some m => emit d (CYCLE_ERROR (iterationCount d) m)
  | None =>
      match saveState d now with
      | Throw m => emit d (CYCLE_ERROR (iterationCount d) m)
      | Ok d' =>
          emit d' (CYCLE_COMPLETE (iterationCount d') successCount failCount)
      end
  end.

(** [executeCycle()], run to completion.  [ideas] is what
    [generateMultipleMarkets] yields in a dry run, [batchResults] what
    [agent.createBatchMarkets] returns, [newsContext] the recent news. *)
Definition executeCycle (d : t) (now : number) (newsContext : json)
  (ideas : list (jsstring * jsstring))
  (batchResults : result (list creation)) : t :=
  if maxIterations_reached d then fst (stop d now)
  else
    let d2 := begin_cycle d in
    let body : t * option jsstring * (nat * nat) :=
      match dryRun (cfg d2) with
      | Just true => (d2, None, (List.length ideas, O))
      | _ =>
          match batchResults with
          | Throw m => (d2, Some m, (O, O))
          | Ok results =>
              let '(d3, err) := store_results d2 now newsContext results in
              (d3, err,
               (List.length (filter success results),
                List.length (filter (fun r => negb (success r)) results)))
          end
      end in
    let '(d3, err, (ok, failed)) := body in
    finish_cycle d3 now err ok failed.

(** ** A persisted state

    The tables of a store in which a daemon state with the given
    iteration count was saved under the key ['daemon'], and the options of
    a daemon created without any. *)
Definition daemon_state_of (k : Z) : json :=
  JObj [(js "iterationCount", JNum k);
        (js "lastRunTime", JNum 1700000000000);
        (js "config",
         JObj [(js "schedule", JStr (js "1h"));
               (js "marketsPerRound", JNum 1)])].

Definition store_with_state (k : Z) : MarketStore.t :=
  MarketStore.saveState MarketStore.empty (Num 1700000000000)
    (MarketStore.ByKey (js "daemon") (daemon_state_of k)).

Definition default_options : config :=
  mkConfig Undefined Undefined Undefined Undefined Undefined.

(** ** [start] *)

Section Start.

Variable cron_next : jsstring -> number -> result number.

(** The database files, by path. *)
Variable files : jsstring -> MarketStore.t.

(** [start()] up to the return of [scheduler.start()], in which the first
    cycle begins.  [agent_initialize] is the result of initialising the
    market-creation service and [cycle] what the scheduler observes of
    [executeCycle] as a task. *)
Definition start (d : t) (now : number) (agent_initialize : result unit)
  (cycle : Scheduler.action) : result t :=
  if isRunning d then Throw (js "Daemon is already running")
  else
    let d1 := mkDaemon (cfg d) (scheduler d) (store d) (isRunning d)
                (iterationCount d) (Just now) (events d) in
    match agent_initialize with
    | Throw m => Throw m
    | Ok _ =>
        match MarketStore.construct files
                (MarketStore.ArgObject (storagePath (cfg d1))) with
        | Throw m => Throw m
        | Ok tables =>
            let d2 := restoreState (attach d1 tables) in
            match Scheduler.addTask (scheduler d2)
                    (Scheduler.mkConfig (Just (js "market-creation"))
                       (schedule (cfg d2)) (Some cycle) (Some true) None)
            with
            | Throw m => Throw m
            | Ok sch =>
                let d3 :=
                  with_scheduler d2 (Scheduler.start cron_next sch now) in
                let d4 :=
                  if Scheduler.running sch then d3
                  else if maxIterations_reached d3 then fst (stop d3 now)
                  else begin_cycle d3 in
                Ok (emit (with_isRunning d4 true) DAEMON_STARTED)
            end
        end
    end.

End Start.

End Daemon.

(* ===================================================================== *)
(** * The relevance scorer ([src/monitoring/news-scorer.js]) *)
(* ===================================================================== *)

Module NewsScorer.
Import JS.

(** [PRIVACY_KEYWORDS], in the order of the object; a weight [w] is
    written [f64_lit (10 * w) 10]. *)
Definition PRIVACY_KEYWORDS : list (jsstring * f64) :=
  [ (js "zero-knowledge", f64_lit 30 10);
    (js "zk-proof", f64_lit 30 10);
    (js "zk-snark", f64_lit 30 10);
    (js "zk-stark", f64_lit 30 10);
    (js "zkrollup", f64_lit 30 10);
    (js "confidential", f64_lit 25 10);
    (js "encryption", f64_lit 25 10);
    (js "encrypted", f64_lit 25 10);
    (js "privacy-preserving", f64_lit 30 10);
    (js "private transaction", f64_lit 30 10);
    (js "tornado cash", f64_lit 30 10);
    (js "zcash", f64_lit 25 10);
    (js "monero", f64_lit 25 10);
    (js "light protocol", f64_lit 30 10);
    (js "elusiv", f64_lit 30 10);
    (js "aztec", f64_lit 25 10);
    (js "railgun", f64_lit 25 10);
    (js "secret network", f64_lit 25 10);
    (js "gdpr", f64_lit 20 10);
    (js "privacy law", f64_lit 25 10);
    (js "data protection", f64_lit 20 10);
    (js "surveillance", f64_lit 25 10);
    (js "sanctions", f64_lit 20 10);
    (js "ofac", f64_lit 25 10);
    (js "compliance", f64_lit 15 10);
    (js "kyc", f64_lit 15 10);
    (js "aml", f64_lit 15 10);
    (js "privacy", f64_lit 15 10);
    (js "anonymous", f64_lit 20 10);
    (js "anonymity", f64_lit 20 10);
    (js "pseudonymous", f64_lit 15 10);
    (js "private", f64_lit 10 10);
    (js "mixer", f64_lit 20 10);
    (js "mixing", f64_lit 20 10);
    (js "shielded", f64_lit 25 10);
    (js "homomorphic", f64_lit 30 10);
    (js "mpc", f64_lit 25 10);
    (js "secure enclave", f64_lit 20 10);
    (js "tee", f64_lit 20 10);
    (js "trusted execution", f64_lit 20 10);
    (js "data breach", f64_lit 25 10);
    (js "leak", f64_lit 15 10);
    (js "hack", f64_lit 15 10);
    (js "compromised", f64_lit 15 10);
    (js "solana privacy", f64_lit 30 10);
    (js "spl confidential", f64_lit 30 10);
    (js "token-2022 confidential", f64_lit 30 10) ].

Inductive category :=
| regulation
| technology
| adoption
| events.

(** [CATEGORY_KEYWORDS] *)
Definition CATEGORY_KEYWORDS : list (category * list jsstring) :=
  [ (regulation,
     map js ["law"; "regulation"; "gdpr"; "sanctions"; "ofac"; "compliance";
             "legislation"; "ban"; "restrict"]%string);
    (technology,
     map js ["zk"; "protocol"; "launch"; "release"; "upgrade"; "mainnet";
             "testnet"; "tvl"; "smart contract"]%string);
    (adoption,
     map js ["users"; "growth"; "adoption"; "enterprise"; "mainstream";
             "wallet"; "integration"]%string);
    (events,
     map js ["breach"; "hack"; "leak"; "scandal"; "arrest"; "raid";
             "lawsuit"; "verdict"]%string) ].

Inductive urgency :=
| breaking
| timely
| evergreen.

(** [URGENCY_KEYWORDS.breaking] and [URGENCY_KEYWORDS.timely] *)
Definition URGENCY_breaking : list jsstring :=
  map js ["breaking"; "just in"; "urgent"; "alert"; "confirmed"; "arrested";
          "breached"]%string.

Definition URGENCY_timely : list jsstring :=
  map js ["announces"; "launches"; "releases"; "proposes"; "reaches";
          "exceeds"; "surpasses"]%string.

(** A loop that returns at the first keyword found in the text. *)
Fixpoint first_match (text : jsstring) (keywords : list jsstring) : bool :=
  match keywords with
  | [] => false
  | keyword :: rest =>
      if includes text keyword then true else first_match text rest
  end.

Definition determineUrgency (text : jsstring) : urgency :=
  if first_match text URGENCY_breaking then breaking
  else if first_match text URGENCY_timely then timely
  else evergreen.

(** The number of keywords of a category found in the text. *)
Definition category_score (text : jsstring) (keywords : list jsstring) : nat :=
  List.length (filter (includes text) keywords).

(** The first category with the highest positive score, [technology]
    when no keyword is found. *)
Definition determineCategory (text : jsstring) : category :=
  snd (fold_left
         (fun best entry =>
            let score := category_score text (snd entry) in
            if (fst best <? score)%nat then (score, fst entry) else best)
         CATEGORY_KEYWORDS (O, technology)).

Record relevance := mkRelevance {
  score : number;
  matchedKeywords : list jsstring;
  suggestedCategory : category;
  urgency_tier : urgency
}.

Section Scorer.

(** [String.prototype.toLowerCase] *)
Variable toLowerCase : jsstring -> jsstring.

Definition scoreRelevance (text : jsstring) (sourceKeywords : list jsstring)
  (sourceWeight : f64) : relevance :=
  let lowerText := toLowerCase text in
  let '(score1, matched1) :=
    fold_left
      (fun acc entry =>
         if includes lowerText (fst entry)
         then (f64_add (fst acc) (f64_mul (snd entry) (f64_of_Z 10)),
               snd acc ++ [fst entry])
         else acc)
      PRIVACY_KEYWORDS (f64_of_Z 0, []) in
  let '(score2, matched2) :=
    fold_left
      (fun acc keyword =>
         if includes lowerText (toLowerCase keyword)
         then (f64_add (fst acc) (f64_of_Z 5),
               if existsb (str_eqb keyword) (snd acc) then snd acc
               else snd acc ++ [keyword])
         else acc)
      sourceKeywords (score1, matched1) in
  let rounded := Math_round (f64_mul score2 sourceWeight) in
  mkRelevance (Math_min rounded (Num 100)) matched2
    (determineCategory lowerText) (determineUrgency lowerText).

End Scorer.

(** [toLowerCase] on texts written in ASCII. *)
Definition ascii_toLowerCase (s : jsstring) : jsstring := map ascii_lower s.

(** ** [generateMarketFromNews] *)

(** A news event as far as the generator reads it; a category outside the
    four is [None]. *)
Record news_event := mkNewsEvent {
  ne_title : jsstring;
  ne_suggestedCategory : option category;
  ne_urgency : urgency
}.

Record generated_market := mkGenerated {
  gm_question : jsstring;
  gm_category : option category;
  gm_durationDays : Z;
  gm_urgency : urgency;
  sourceEvent : news_event
}.

Record entities := mkEntities {
  topic : jsstring;
  entity_words : list jsstring
}.

(** [String.prototype.endsWith] *)
Definition endsWith (s suffix : jsstring) : bool :=
  startsWith (rev s) (rev suffix).

Section Generator.

(** [String.prototype.toUpperCase], and [formatFutureDate]: the month and
    the year of the day that many days from now. *)
Variable toUpperCase : jsstring -> jsstring.
Variable formatFutureDate : Z -> jsstring.

Definition extractEntities (title : jsstring) : entities :=
  let words := split title 32%N in
  mkEntities (firstn 50 title)
    (filter
       (fun w =>
          (2 <? List.length w)%nat &&
          str_eqb (firstn 1 w) (toUpperCase (firstn 1 w)) &&
          negb (existsb (str_eqb w)
                  (map js ["The"; "And"; "For"; "New"; "With"]%string)))
       words).

(** [entities.topic || fallback] *)
Definition topic_or (e : entities) (fallback : jsstring) : jsstring :=
  if truthy_str (topic e) then topic e else fallback.

Definition generateMarketFromNews (newsEvent : news_event)
  : generated_market :=
  let e := extractEntities (ne_title newsEvent) in
  let durationDays :=
    match ne_urgency newsEvent with
    | breaking => 14
    | timely => 30
    | evergreen => 90
    end in
  let question :=
    match ne_suggestedCategory newsEvent with
    | Some regulation =>
        js "Will regulatory action be taken regarding " ++
        quote (topic_or e (js "this development")) ++
        js " within " ++ decimal durationDays ++ js " days?"
    | Some technology =>
        js "Will the technology mentioned in " ++
        quote (topic_or e (js "this news")) ++
        js " see significant adoption by " ++
        formatFutureDate durationDays ++ js "?"
    | Some adoption =>
        js "Will user adoption metrics exceed expectations for " ++
        quote (topic_or e (js "this platform")) ++
        js " by " ++ formatFutureDate durationDays ++ js "?"
    | Some events =>
        js "Will there be follow-up developments on " ++
        quote (topic_or e (js "this event")) ++
        js " within " ++ decimal durationDays ++ js " days?"
    | None =>
        js "Will " ++ quote (topic_or e (js "this development")) ++
        js " have significant impact by " ++
        formatFutureDate durationDays ++ js "?"
    end in
  mkGenerated question (ne_suggestedCategory newsEvent) durationDays
    (ne_urgency newsEvent) newsEvent.

End Generator.

(** The score of a category, as [determineCategory] counts it. *)
Definition score_of (text : jsstring) (c : category) : nat :=
  match c with
  | regulation =>
      category_score text
        (map js ["law"; "regulation"; "gdpr"; "sanctions"; "ofac";
                 "compliance"; "legislation"; "ban"; "restrict"]%string)
  | technology =>
      category_score text
        (map js ["zk"; "protocol"; "launch"; "release"; "upgrade"; "mainnet";
                 "testnet"; "tvl"; "smart contract"]%string)
  | adoption =>
      category_score text
        (map js ["users"; "growth"; "adoption"; "enterprise"; "mainstream";
                 "wallet"; "integration"]%string)
  | events =>
      category_score text
        (map js ["breach"; "hack"; "leak"; "scandal"; "arrest"; "raid";
                 "lawsuit"; "verdict"]%string)
  end.

(** The place of a category in the order of [CATEGORY_KEYWORDS]. *)
Definition rank (c : category) : nat :=
  match c with
  | regulation => 0
  | technology => 1
  | adoption => 2
  | events => 3
  end.

End NewsScorer.

(* ===================================================================== *)
(** * The event bus ([src/events/emitter.js]) *)
(* ===================================================================== *)

Module Emitter.
Import JS.

(** An event is an object; its properties are kept in order.  The bus
    keeps the history of the events, newest first.  (The listeners called
    by [emit] belong to the subscribers and are outside this model.) *)
Definition object := list (jsstring * json).

Record t := mkEmitter {
  eventHistory : list object;
  maxHistorySize : nat
}.

(** [new AgentEventEmitter()] *)
Definition create : t := mkEmitter [] 100.

(** Assignment to a property of an object: a present property keeps its
    place, a new one comes last. *)
Fixpoint set_property (k : jsstring) (v : json) (o : object) : object :=
  match o with
  | [] => [(k, v)]
  | (k', v') :: rest =>
      if str_eqb k k' then (k', v) :: rest
      else (k', v') :: set_property k v rest
  end.

(** The object [{ type: event, timestamp: Date.now(), ...payload }]. *)
Definition event_data (event : jsstring) (now : number) (payload : object)
  : object :=
  fold_left (fun o p => set_property (fst p) (snd p) o) payload
    [(js "type", JStr event); (js "timestamp", json_of_number now)].

(** [emitTyped(event, payload)]: [unshift], then [pop] when the history
    is longer than [maxHistorySize].  The call of [emit] that follows
    leaves the history as it is, also when it throws ([emit('error')]
    without a listener). *)
Definition emitTyped (e : t) (now : number) (event : jsstring)
  (payload : object) : t :=
  let history := event_data event now payload :: eventHistory e in
  mkEmitter
    (if (maxHistorySize e <? List.length history)%nat
     then removelast history else history)
    (maxHistorySize e).

(** [e.type === type] *)
Definition has_type (type : jsstring) (o : object) : bool :=
  match json_field (js "type") o with
  | Some (JStr s) => str_eqb s type
  | _ => false
  end.

(** [array.slice(0, limit)] for an integer [limit]: a negative [limit]
    counts from the end. *)
Definition slice_to {A : Type} (limit : Z) (l : list A) : list A :=
  if limit <? 0
  then firstn (List.length l - Z.to_nat (- limit)) l
  else firstn (Z.to_nat limit) l.

(** [getRecentEvents(type, limit)] *)
Definition getRecentEvents (e : t) (type : jsopt jsstring) (limit : Z)
  : list object :=
  let events :=
    match str_or_null type with
    | Some ty => filter (has_type ty) (eventHistory e)
    | None => eventHistory e
    end in
  slice_to limit events.

End Emitter.

(* ===================================================================== *)
(** * The news monitor ([src/monitoring/news-monitor.js]) *)
(* ===================================================================== *)

Module NewsMonitor.
Import JS.

(** The buffer of recent events and the set of identifiers already seen.
    A [Set] keeps its members in insertion order.  (Fetching and parsing
    the feeds is the work of the feed library and is outside this model;
    the model starts from the items it yields.) *)
Record news := mkNews {
  id : jsopt jsstring;
  title : jsstring;
  relevanceScore : number;
  suggestedCategory : NewsScorer.category;
  urgency : NewsScorer.urgency
}.

Record t := mkMonitor {
  recentEvents : list news;
  maxEvents : nat;
  seenIds : list (jsopt jsstring)
}.

(** [new NewsMonitor({ maxEvents })]: [config.maxEvents || 100]. *)
Definition create (maxEvents : nat) : t :=
  mkMonitor [] (match maxEvents with O => 100 | n => n end) [].

Definition id_eqb (a b : jsopt jsstring) : bool :=
  match a, b with
  | Undefined, Undefined => true
  | Null, Null => true
  | Just x, Just y => str_eqb x y
  | _, _ => false
  end.

(** [addEvent(event)]: [unshift], then [slice(0, maxEvents)]. *)
Definition addEvent (m : t) (event : news) : t :=
  let events := event :: recentEvents m in
  mkMonitor
    (if (maxEvents m <? List.length events)%nat
     then firstn (maxEvents m) events else events)
    (maxEvents m) (seenIds m).

(** [seenIds.add(id)], and above 10000 members only the 5000 added last
    are kept. *)
Definition mark_seen (m : t) (i : jsopt jsstring) : t :=
  let seen :=
    if existsb (id_eqb i) (seenIds m) then seenIds m else seenIds m ++ [i] in
  mkMonitor (recentEvents m) (maxEvents m)
    (if 10000 <? Z.of_nat (List.length seen)
     then skipn (Z.to_nat (Z.of_nat (List.length seen) - 5000)) seen
     else seen).

(** The body of the loop of [checkFeeds] for one item of a feed: [dedup]
    is the identifier by which the item is recognised and [event] what
    [processItem] makes of it.  The result tells whether the event was
    kept. *)
Definition check_item (m : t) (dedup : jsopt jsstring) (event : news)
  : t * bool :=
  if existsb (id_eqb dedup) (seenIds m) then (m, false)
  else
    let keep := num_geb (relevanceScore event) (Num 30) in
    let m1 := if keep then addEvent m event else m in
    (mark_seen m1 dedup, keep).

End NewsMonitor.

(* ===================================================================== *)
(** * The shutdown controller ([src/daemon/lifecycle.js]) *)
(* ===================================================================== *)

Module Lifecycle.
Import JS.

(** The closure of [setupGracefulShutdown]: its flag, the daemon it
    stops, the signals announced on the bus, and the code with which the
    process has exited, if it has.  (The deadline after which the exit is
    forced is a matter of real time and is outside this model.) *)
Record t := mkLifecycle {
  shuttingDown : bool;
  daemon : Daemon.t;
  announced : list jsstring;
  exit_code : option Z
}.




End Lifecycle.

(* ===================================================================== *)
(** * Facts about the runtime fragment *)
(* ===================================================================== *)

Module JSFacts.
Import JS.

Lemma str_eqb_refl (a : jsstring) : str_eqb a a = true.
Proof.
  induction a as [|x a IH]; simpl; [reflexivity|].
  now rewrite N.eqb_refl, IH.
Qed.

Lemma str_eqb_eq (a b : jsstring) : str_eqb a b = true <-> a = b.
Proof.
  split; [|intros ->; apply str_eqb_refl].
  revert b; induction a as [|x a IH]; intros [|y b]; simpl; try easy.
  rewrite andb_true_iff, N.eqb_eq; intros [-> H]; f_equal; auto.
Qed.

Lemma str_eqb_neq (a b : jsstring) : str_eqb a b = false <-> a <> b.
Proof.
  rewrite <- str_eqb_eq; destruct (str_eqb a b); split; congruence.
Qed.

Lemma str_eqb_sym (a b : jsstring) : str_eqb a b = str_eqb b a.
Proof.
  destruct (str_eqb a b) eqn:E.
  - apply str_eqb_eq in E; subst; symmetry; apply str_eqb_refl.
  - symmetry; apply str_eqb_neq; apply str_eqb_neq in E; congruence.
Qed.

(** *** Substrings *)

(** ** Text *)

Lemma utf8_text_plain (c : char) (s : jsstring) :
  is_high_surrogate c = false -> is_low_surrogate c = false ->
  utf8_text (c :: s) = c :: utf8_text s.
Proof. intros H L. cbn [utf8_text]. now rewrite H, L. Qed.

Lemma utf8_text_replacement (s : jsstring) :
  utf8_text (65533%N :: s) = 65533%N :: utf8_text s.
Proof. apply utf8_text_plain; reflexivity. Qed.

Lemma surrogate_high_not_low (c : char) :
  is_high_surrogate c = true -> is_low_surrogate c = false.
Proof.
  unfold is_high_surrogate, is_low_surrogate. intros H.
  apply andb_true_iff in H as [_ H]. apply N.leb_le in H.
  apply andb_false_iff. left. apply N.leb_gt. lia.
Qed.

(** The text of a text is the text itself. *)
Lemma utf8_text_idem (s : jsstring) : utf8_text (utf8_text s) = utf8_text s.
Proof.
  assert (G : forall n s, (List.length s <= n)%nat ->
                          utf8_text (utf8_text s) = utf8_text s).
  { clear s. induction n as [|n IH]; intros s Hn.
    - destruct s; [reflexivity|cbn in Hn; lia].
    - destruct s as [|c rest]; [reflexivity|]. cbn [List.length] in Hn.
      cbn [utf8_text].
      destruct (is_high_surrogate c) eqn:Hh.
      + destruct rest as [|d rest']; [reflexivity|].
        cbn [List.length] in Hn.
        destruct (is_low_surrogate d) eqn:Ld.
        * cbn [utf8_text]. rewrite Hh, Ld. rewrite IH by lia. reflexivity.
        * rewrite utf8_text_replacement. rewrite IH by (cbn; lia).
          reflexivity.
      + destruct (is_low_surrogate c) eqn:Lc.
        * rewrite utf8_text_replacement. rewrite IH by lia. reflexivity.
        * rewrite utf8_text_plain by assumption. rewrite IH by lia.
          reflexivity. }
  apply (G (List.length s)). lia.
Qed.

Lemma isWellFormed_spec (s : jsstring) :
  isWellFormed s = true <-> utf8_text s = s.
Proof. unfold isWellFormed. apply str_eqb_eq. Qed.

Lemma isWellFormed_utf8_text (s : jsstring) :
  isWellFormed (utf8_text s) = true.
Proof. apply isWellFormed_spec, utf8_text_idem. Qed.

Lemma startsWith_app (pat rest : jsstring) : startsWith (pat ++ rest) pat = true.
Proof.
  induction pat as [|p pat IH]; simpl; [reflexivity|].
  now rewrite N.eqb_refl, IH.
Qed.

Lemma includes_startsWith (s pat : jsstring) :
  startsWith s pat = true -> includes s pat = true.
Proof. destruct s; simpl; intros ->; reflexivity. Qed.

Lemma includes_app (before pat after : jsstring) :
  includes (before ++ pat ++ after) pat = true.
Proof.
  induction before as [|c before IH]; simpl.
  - apply includes_startsWith, startsWith_app.
  - rewrite IH; apply orb_true_r.
Qed.

Lemma includes_char (s : jsstring) (c : char) :
  includes s [c] = existsb (N.eqb c) s.
Proof.
  induction s as [|x s IH]; simpl; [reflexivity|].
  rewrite IH; destruct (c =? x)%N; reflexivity.
Qed.

Lemma existsb_eqb_false (s : jsstring) (c : char) :
  (forall x, In x s -> x <> c) -> existsb (N.eqb c) s = false.
Proof.
  induction s as [|x s IH]; simpl; intros H; [reflexivity|].
  rewrite IH by auto.
  destruct (N.eqb_spec c x) as [->|]; [|reflexivity].
  exfalso; apply (H x); auto.
Qed.

Lemma split_without_separator (s : jsstring) (sep : char) :
  (forall x, In x s -> x <> sep) -> split s sep = [s].
Proof.
  induction s as [|x s IH]; simpl; intros H; [reflexivity|].
  destruct (N.eqb_spec x sep) as [->|]; [exfalso; apply (H sep); auto|].
  rewrite IH by auto; reflexivity.
Qed.

Lemma span_app_stop (p : char -> bool) (s : jsstring) (c : char) (rest : jsstring) :
  forallb p s = true -> p c = false -> span p (s ++ c :: rest) = (s, c :: rest).
Proof.
  induction s as [|x s IH]; simpl; intros Hs Hc.
  - now rewrite Hc.
  - apply andb_true_iff in Hs as [Hx Hs]; rewrite Hx, IH by assumption.
    reflexivity.
Qed.

Lemma span_all (p : char -> bool) (s : jsstring) :
  forallb p s = true -> span p s = (s, []).
Proof.
  induction s as [|x s IH]; simpl; intros Hs; [reflexivity|].
  apply andb_true_iff in Hs as [Hx Hs]; rewrite Hx, IH by assumption.
  reflexivity.
Qed.

(** *** Digits *)

Lemma is_digit_cases (c : char) :
  is_digit c = true ->
  (c = 48 \/ c = 49 \/ c = 50 \/ c = 51 \/ c = 52 \/
   c = 53 \/ c = 54 \/ c = 55 \/ c = 56 \/ c = 57)%N.
Proof.
  unfold is_digit; rewrite andb_true_iff, !N.leb_le; lia.
Qed.


Lemma is_digit_range (c : char) :
  is_digit c = true -> 0 <= Z.of_N c - 48 <= 9.
Proof.
  unfold is_digit; rewrite andb_true_iff, !N.leb_le; lia.
Qed.

Lemma digits_value_lower (ds : jsstring) :
  forallb is_digit ds = true -> forall acc, 0 <= acc -> acc <= digits_value acc ds.
Proof.
  induction ds as [|c ds IH]; cbn [digits_value forallb];
    intros Hd acc Hacc; [lia|].
  apply andb_true_iff in Hd as [Hc Hd].
  apply is_digit_range in Hc.
  specialize (IH Hd (10 * acc + (Z.of_N c - 48))); lia.
Qed.

Lemma digits_value_nonneg (ds : jsstring) :
  forallb is_digit ds = true -> 0 <= digits_value 0 ds.
Proof. intros H; apply (digits_value_lower ds H 0); lia. Qed.








(** *** Numbers *)

Lemma round53_safe (z : Z) : Z.abs z <= MAX_SAFE_INTEGER -> round53 z = Num z.
Proof.
  unfold round53, MAX_SAFE_INTEGER; intros H.
  destruct (Z.ltb_spec (Z.abs z) (2 ^ 53)); [reflexivity|lia].
Qed.

Lemma num_add_safe (x y : Z) :
  Z.abs (x + y) <= MAX_SAFE_INTEGER -> num_add (Num x) (Num y) = Num (x + y).
Proof. intros; simpl; now apply round53_safe. Qed.

Lemma num_mul_safe (x y : Z) :
  Z.abs (x * y) <= MAX_SAFE_INTEGER -> num_mul (Num x) (Num y) = Num (x * y).
Proof. intros; simpl; now apply round53_safe. Qed.

(** [round53] agrees with the conversion of integers to doubles of the
    IEEE 754 specification, on small and large values, on ties and on
    overflow. *)
Example round53_is_IEEE_rounding :
  Forall (fun z => Math_round (f64_of_Z z) = round53 z)
    [0; 1; -5; 1800000; 2 ^ 53 - 1; 2 ^ 53; 2 ^ 53 + 1; 2 ^ 53 + 2;
     2 ^ 53 + 3; - (2 ^ 53 + 1); 9007199308800001; 9007199254740993000;
     2 ^ 60 + 129; 2 ^ 60 + 128; 2 ^ 60 + 384; 10 ^ 21 + 1; 10 ^ 30;
     2 ^ 63 - 1; 2 ^ 1024 - 2 ^ 970 - 1; 2 ^ 1024 - 2 ^ 970; 2 ^ 1024;
     - 2 ^ 1030].
Proof. repeat constructor. Qed.

(** [parseInt] of a run of digits is its value, rounded to a double. *)
Lemma parseInt_digits (ds : jsstring) :
  ds <> [] -> forallb is_digit ds = true ->
  parseInt ds = round53 (digits_value 0 ds).
Proof.
  intros Hne Hd.
  destruct ds as [|c ds]; [congruence|].
  assert (Hshape :
    parseInt (c :: ds) =
    match fst (span is_digit (c :: ds)) with
    | [] => NaN
    | d :: r => round53 (digits_value 0 (d :: r))
    end).
  { pose proof Hd as Hc. cbn [forallb] in Hc.
    apply andb_true_iff in Hc as [Hc _].
    apply is_digit_cases in Hc.
    destruct Hc as [->|[->|[->|[->|[->|[->|[->|[->|[->| ->]]]]]]]]];
      reflexivity. }
  rewrite Hshape, (span_all is_digit (c :: ds) Hd). reflexivity.
Qed.

End JSFacts.

(* ===================================================================== *)
(** * Facts about the scheduler *)
(* ===================================================================== *)

Module SchedulerFacts.
Import JS JSFacts Scheduler.

(** ** [parseSchedule] *)

Lemma digit_not (c x : char) :
  is_digit x = true -> is_digit c = false -> x <> c.
Proof. intros Hx Hc ->; congruence. Qed.

Lemma no_star_no_space (ds : jsstring) (u c : char) :
  forallb is_digit ds = true -> is_digit c = false -> u <> c ->
  forall x, In x (ds ++ [u]) -> x <> c.
Proof.
  intros Hd Hc Hu x Hx. apply in_app_or in Hx as [Hx|[<-|[]]]; [|assumption].
  rewrite forallb_forall in Hd. apply (digit_not c x); auto.
Qed.

(** A string that the code does not read as a cron expression, does not
    match as an interval and in which [parseInt] finds no number is
    rejected, and the message quotes the string. *)
Lemma parseSchedule_rejects (s : jsstring) :
  includes s (js "*") = false ->
  (List.length (split s 32%N) < 5)%nat ->
  match_interval s = None ->
  parseInt s = NaN ->
  parseSchedule s = Throw (invalid_schedule_message s) /\
  includes (invalid_schedule_message s) s = true.
Proof.
  intros Hstar Hlen Hmatch Hint. split.
  - unfold parseSchedule. rewrite Hstar, Hmatch, Hint.
    destruct (Nat.leb_spec 5 (List.length (split s 32%N))); [lia|].
    reflexivity.
  - unfold invalid_schedule_message. apply includes_app.
Qed.

(** C5 (as amended): for a run of digits [n] followed by a unit letter
    [s], [m], [h] or [d], with [n] times the multiplier of the unit (1000,
    60000, 3600000, 86400000) at most [2^53 - 1], [parseSchedule] returns
    the interval of exactly [n] times the multiplier milliseconds; and a
    string that contains a star is returned as a cron expression. *)
Theorem parseSchedule_interval_cron :
  (forall (ds : jsstring) (u : char),
      ds <> [] -> forallb is_digit ds = true -> In u (js "smhd") ->
      digits_value 0 ds * spec_multiplier u <= MAX_SAFE_INTEGER ->
      parseSchedule (ds ++ [u])
      = Ok (Interval (Num (digits_value 0 ds * spec_multiplier u))
                     (Some (ds ++ [u]))))
  /\
  (forall s : jsstring, In 42%N s -> parseSchedule s = Ok (Cron s)).
Proof.
  split.
  - intros ds u Hne Hd Hu Hsafe.
    pose proof (digits_value_nonneg ds Hd) as Hv.
    assert (Hunit : is_digit u = false /\ u <> 42%N /\ u <> 32%N /\
                    is_unit u = true /\ 1 <= spec_multiplier u /\
                    multipliers (ascii_lower u) = Num (spec_multiplier u)).
    { cbv [js list_ascii_of_string map In] in Hu.
      destruct Hu as [<-|[<-|[<-|[<-|[]]]]]; repeat split;
        try reflexivity; try discriminate. }
    destruct Hunit as (Hud & Hu42 & Hu32 & Huu & Hm1 & Hmul).
    unfold parseSchedule.
    change (js "*") with [42%N].
    rewrite includes_char, existsb_eqb_false
      by (apply no_star_no_space; auto).
    rewrite split_without_separator
      by (apply no_star_no_space; auto).
    cbn [List.length Nat.leb orb].
    unfold match_interval.
    rewrite (span_app_stop is_digit ds u [] Hd Hud).
    destruct ds as [|c ds']; [congruence|].
    rewrite Huu, Hmul, parseInt_digits by assumption.
    set (v := digits_value 0 (c :: ds')) in *.
    rewrite round53_safe by nia.
    rewrite num_mul_safe by nia.
    reflexivity.
  - intros s Hs. unfold parseSchedule.
    change (js "*") with [42%N].
    rewrite includes_char.
    assert (E : existsb (N.eqb 42) s = true).
    { apply existsb_exists. exists 42%N. split; [assumption|reflexivity]. }
    rewrite E. reflexivity.
Qed.

Lemma parseSchedule_interval_cron_witness :
  parseSchedule (js "30m")
  = Ok (Interval (Num 1800000) (Some (js "30m"))) /\
  parseSchedule (js "* * * * *") = Ok (Cron (js "* * * * *")).
Proof.
  split.
  - apply (proj1 parseSchedule_interval_cron (js "30") 109%N).
    + discriminate.
    + reflexivity.
    + vm_compute. auto.
    + vm_compute. discriminate.
  - apply (proj2 parseSchedule_interval_cron (js "* * * * *")).
    vm_compute. auto.
Defined.

(** C5 (as stated) fails: for [n = 9007199254740993] seconds the parsed
    integer is rounded to a double and the interval is not [n * 1000]. *)
Lemma parseSchedule_interval_not_exact :
  exists ms original,
    parseSchedule (js "9007199254740993s") = Ok (Interval ms original) /\
    ms = Num 9007199254740992000 /\
    ms <> Num (digits_value 0 (js "9007199254740993") * spec_multiplier 115%N).
Proof.
  exists (Num 9007199254740992000), (Some (js "9007199254740993s")).
  split; [vm_compute; reflexivity|]. split; [reflexivity|].
  vm_compute. discriminate.
Qed.

(** C4: strings that are not cron expressions, do not match an interval
    and are not plain non-negative integers, yet for which [parseSchedule]
    returns an interval instead of failing. *)
Lemma parseSchedule_accepts_non_integers :
  (includes (js "-5") (js "*") = false /\
   (List.length (split (js "-5") 32%N) < 5)%nat /\
   match_interval (js "-5") = None /\
   is_plain_integer (js "-5") = false /\
   parseSchedule (js "-5") = Ok (Interval (Num (-5)) None))
  /\
  (includes (js "1.5h") (js "*") = false /\
   (List.length (split (js "1.5h") 32%N) < 5)%nat /\
   match_interval (js "1.5h") = None /\
   is_plain_integer (js "1.5h") = false /\
   parseSchedule (js "1.5h") = Ok (Interval (Num 1) None)).
Proof.
  repeat split; try reflexivity; vm_compute; lia.
Qed.

(** The cases of the test-suite of the scheduler. *)
Example parseSchedule_tests :
  parseSchedule (js "30m") = Ok (Interval (Num (30 * 60 * 1000)) (Some (js "30m"))) /\
  parseSchedule (js "1h") = Ok (Interval (Num (60 * 60 * 1000)) (Some (js "1h"))) /\
  parseSchedule (js "1d")
  = Ok (Interval (Num (24 * 60 * 60 * 1000)) (Some (js "1d"))) /\
  parseSchedule (js "30s") = Ok (Interval (Num (30 * 1000)) (Some (js "30s"))) /\
  parseSchedule (js "* * * * *") = Ok (Cron (js "* * * * *")) /\
  parseSchedule (js "5000") = Ok (Interval (Num 5000) None).
Proof. vm_compute. repeat split; reflexivity. Qed.

Example parseSchedule_invalid :
  parseSchedule (js "invalid") = Throw (invalid_schedule_message (js "invalid"))
  /\ includes (invalid_schedule_message (js "invalid")) (js "invalid") = true.
Proof. apply parseSchedule_rejects; try reflexivity. vm_compute; lia. Qed.

(** ** The map of tasks *)

Lemma map_get_set_same {V : Type} (k : jsstring) (v : V) m :
  map_get k (map_set k v m) = Some v.
Proof.
  induction m as [|[k' v'] m IH]; simpl.
  - now rewrite str_eqb_refl.
  - destruct (str_eqb k k') eqn:E; simpl; rewrite E; auto.
Qed.

Lemma map_get_set_other {V : Type} (k name : jsstring) (v : V) m :
  k <> name -> map_get name (map_set k v m) = map_get name m.
Proof.
  intros Hne. induction m as [|[k' v'] m IH]; simpl.
  - assert (E : str_eqb name k = false) by (apply str_eqb_neq; congruence).
    now rewrite E.
  - destruct (str_eqb k k') eqn:E; simpl.
    + apply str_eqb_eq in E; subst k'.
      assert (E' : str_eqb name k = false) by (apply str_eqb_neq; congruence).
      now rewrite E'.
    + now rewrite IH.
Qed.

Lemma map_get_in_keys {V : Type} (k : jsstring) (v : V) m :
  map_get k m = Some v -> In k (map fst m).
Proof.
  induction m as [|[k' v'] m IH]; simpl; [discriminate|].
  destruct (str_eqb k k') eqn:E.
  - apply str_eqb_eq in E; auto.
  - auto.
Qed.

(** The keys of a map stay distinct. *)
Lemma map_set_keys_NoDup {V : Type} (k : jsstring) (v : V) m :
  NoDup (map fst m) -> NoDup (map fst (map_set k v m)).
Proof.
  induction m as [|[k' v'] m IH]; simpl; intros H.
  - constructor; [intros []|constructor].
  - inversion H as [|? ? Hk Hm]; subst.
    destruct (str_eqb k k') eqn:E; simpl; [constructor; assumption|].
    constructor; [|auto].
    intros Hin. apply Hk. clear - Hin E.
    induction m as [|[k2 v2] m IHm]; simpl in *.
    + destruct Hin as [<-|[]]. now rewrite str_eqb_refl in E.
    + destruct (str_eqb k k2); simpl in Hin; [exact Hin|].
      destruct Hin as [->|Hin]; auto.
Qed.

Lemma addTask_keys_NoDup (s s' : Scheduler.t) (config : task_config) :
  NoDup (map fst (tasks s)) -> addTask s config = Ok s' ->
  NoDup (map fst (tasks s')).
Proof.
  unfold addTask. intros H.
  destruct (cfg_name config) as [| |name]; try discriminate.
  destruct (cfg_schedule config) as [| |sched]; try discriminate.
  destruct (cfg_task config) as [fn|]; try discriminate.
  destruct (truthy_str name && truthy_str sched); try discriminate.
  destruct (parseSchedule sched); try discriminate.
  intros E; inversion E; subst s'. simpl. now apply map_set_keys_NoDup.
Qed.

Lemma events_of_app (name : jsstring) (a b : list event) :
  events_of name (a ++ b) = events_of name a ++ events_of name b.
Proof. apply filter_app. Qed.

(** ** Operations on another task leave a task alone *)

Lemma untouched_refl name s : untouched name s s.
Proof.
  repeat split; auto. exists []. now rewrite app_nil_r.
Qed.

Lemma untouched_trans name s1 s2 s3 :
  untouched name s1 s2 -> untouched name s2 s3 -> untouched name s1 s3.
Proof.
  intros (G1 & R1 & (e1 & L1 & F1) & J1) (G2 & R2 & (e2 & L2 & F2) & J2).
  repeat split; try congruence; auto.
  exists (e1 ++ e2). rewrite L2, L1, app_assoc, events_of_app, F1, F2.
  auto.
Qed.

Lemma untouched_set_task name s k v :
  k <> name -> untouched name s (with_tasks s (map_set k v (tasks s))).
Proof.
  intros Hne. repeat split; simpl; auto.
  - now apply map_get_set_other.
  - exists []. now rewrite app_nil_r.
Qed.

Lemma untouched_add_event name s e :
  event_name e <> name -> untouched name s (add_event s e).
Proof.
  intros Hne. repeat split; simpl; auto.
  exists [e]. split; [reflexivity|]. unfold events_of; simpl.
  assert (E : str_eqb (event_name e) name = false) by now apply str_eqb_neq.
  now rewrite E.
Qed.

Lemma untouched_enqueue name s j : untouched name s (enqueue s j).
Proof.
  repeat split; simpl; auto.
  - exists []. now rewrite app_nil_r.
  - intros; apply in_or_app; auto.
Qed.

Lemma untouched_setTimeout name s k d :
  k <> name -> untouched name s (setTimeout s k d).
Proof.
  intros Hne. repeat split; simpl; auto.
  exists [Armed k d]. split; [reflexivity|]. unfold events_of; simpl.
  assert (E : str_eqb k name = false) by now apply str_eqb_neq.
  now rewrite E.
Qed.

Lemma untouched_update_task name s k f :
  k <> name -> untouched name s (update_task s k f).
Proof.
  intros Hne. unfold update_task.
  destruct (map_get k (tasks s)); [|apply untouched_refl].
  now apply untouched_set_task.
Qed.

Lemma untouched_finish_task name s now k r :
  k <> name -> untouched name s (finish_task s now k r).
Proof.
  intros Hne. unfold finish_task.
  eapply untouched_trans; [|apply untouched_add_event; exact Hne].
  destruct r; [apply untouched_refl|now apply untouched_update_task].
Qed.

Lemma untouched_executeTask name s now k w :
  k <> name -> untouched name s (executeTask s now k w).
Proof.
  intros Hne. unfold executeTask.
  destruct (map_get k (tasks s)) as [c|]; [|apply untouched_refl].
  match goal with
  | |- context [add_event ?s1 (Invoked k)] =>
      remember (add_event s1 (Invoked k)) as s2 eqn:Es2
  end.
  assert (H1 : untouched name s s2).
  { subst s2.
    eapply untouched_trans; [apply untouched_set_task; exact Hne|].
    apply untouched_add_event; exact Hne. }
  clear Es2. destruct (task_fn c) as [message|turns result].
  - pose proof (untouched_finish_task name s2 now k (Rejected message) Hne)
      as H2.
    destruct w; try (eapply untouched_trans; [exact H1|exact H2]).
    eapply untouched_trans; [exact H1|].
    eapply untouched_trans; [exact H2|apply untouched_enqueue].
  - eapply untouched_trans; [exact H1|apply untouched_enqueue].
Qed.

Section WithCron.
Variable cron_next : jsstring -> number -> result number.

Lemma untouched_scheduleNext name s now k :
  k <> name -> untouched name s (scheduleNext cron_next s now k).
Proof.
  intros Hne. unfold scheduleNext.
  destruct (map_get k (tasks s)) as [c|]; [|apply untouched_refl].
  destruct (negb (running s) || negb (enabled c)); [apply untouched_refl|].
  match goal with
  | |- context [match ?d with Ok _ => _ | Throw _ => _ end] => destruct d
  end; [|apply untouched_refl].
  eapply untouched_trans; [apply untouched_set_task; exact Hne|].
  apply untouched_setTimeout; exact Hne.
Qed.

Lemma untouched_start_task name s now k :
  k <> name -> untouched name s (start_task cron_next now s k).
Proof.
  intros Hne. unfold start_task.
  destruct (map_get k (tasks s)) as [c|]; [|apply untouched_refl].
  destruct (negb (enabled c)); [apply untouched_refl|].
  destruct (runImmediately c).
  - eapply untouched_trans; [apply untouched_executeTask; exact Hne|].
    apply untouched_scheduleNext; exact Hne.
  - apply untouched_scheduleNext; exact Hne.
Qed.

Lemma untouched_start_loop name now ks :
  ~ In name ks ->
  forall s, untouched name s (fold_left (start_task cron_next now) ks s).
Proof.
  induction ks as [|k ks IH]; simpl; intros Hni s; [apply untouched_refl|].
  eapply untouched_trans.
  - apply (untouched_start_task name s now k). intuition.
  - apply IH. intuition.
Qed.

(** The iteration of [start] on an enabled task that runs immediately
    and whose function returns. *)
Lemma start_task_immediate s now name c n r :
  running s = true ->
  map_get name (tasks s) = Some c ->
  enabled c = true -> runImmediately c = true -> task_fn c = Async n r ->
  let s' := start_task cron_next now s name in
  exists armed,
    log s' = log s ++ Invoked name :: armed /\
    (forall e, In e armed -> exists d, e = Armed name d) /\
    (forall ms o, schedule c = Interval ms o -> armed = [Armed name ms]) /\
    In (ResumeTask name n r NotAwaited) (jobs s') /\
    option_map runCount (map_get name (tasks s'))
    = Some (num_add (runCount c) (Num 1)).
Proof.
  intros Hrun Hget Hen Hri Hfn. unfold start_task.
  rewrite Hget, Hen, Hri. cbn [negb].
  unfold executeTask. rewrite Hget.
  set (c1 := mkTask (schedule c) (originalSchedule c) (task_fn c)
               (runImmediately c) (enabled c) (Some now) (nextRun c)
               (num_add (runCount c) (Num 1)) (errors c)).
  rewrite Hfn.
  set (s1 := enqueue _ _).
  assert (G1 : map_get name (tasks s1) = Some c1)
    by (subst s1; simpl; apply map_get_set_same).
  assert (R1 : running s1 = true) by (subst s1; simpl; exact Hrun).
  assert (L1 : log s1 = log s ++ [Invoked name]) by (subst s1; reflexivity).
  assert (J1 : In (ResumeTask name n r NotAwaited) (jobs s1)).
  { subst s1; simpl. apply in_or_app; right; left; reflexivity. }
  clearbody s1.
  unfold scheduleNext. rewrite G1, R1.
  replace (enabled c1) with true by (subst c1; simpl; congruence).
  cbn [negb orb].
  replace (schedule c1) with (schedule c) by reflexivity.
  destruct (schedule c) as [expression|ms o] eqn:Hs.
  - destruct (cron_next expression now) as [next|m].
    + eexists [Armed name _]. simpl. rewrite L1, <- app_assoc. simpl.
      repeat split; auto.
      * intros e [<-|[]]; eauto.
      * discriminate.
      * now rewrite map_get_set_same.
    + exists []. rewrite L1. repeat split; auto.
      * intros e [].
      * discriminate.
      * now rewrite G1.
  - exists [Armed name ms]. simpl. rewrite L1, <- app_assoc. simpl.
    repeat split; auto.
    + intros e [<-|[]]; eauto.
    + intros ms' o' E; inversion E; reflexivity.
    + now rewrite map_get_set_same.
Qed.

(** What [start()] does for an enabled task registered with
    [runImmediately], whose function returns: it calls the function
    (counting the run) and then arms the timer of the task in the same
    turn, without waiting: on return from [start()] the execution is still
    pending in the job queue and has not completed.  Of the events of the
    task, the call comes first and only the arming follows. *)
Theorem start_immediate_run_not_awaited :
  forall (s : Scheduler.t) (now : number) (name : jsstring) (c : task)
         (n : nat) (r : settlement),
    NoDup (map fst (tasks s)) ->
    running s = false ->
    map_get name (tasks s) = Some c ->
    enabled c = true -> runImmediately c = true -> task_fn c = Async n r ->
    let s' := start cron_next s now in
    exists new armed,
      log s' = log s ++ new /\
      events_of name new = Invoked name :: armed /\
      (forall e, In e armed -> exists d, e = Armed name d) /\
      (forall ms o, schedule c = Interval ms o -> armed = [Armed name ms]) /\
      In (ResumeTask name n r NotAwaited) (jobs s') /\
      option_map runCount (map_get name (tasks s'))
      = Some (num_add (runCount c) (Num 1)).
Proof.
  intros s now name c n r Hnd Hrun Hget Hen Hri Hfn. unfold start.
  rewrite Hrun.
  destruct (in_split _ _ (map_get_in_keys _ _ _ Hget)) as (k1 & k2 & Hk).
  rewrite Hk in Hnd |- *.
  apply NoDup_remove_2 in Hnd.
  assert (Hn1 : ~ In name k1) by (intros H; apply Hnd, in_or_app; auto).
  assert (Hn2 : ~ In name k2) by (intros H; apply Hnd, in_or_app; auto).
  rewrite fold_left_app. cbn [fold_left].
  set (s0 := with_running s true).
  pose proof (untouched_start_loop name now k1 Hn1 s0)
    as (G1 & R1 & (e1 & L1 & F1) & J1).
  set (sa := fold_left (start_task cron_next now) k1 s0) in *.
  assert (Hget' : map_get name (tasks sa) = Some c) by (rewrite G1; exact Hget).
  destruct (start_task_immediate sa now name c n r R1 Hget' Hen Hri Hfn)
    as (armed & L2 & A1 & A2 & J2 & C2).
  set (sb := start_task cron_next now sa name) in *.
  pose proof (untouched_start_loop name now k2 Hn2 sb)
    as (G3 & R3 & (e3 & L3 & F3) & J3).
  exists (e1 ++ (Invoked name :: armed) ++ e3), armed.
  repeat split; auto.
  - rewrite L3, L2, L1. subst s0; simpl. now rewrite <- !app_assoc.
  - rewrite !events_of_app, F1, F3, app_nil_r. simpl.
    unfold events_of. simpl. rewrite str_eqb_refl. f_equal.
    clear - A1. induction armed as [|e armed IH]; simpl; [reflexivity|].
    destruct (A1 e (or_introl eq_refl)) as [d ->]. simpl.
    rewrite str_eqb_refl. f_equal. apply IH. intros; apply A1; now right.
  - rewrite G3. exact C2.
Qed.

End WithCron.

(** C10: when the scheduler is running, [start()] returns the scheduler
    as it is: no task is run, no run is counted, no timer is armed. *)
Theorem start_when_running :
  forall (cron_next : jsstring -> number -> result number)
         (s : Scheduler.t) (now : number),
    running s = true -> start cron_next s now = s.
Proof. intros cron_next s now H. unfold start. now rewrite H. Qed.

Lemma start_immediate_run_not_awaited_witness :
  let s := market_creation_scheduler in
  let s' := start no_cron s (Num 0) in
  exists new armed,
    log s' = log s ++ new /\
    events_of (js "market-creation") new
    = Invoked (js "market-creation") :: armed /\
    (forall e, In e armed -> exists d, e = Armed (js "market-creation") d) /\
    (forall ms o,
        Interval (Num 3600000) (Some (js "1h")) = Interval ms o ->
        armed = [Armed (js "market-creation") ms]) /\
    In (ResumeTask (js "market-creation") 1 Fulfilled NotAwaited) (jobs s') /\
    option_map runCount (map_get (js "market-creation") (tasks s'))
    = Some (num_add (Num 0) (Num 1)).
Proof.
  apply (start_immediate_run_not_awaited no_cron market_creation_scheduler
           (Num 0) (js "market-creation")
           (mkTask (Interval (Num 3600000) (Some (js "1h"))) (js "1h")
              (Async 1 Fulfilled) true true None None (Num 0) [])
           1 Fulfilled).
  - vm_compute. constructor; [intros []|constructor].
  - reflexivity.
  - reflexivity.
  - reflexivity.
  - reflexivity.
  - reflexivity.
Defined.

(** C6 does not hold of the code: with the registration of the daemon, a
    task with [runImmediately], the timer is armed during [start()], and
    the immediate execution completes only later, when the job queue
    runs.  [start()] calls [executeTask] without [await], where the timer
    callback and [runNow] wait for it. *)
Lemma start_arms_timer_before_completion :
  let name := js "market-creation" in
  let started := start no_cron market_creation_scheduler (Num 0) in
  let settled := run_jobs no_cron 5 started (Num 1) in
  log started = [Invoked name; Armed name (Num 3600000)] /\
  log settled = [Invoked name; Armed name (Num 3600000); Completed name] /\
  completed_before_armed name (log settled) = false.
Proof. vm_compute. repeat split; reflexivity. Qed.

Lemma start_when_running_witness :
  let s := start no_cron market_creation_scheduler (Num 0) in
  running s = true /\ start no_cron s (Num 5) = s.
Proof.
  split; [reflexivity|].
  apply (start_when_running no_cron
           (start no_cron market_creation_scheduler (Num 0)) (Num 5)).
  reflexivity.
Defined.

End SchedulerFacts.

(* ===================================================================== *)
(** * Facts about the record store *)
(* ===================================================================== *)

Module MarketStoreFacts.
Import JS JSFacts MarketStore.

(** ** Insert-or-replace *)

Lemma filter_out_in (a : jsstring) (rows : list Row.t) :
  filter (fun r => str_eqb (Row.address r) a)
    (filter (fun r => negb (str_eqb (Row.address r) a)) rows) = [].
Proof.
  induction rows as [|x rows IH]; simpl; [reflexivity|].
  destruct (str_eqb (Row.address x) a) eqn:E; simpl; [exact IH|].
  now rewrite E.
Qed.

Lemma find_filter_out (a : jsstring) (rows : list Row.t) :
  find (fun r => str_eqb (Row.address r) a)
    (filter (fun r => negb (str_eqb (Row.address r) a)) rows) = None.
Proof.
  induction rows as [|x rows IH]; simpl; [reflexivity|].
  destruct (str_eqb (Row.address x) a) eqn:E; simpl; [exact IH|].
  now rewrite E.
Qed.

Lemma find_app_none {A : Type} (p : A -> bool) (l l' : list A) :
  find p l = None -> find p (l ++ l') = find p l'.
Proof.
  induction l as [|x l IH]; simpl; [reflexivity|].
  destruct (p x); [discriminate|exact IH].
Qed.

Lemma rows_for_insert (row : Row.t) (rows : list Row.t) :
  filter (fun r => str_eqb (Row.address r) (Row.address row))
    (insert_or_replace row rows) = [row].
Proof.
  unfold insert_or_replace. rewrite filter_app, filter_out_in. simpl.
  now rewrite str_eqb_refl.
Qed.

Lemma find_insert (row : Row.t) (rows : list Row.t) :
  find (fun r => str_eqb (Row.address r) (Row.address row))
    (insert_or_replace row rows) = Some row.
Proof.
  unfold insert_or_replace.
  rewrite find_app_none by apply find_filter_out. simpl.
  now rewrite str_eqb_refl.
Qed.

Lemma filter_idem {A : Type} (p : A -> bool) (l : list A) :
  filter p (filter p l) = filter p l.
Proof.
  induction l as [|x l IH]; simpl; [reflexivity|].
  destruct (p x) eqn:E; simpl; [rewrite E|]; now rewrite IH.
Qed.

Lemma insert_or_replace_twice (row row' : Row.t) (rows : list Row.t) :
  Row.address row' = Row.address row ->
  insert_or_replace row' (insert_or_replace row rows)
  = insert_or_replace row' rows.
Proof.
  intros E. unfold insert_or_replace. rewrite E.
  rewrite filter_app, filter_idem. simpl.
  now rewrite str_eqb_refl, app_nil_r.
Qed.

Lemma getMarket_saveMarket (s : t) (now : number) (record : market) :
  getMarket (fst (saveMarket s now record)) (address record)
  = Some (_rowToMarket (row_of_record now record)).
Proof.
  unfold getMarket, saveMarket; simpl.
  now rewrite (find_insert (row_of_record now record)).
Qed.

(** The primary key: the identifiers of the rows are distinct, in the
    empty store and after every [saveMarket]. *)
Lemma primary_key_empty : NoDup (map Row.address (markets empty)).
Proof. constructor. Qed.

Lemma filter_addresses_NoDup (p : Row.t -> bool) (rows : list Row.t) :
  NoDup (map Row.address rows) -> NoDup (map Row.address (filter p rows)).
Proof.
  induction rows as [|x rows IH]; simpl; intros H; [constructor|].
  inversion H as [|? ? Hx Hr]; subst.
  destruct (p x); simpl; auto. constructor; auto.
  intros Hin. apply Hx. apply in_map_iff in Hin as (y & <- & Hy).
  apply in_map. apply filter_In in Hy. tauto.
Qed.

Lemma primary_key_saveMarket (s : t) (now : number) (record : market) :
  NoDup (map Row.address (markets s)) ->
  NoDup (map Row.address (markets (fst (saveMarket s now record)))).
Proof.
  intros H. unfold saveMarket, insert_or_replace; simpl.
  rewrite map_app. simpl.
  apply NoDup_app; [now apply filter_addresses_NoDup|repeat constructor; auto|].
  intros a Ha [<-|[]].
  apply in_map_iff in Ha as (y & E & Hy). apply filter_In in Hy as [_ Hy].
  rewrite E, str_eqb_refl in Hy. discriminate.
Qed.

(** What is read back of a question is its text. *)
Lemma question_read_back (now : number) (record : market) :
  question (_rowToMarket (row_of_record now record))
  = utf8_text (question record).
Proof. reflexivity. Qed.

(** C2 (as amended): after a record is saved and then saved again under
    the same identifier with another question, exactly one row is stored
    under the identifier, and the record read back carries the question
    of the latest save as the store holds it: its text, in which a
    surrogate that is not part of a pair has become U+FFFD, and so the
    question itself when it is well-formed.  Repeating the latest write
    leaves the store as it is. *)
Theorem saveMarket_upsert :
  forall (s : t) (now1 now2 : number) (r1 r2 : market),
    address r2 = address r1 ->
    let s1 := fst (saveMarket s now1 r1) in
    let s2 := fst (saveMarket s1 now2 r2) in
    List.length (rows_for s2 (address r1)) = 1%nat /\
    option_map question (getMarket s2 (address r1))
    = Some (utf8_text (question r2)) /\
    option_map question (snd (saveMarket s1 now2 r2))
    = Some (utf8_text (question r2)) /\
    (isWellFormed (question r2) = true ->
     option_map question (getMarket s2 (address r1)) = Some (question r2)) /\
    fst (saveMarket s2 now2 r2) = s2.
Proof.
  intros s now1 now2 r1 r2 E s1 s2.
  assert (G : getMarket s2 (address r1)
              = Some (_rowToMarket (row_of_record now2 r2))).
  { rewrite <- E. apply getMarket_saveMarket. }
  split; [|split; [|split; [|split]]].
  - unfold rows_for. subst s2. cbn [saveMarket fst markets with_markets].
    rewrite <- E.
    change (utf8_text (address r2))
      with (Row.address (row_of_record now2 r2)).
    now rewrite rows_for_insert.
  - rewrite G. cbn [option_map]. now rewrite question_read_back.
  - change (snd (saveMarket s1 now2 r2))
      with (getMarket (fst (saveMarket s1 now2 r2)) (address r2)).
    rewrite getMarket_saveMarket. cbn [option_map].
    now rewrite question_read_back.
  - intros W. apply isWellFormed_spec in W.
    rewrite G. cbn [option_map]. now rewrite question_read_back, W.
  - subst s2. cbn [saveMarket fst with_markets markets daemon_state
                   webhook_events event_seq].
    unfold with_markets; simpl. f_equal.
    now apply insert_or_replace_twice.
Qed.

Lemma saveMarket_upsert_witness :
  let original :=
    mkMarket (js "x") (js "Original question") Undefined Undefined
      (Just (Num 1700000000000)) Undefined Undefined (Just (Num 30))
      Undefined Undefined Undefined Undefined Undefined Undefined in
  let updated :=
    mkMarket (js "x") (js "Updated question") Undefined Undefined
      (Just (Num 1700000000000)) Undefined Undefined (Just (Num 30))
      Undefined Undefined Undefined Undefined Undefined Undefined in
  let s1 := fst (saveMarket empty (Num 1700000000001) original) in
  let s2 := fst (saveMarket s1 (Num 1700000000002) updated) in
  List.length (rows_for s2 (js "x")) = 1%nat /\
  option_map question (getMarket s2 (js "x")) = Some (js "Updated question") /\
  fst (saveMarket s2 (Num 1700000000002) updated) = s2.
Proof.
  intros original updated s1 s2.
  destruct (saveMarket_upsert empty (Num 1700000000001) (Num 1700000000002)
              original updated eq_refl) as (H1 & _ & _ & H4 & H5).
  split; [exact H1|]. split; [apply H4; reflexivity|exact H5].
Defined.

(** C2 (as stated) fails: a question cut in the middle of a surrogate
    pair (the first 50 code units of a title can end so) is not the
    question that is read back. *)
Lemma saveMarket_question_not_read_back :
  let original :=
    mkMarket (js "x") (js "Original question") Undefined Undefined
      (Just (Num 1700000000000)) Undefined Undefined (Just (Num 30))
      Undefined Undefined Undefined Undefined Undefined Undefined in
  let updated :=
    mkMarket (js "x") (js "Updated " ++ [55357%N]) Undefined Undefined
      (Just (Num 1700000000000)) Undefined Undefined (Just (Num 30))
      Undefined Undefined Undefined Undefined Undefined Undefined in
  let s1 := fst (saveMarket empty (Num 1700000000001) original) in
  let s2 := fst (saveMarket s1 (Num 1700000000002) updated) in
  option_map question (getMarket s2 (js "x"))
  = Some (js "Updated " ++ [65533%N]) /\
  option_map question (getMarket s2 (js "x")) <> Some (question updated).
Proof. split; [vm_compute; reflexivity|vm_compute; discriminate]. Qed.

(** ** The end timestamp *)

Lemma computed_endTime_exact (record : market) (T d : Z) :
  endTime record = Undefined \/ endTime record = Null ->
  creationTime record = Just (Num T) ->
  durationDays record = Just (Num d) ->
  0 <= T -> 0 <= d -> T + d * 86400000 <= MAX_SAFE_INTEGER ->
  computed_endTime record = Num (T + d * 86400000).
Proof.
  intros He Hc Hd HT Hd0 Hsafe. unfold computed_endTime.
  assert (E :
    num_add (to_number (creationTime record))
      (num_mul (num_mul (num_mul (num_mul (to_number (durationDays record))
         (Num 24)) (Num 60)) (Num 60)) (Num 1000))
    = Num (T + d * 86400000)).
  { rewrite Hc, Hd. cbn [to_number].
    unfold MAX_SAFE_INTEGER in Hsafe.
    rewrite !num_mul_safe by (unfold MAX_SAFE_INTEGER; lia).
    rewrite num_add_safe by (unfold MAX_SAFE_INTEGER; lia).
    f_equal. lia. }
  destruct He as [-> | ->]; exact E.
Qed.

(** C3 (as amended): for a record saved without an end timestamp, with
    creation time [T] and duration [d] days, both non-negative integers
    with [T + d * 86400000] at most [2^53 - 1], the record read back has
    [endTime = T + d * 86400000]. *)
Theorem saveMarket_endTime :
  forall (s : t) (now : number) (record : market) (T d : Z),
    endTime record = Undefined \/ endTime record = Null ->
    creationTime record = Just (Num T) ->
    durationDays record = Just (Num d) ->
    0 <= T -> 0 <= d -> T + d * 86400000 <= MAX_SAFE_INTEGER ->
    option_map endTime
      (getMarket (fst (saveMarket s now record)) (address record))
    = Some (Just (Num (T + d * 86400000))).
Proof.
  intros s now record T d He Hc Hd HT Hd0 Hsafe.
  rewrite getMarket_saveMarket. cbn [option_map _rowToMarket endTime].
  unfold row_of_record. cbn [Row.end_time].
  rewrite (computed_endTime_exact record T d) by assumption.
  reflexivity.
Qed.

Lemma saveMarket_endTime_witness :
  let record :=
    mkMarket (js "test123") (js "Test") Undefined Undefined
      (Just (Num 1700000000000)) Undefined Undefined (Just (Num 30))
      Undefined Undefined Undefined Undefined Undefined Undefined in
  option_map endTime
    (getMarket (fst (saveMarket empty (Num 1700000000001) record))
       (js "test123"))
  = Some (Just (Num (1700000000000 + 30 * 86400000))).
Proof.
  intros record.
  apply (saveMarket_endTime empty (Num 1700000000001) record
           1700000000000 30).
  - left; reflexivity.
  - reflexivity.
  - reflexivity.
  - lia.
  - lia.
  - vm_compute. discriminate.
Defined.

(** C3 (as stated) fails: the sum is computed on doubles, and beyond
    [2^53] it is rounded. *)
Lemma saveMarket_endTime_rounded :
  let record :=
    mkMarket (js "far") (js "Test") Undefined Undefined
      (Just (Num 1)) Undefined Undefined (Just (Num 104249992))
      Undefined Undefined Undefined Undefined Undefined Undefined in
  option_map endTime
    (getMarket (fst (saveMarket empty (Num 1700000000001) record)) (js "far"))
  = Some (Just (Num 9007199308800000)) /\
  Num 9007199308800000 <> Num (1 + 104249992 * 86400000).
Proof. split; [vm_compute; reflexivity|vm_compute; discriminate]. Qed.

(** ** Daemon state *)

Lemma select_state_put (s : t) (key : jsstring) (value : json) (now : number) :
  select_state
    (with_daemon_state s (put_state key value now (daemon_state s))) key
  = value.
Proof.
  unfold select_state, put_state. cbn [daemon_state with_daemon_state].
  rewrite find_app_none.
  - cbn [find fst]. now rewrite str_eqb_refl.
  - induction (daemon_state s) as [|x l IH]; [reflexivity|].
    cbn [filter].
    destruct (str_eqb (utf8_text (fst x)) (utf8_text key)) eqn:E;
      cbn [negb]; [exact IH|].
    cbn [find]. rewrite E. exact IH.
Qed.

(** ** Volumes and metrics *)












(** The cases of the test-suite of the store on metrics: the empty
    store, and one resolved record with a volume. *)
Example getPerformanceMetrics_tests :
  option_map totalVolume
    (match getPerformanceMetrics empty with Ok m => Some m | _ => None end)
  = Some (js "0") /\
  let s := fst (saveMarket empty (Num 1700000000000)
                  (mkMarket (js "test1") (js "Test") Undefined Undefined
                     (Just (Num 1700000000000)) Undefined Undefined
                     (Just (Num 30)) Undefined (Just (js "resolved"))
                     Undefined (Just (AStr (js "1000000"))) Undefined
                     Undefined)) in
  match getPerformanceMetrics s with
  | Ok m => totalVolume m = js "1000000" /\ marketCount m = 1%nat /\
            averageDuration m = Num 30 /\ resolutionRate m = f64_of_Z 1
  | Throw _ => False
  end.
Proof. vm_compute. repeat split; reflexivity. Qed.

(** ** Export, clear, import *)

Lemma insert_desc_perm (r : Row.t) (l : list Row.t) :
  Permutation (insert_desc r l) (r :: l).
Proof.
  induction l as [|x l IH]; simpl; [reflexivity|].
  destruct (col_ltb (Row.creation_time x) (Row.creation_time r));
    [reflexivity|].
  rewrite IH. apply perm_swap.
Qed.

Lemma order_by_perm (l : list Row.t) :
  Permutation (order_by_creation_desc l) l.
Proof.
  unfold order_by_creation_desc.
  assert (G : forall acc,
             Permutation (fold_left (fun acc r => insert_desc r acc) l acc)
                         (l ++ acc)).
  { induction l as [|x l IH]; simpl; intros acc; [reflexivity|].
    rewrite IH, insert_desc_perm. symmetry. apply Permutation_middle. }
  rewrite G, app_nil_r. reflexivity.
Qed.

Lemma filter_true {A : Type} (p : A -> bool) (l : list A) :
  (forall x, p x = true) -> filter p l = l.
Proof.
  intros H; induction l as [|x l IH]; simpl; [reflexivity|].
  now rewrite H, IH.
Qed.

Lemma getAllMarkets_all (s : t) :
  getAllMarkets s no_options
  = map _rowToMarket (order_by_creation_desc (markets s)).
Proof.
  unfold getAllMarkets. rewrite filter_true by reflexivity. reflexivity.
Qed.

Lemma resaved_address now r : Row.address (resaved now r) = Row.address r.
Proof.
  change (Row.address (resaved now r)) with (utf8_text (Row.address r)).
  apply utf8_text_idem.
Qed.

Lemma resaved_question now r : Row.question (resaved now r) = Row.question r.
Proof.
  change (Row.question (resaved now r)) with (utf8_text (Row.question r)).
  apply utf8_text_idem.
Qed.

Lemma stored_in_false (addresses : list jsstring) (r : Row.t) :
  ~ In (Row.address r) addresses -> stored_in addresses r = false.
Proof.
  unfold stored_in. induction addresses as [|a l IH]; simpl; intros H;
    [reflexivity|].
  rewrite IH by tauto.
  assert (E : str_eqb (Row.address r) a = false)
    by (apply str_eqb_neq; intros E; apply H; left; now symmetry).
  now rewrite E.
Qed.

Lemma stored_in_true (addresses : list jsstring) (r : Row.t) :
  In (Row.address r) addresses -> stored_in addresses r = true.
Proof.
  intros H. apply existsb_exists. exists (Row.address r).
  split; [assumption|apply str_eqb_refl].
Qed.

(** Upserting rows with distinct identifiers one after the other: the
    rows that were stored under other identifiers stay, followed by the
    upserted rows in order. *)
Lemma upsert_all (rows : list Row.t) :
  NoDup (map Row.address rows) ->
  forall init,
    fold_left (fun acc row => insert_or_replace row acc) rows init
    = filter (fun x => negb (stored_in (map Row.address rows) x)) init
      ++ rows.
Proof.
  induction rows as [|r rows IH]; intros Hnd init.
  - simpl. rewrite filter_true by reflexivity. now rewrite app_nil_r.
  - inversion Hnd as [|? ? Hr Hrows]; subst.
    cbn [fold_left map]. rewrite (IH Hrows).
    unfold insert_or_replace. rewrite filter_app. cbn [filter].
    rewrite (stored_in_false _ r Hr). cbn [negb].
    rewrite <- app_assoc. cbn [app]. f_equal.
    clear. induction init as [|x init IHi]; simpl; [reflexivity|].
    unfold stored_in at 2. cbn [existsb].
    destruct (str_eqb (Row.address x) (Row.address r)) eqn:E; cbn [negb orb].
    + exact IHi.
    + fold (stored_in (map Row.address rows) x).
      simpl. destruct (negb (stored_in (map Row.address rows) x));
        [f_equal|]; exact IHi.
Qed.

Lemma import_markets (s : t) (now : number) (ms : list market) :
  markets (fold_left (fun st m => fst (saveMarket st now m)) ms s)
  = fold_left (fun acc row => insert_or_replace row acc)
      (map (row_of_record now) ms) (markets s).
Proof.
  revert s; induction ms as [|m ms IH]; intros s; [reflexivity|].
  cbn [fold_left map]. rewrite IH. reflexivity.
Qed.

Lemma filter_all_stored (rows rows' : list Row.t) :
  map Row.address rows = map Row.address rows' ->
  filter (fun x => negb (stored_in (map Row.address rows') x)) rows = [].
Proof.
  intros E. rewrite <- E.
  assert (G : forall l, incl l rows ->
             filter (fun x => negb (stored_in (map Row.address rows) x)) l = []).
  { induction l as [|x l IH]; intros Hl; [reflexivity|]. simpl.
    rewrite stored_in_true by (apply in_map, Hl; now left).
    apply IH. intros y Hy; apply Hl; now right. }
  apply G, incl_refl.
Qed.

(** C9: exporting a store whose identifiers are distinct, clearing it and
    importing the exported text succeeds and restores the same identifiers
    with the same question texts; importing the text once more leaves
    them as they are. *)
Theorem export_clear_import :
  forall (s : t) (now now' : number),
    NoDup (map Row.address (markets s)) ->
    let text := export s in
    let restored := fst (import (clear s) now text) in
    snd (import (clear s) now text) = true /\
    Permutation (contents restored) (contents s) /\
    snd (import restored now' text) = true /\
    contents (fst (import restored now' text)) = contents restored.
Proof.
  intros s now now' Hnd text restored.
  set (sorted := order_by_creation_desc (markets s)).
  assert (Hperm : Permutation sorted (markets s)) by apply order_by_perm.
  assert (Hsorted : NoDup (map Row.address sorted)).
  { eapply Permutation_NoDup; [|exact Hnd].
    apply Permutation_map. symmetry. exact Hperm. }
  assert (Hrows : forall t0 st,
    markets (fst (import st t0 text))
    = fold_left (fun acc row => insert_or_replace row acc)
        (map (resaved t0) sorted) (markets st)).
  { intros t0 st. subst text. unfold export, import.
    cbn [doc_markets fst]. rewrite import_markets, getAllMarkets_all.
    fold sorted. rewrite !map_map. reflexivity. }
  assert (Haddr : forall t0,
    map Row.address (map (resaved t0) sorted) = map Row.address sorted).
  { intros t0. rewrite map_map. apply map_ext. intros r.
    apply resaved_address. }
  assert (Hrestored : markets restored = map (resaved now) sorted).
  { subst restored. rewrite Hrows, upsert_all by (rewrite Haddr; exact Hsorted).
    reflexivity. }
  assert (Hcontents : forall t0,
    map (fun r => (Row.address r, Row.question r)) (map (resaved t0) sorted)
    = map (fun r => (Row.address r, Row.question r)) sorted).
  { intros t0. rewrite map_map. apply map_ext. intros r.
    now rewrite resaved_address, resaved_question. }
  repeat split.
  - unfold contents. rewrite Hrestored, Hcontents.
    apply Permutation_map. exact Hperm.
  - unfold contents.
    rewrite Hrows, upsert_all by (rewrite Haddr; exact Hsorted).
    rewrite Hrestored.
    rewrite filter_all_stored by (rewrite !Haddr; reflexivity).
    cbn [app]. rewrite !Hcontents. reflexivity.
Qed.

Lemma export_clear_import_witness :
  let record (a q : string) (created : Z) :=
    mkMarket (js a) (js q) Undefined Undefined (Just (Num created))
      Undefined Undefined (Just (Num 30)) Undefined Undefined Undefined
      Undefined Undefined Undefined in
  let save s r := fst (saveMarket s (Num 1700000000001) r) in
  let s := save (save empty (record "m1" "First?" 1700000000000)%string)
                (record "m2" "Second?" 1700000005000)%string in
  let text := export s in
  let restored := fst (import (clear s) (Num 1700000009000) text) in
  snd (import (clear s) (Num 1700000009000) text) = true /\
  Permutation (contents restored) (contents s) /\
  snd (import restored (Num 1700000009999) text) = true /\
  contents (fst (import restored (Num 1700000009999) text))
  = contents restored.
Proof.
  intros record save s.
  apply (export_clear_import s (Num 1700000009000) (Num 1700000009999)).
  vm_compute. repeat constructor; simpl; intuition discriminate.
Defined.

End MarketStoreFacts.

(* ===================================================================== *)
(** * Facts about the daemon *)
(* ===================================================================== *)

Module DaemonFacts.
Import JS JSFacts Daemon.

(** ** The counter through a cycle *)

Lemma saveState_count (d d' : t) (now : number) :
  saveState d now = Ok d' -> iterationCount d' = iterationCount d.
Proof.
  unfold saveState. destruct (store d) as [h|].
  - destruct (is_open h); [|discriminate]. intros E; inversion E; reflexivity.
  - intros E; inversion E; reflexivity.
Qed.

Lemma stop_count (d : t) (now : number) :
  iterationCount (fst (stop d now)) = iterationCount d.
Proof.
  unfold stop. destruct (negb (isRunning d)); [reflexivity|].
  destruct (saveState _ now) as [d2|m] eqn:E; [|reflexivity].
  apply saveState_count in E. cbn [fst].
  destruct (store d2); cbn; exact E.
Qed.

Lemma store_results_count (results : list creation) :
  forall (d : t) (now : number) (newsContext : json),
    iterationCount (fst (store_results d now newsContext results))
    = iterationCount d.
Proof.
  induction results as [|r results IH]; intros d now newsContext;
    [reflexivity|].
  cbn [store_results]. destruct (success r).
  - destruct (store d) as [h|]; [|reflexivity].
    destruct (is_open h); [|reflexivity].
    rewrite IH. reflexivity.
  - rewrite IH. reflexivity.
Qed.

(** A cycle leaves the counter as it is when the limit is reached and
    adds one to it otherwise, whatever happens in the rest of the cycle. *)
Lemma finish_cycle_count (d : t) (now : number) (err : option jsstring)
  (ok failed : nat) :
  iterationCount (finish_cycle d now err ok failed) = iterationCount d.
Proof.
  unfold finish_cycle. destruct err; [reflexivity|].
  destruct (saveState d now) as [d'|m] eqn:E; [|reflexivity].
  apply saveState_count in E. exact E.
Qed.

Lemma executeCycle_count (d : t) (now : number) (newsContext : json)
  (ideas : list (jsstring * jsstring)) (batchResults : result (list creation)) :
  iterationCount (executeCycle d now newsContext ideas batchResults)
  = if maxIterations_reached d then iterationCount d
    else num_add (iterationCount d) (Num 1).
Proof.
  unfold executeCycle. destruct (maxIterations_reached d);
    [apply stop_count|].
  set (d2 := begin_cycle d).
  change (num_add (iterationCount d) (Num 1)) with (iterationCount d2).
  assert (Hbatch :
    iterationCount
      (let '(d3, err, (ok, failed)) :=
         match batchResults with
         | Throw m => (d2, Some m, (O, O))
         | Ok results =>
             let '(d3, err) := store_results d2 now newsContext results in
             (d3, err,
              (List.length (filter success results),
               List.length (filter (fun r => negb (success r)) results)))
         end in
       finish_cycle d3 now err ok failed) = iterationCount d2).
  { destruct batchResults as [results|m]; [|apply finish_cycle_count].
    pose proof (store_results_count results d2 now newsContext) as Hs.
    destruct (store_results d2 now newsContext results) as [d3 err].
    rewrite finish_cycle_count. exact Hs. }
  destruct (dryRun (cfg d2)) as [| |[|]]; try exact Hbatch.
  apply finish_cycle_count.
Qed.

Lemma restoreState_count (options : config) (tables : MarketStore.t) :
  iterationCount (restoreState (attach (create options) tables))
  = let state := MarketStore.getState tables (Just (js "daemon")) in
    if truthy_json state then restored_count state else Num 0.
Proof.
  unfold restoreState, attach. cbn [store with_store is_open db].
  destruct (truthy_json _); reflexivity.
Qed.

(** [restoreState()] and the cycle that follows: when the store holds a
    daemon state with [iterationCount = k], a non-negative integer below
    [2^53 - 1], [restoreState()] on a daemon that holds that store sets
    the counter to [k], and the next cycle sets it to [k + 1], unless
    [maxIterations] is set and reached, in which case the cycle leaves
    the counter at [k]. *)
Theorem restore_then_cycle :
  forall (options : config) (tables : MarketStore.t)
         (fields : list (jsstring * json)) (k : Z) (now : number)
         (newsContext : json) (ideas : list (jsstring * jsstring))
         (batchResults : result (list creation)),
    MarketStore.getState tables (Just (js "daemon")) = JObj fields ->
    json_field (js "iterationCount") fields = Some (JNum k) ->
    0 <= k < MAX_SAFE_INTEGER ->
    let d := restoreState (attach (create options) tables) in
    iterationCount d = Num k /\
    iterationCount (executeCycle d now newsContext ideas batchResults)
    = if maxIterations_reached d then Num k else Num (k + 1).
Proof.
  intros options tables fields k now newsContext ideas batchResults
         Hstate Hfield Hk d.
  assert (Hd : iterationCount d = Num k).
  { subst d. rewrite restoreState_count, Hstate. cbn [truthy_json].
    unfold restored_count. rewrite Hfield. cbn [truthy_json].
    destruct (Z.eqb_spec k 0) as [->|Hz]; [reflexivity|].
    cbn [negb]. apply round53_safe. lia. }
  split; [exact Hd|].
  rewrite executeCycle_count, Hd.
  destruct (maxIterations_reached d); [reflexivity|].
  apply num_add_safe. lia.
Qed.

Lemma restore_then_cycle_witness :
  let d := restoreState (attach (create default_options) (store_with_state 5)) in
  iterationCount d = Num 5 /\
  iterationCount (executeCycle d (Num 1700000100000) JNull [] (Ok []))
  = if maxIterations_reached d then Num 5 else Num (5 + 1).
Proof.
  apply (restore_then_cycle default_options (store_with_state 5)
           [(js "iterationCount", JNum 5);
            (js "lastRunTime", JNum 1700000000000);
            (js "config",
             JObj [(js "schedule", JStr (js "1h"));
                   (js "marketsPerRound", JNum 1)])]
           5 (Num 1700000100000) JNull [] (Ok [])).
  - reflexivity.
  - reflexivity.
  - vm_compute. split; [discriminate|reflexivity].
Defined.

(** With [maxIterations = 5] and a restored count of [5], the next cycle
    does not increment the counter. *)
Lemma cycle_at_limit_does_not_increment :
  let options := mkConfig Undefined (Just (Num 5)) Undefined Undefined
                   Undefined in
  let d := restoreState (attach (create options) (store_with_state 5)) in
  let d' := executeCycle d (Num 1700000100000) JNull [] (Ok []) in
  iterationCount d = Num 5 /\
  iterationCount d' = Num 5 /\
  iterationCount d' <> num_add (iterationCount d) (Num 1).
Proof.
  vm_compute. repeat split; discriminate.
Qed.

(** What the daemon saved is what a new daemon restores. *)
Lemma saveState_restoreState (d d' : t) (h : handle) (now : number)
  (options : config) (k : Z) :
  iterationCount d = Num k -> 0 <= k <= MAX_SAFE_INTEGER ->
  saveState d now = Ok d' -> store d' = Some h ->
  iterationCount (restoreState (attach (create options) (db h))) = Num k.
Proof.
  intros Hk Hsafe Hsave Hh. unfold saveState in Hsave.
  destruct (store d) as [h0|] eqn:Es; [|inversion Hsave; subst; congruence].
  destruct (is_open h0); [|discriminate].
  inversion Hsave; subst d'; clear Hsave. cbn in Hh. inversion Hh; subst h.
  rewrite restoreState_count. cbn [db].
  set (tables := MarketStore.with_daemon_state _ _).
  change (MarketStore.getState tables (Just (js "daemon")))
    with (MarketStore.select_state tables (js "daemon")).
  subst tables. rewrite MarketStoreFacts.select_state_put.
  unfold state_object. rewrite Hk. cbn -[round53 Z.eqb].
  destruct (Z.eqb_spec k 0) as [->|Hz]; [reflexivity|].
  cbn [negb]. apply round53_safe. lia.
Qed.

(** [start()] cannot open its store: the constructor of the store is
    given an options object where it expects a path, and throws.  No call
    of [start()] reaches [restoreState]. *)
Remark start_cannot_open_store :
  forall (cron_next : jsstring -> number -> result number)
         (files : jsstring -> MarketStore.t) (d : t) (now : number)
         (agent_initialize : result unit) (cycle : Scheduler.action),
  exists message,
    start cron_next files d now agent_initialize cycle = Throw message.
Proof.
  intros. unfold start.
  destruct (isRunning d); [eexists; reflexivity|].
  destruct agent_initialize; eexists; reflexivity.
Qed.

(** C1 does not hold of the code: with a daemon state of
    [iterationCount = 5] in the database file, [start()] on a new daemon
    rejects in the constructor of the store, which is given an options
    object where it expects a path.  [restoreState()] is never reached and
    the counter of the daemon is still 0, where [restoreState()] on that
    store would have set it to 5. *)
Theorem start_does_not_restore :
  let path := js "data/daemon.db" in
  let files := fun _ : jsstring => store_with_state 5 in
  let d := create (mkConfig Undefined Undefined Undefined Undefined
                     (Just path)) in
  (forall (cron_next : jsstring -> number -> result number) (now : number)
          (cycle : Scheduler.action),
      start cron_next files d now (Ok tt) cycle
      = Throw (js "The " ++ quote (js "path") ++
               js " argument must be of type string. Received an instance of Object")) /\
  iterationCount d = Num 0 /\
  iterationCount (restoreState (attach d (files path))) = Num 5.
Proof.
  cbv zeta. split; [intros; reflexivity|]. split; reflexivity.
Qed.

End DaemonFacts.

(* ===================================================================== *)
(** * Facts about the relevance scorer *)
(* ===================================================================== *)

Module NewsScorerFacts.
Import JS JSFacts NewsScorer.

Lemma first_match_Exists (text : jsstring) (keywords : list jsstring) :
  first_match text keywords = true
  <-> Exists (fun keyword => includes text keyword = true) keywords.
Proof.
  induction keywords as [|k ks IH]; cbn [first_match].
  - split; [discriminate|intros H; inversion H].
  - destruct (includes text k) eqn:E.
    + split; [intros _; now left|reflexivity].
    + rewrite IH. split; [intros H; now right|].
      intros H; inversion H; subst; [congruence|assumption].
Qed.

Lemma scoreRelevance_urgency (toLowerCase : jsstring -> jsstring)
  (text : jsstring) (sourceKeywords : list jsstring) (sourceWeight : f64) :
  urgency_tier (scoreRelevance toLowerCase text sourceKeywords sourceWeight)
  = determineUrgency (toLowerCase text).
Proof.
  unfold scoreRelevance.
  destruct (fold_left _ PRIVACY_KEYWORDS _) as [score1 matched1].
  destruct (fold_left _ sourceKeywords _) as [score2 matched2].
  reflexivity.
Qed.

(** C8: on the lower-cased text, a breaking indicator gives [breaking]
    whatever else the text contains; failing that, a timely indicator
    gives [timely]; failing both, the urgency is [evergreen]. *)
Theorem urgency_first_match :
  forall (toLowerCase : jsstring -> jsstring) (text : jsstring)
         (sourceKeywords : list jsstring) (sourceWeight : f64),
    let lowerText := toLowerCase text in
    let found := fun keyword => includes lowerText keyword = true in
    let tier :=
      urgency_tier
        (scoreRelevance toLowerCase text sourceKeywords sourceWeight) in
    (Exists found URGENCY_breaking -> tier = breaking) /\
    (~ Exists found URGENCY_breaking -> Exists found URGENCY_timely ->
     tier = timely) /\
    (~ Exists found URGENCY_breaking -> ~ Exists found URGENCY_timely ->
     tier = evergreen).
Proof.
  intros toLowerCase text sourceKeywords sourceWeight lowerText found tier.
  subst tier found. rewrite scoreRelevance_urgency. fold lowerText.
  unfold determineUrgency. rewrite <- !first_match_Exists.
  destruct (first_match lowerText URGENCY_breaking);
    destruct (first_match lowerText URGENCY_timely);
    repeat split; intros; congruence.
Qed.

Lemma urgency_first_match_witness :
  urgency_tier
    (scoreRelevance ascii_toLowerCase
       (js "BREAKING: privacy protocol announces mainnet launch") []
       (f64_lit 10 10))
  = breaking.
Proof.
  apply (proj1 (urgency_first_match ascii_toLowerCase
                  (js "BREAKING: privacy protocol announces mainnet launch")
                  [] (f64_lit 10 10))).
  apply Exists_cons_hd. vm_compute. reflexivity.
Defined.

(** The cases of the test-suite of the scorer on categories. *)
Example category_tests :
  suggestedCategory
    (scoreRelevance ascii_toLowerCase
       (js "GDPR Fine Hits Tech Giant. Regulators issued a massive GDPR fine for data privacy violations.")
       [] (f64_lit 10 10)) = regulation /\
  suggestedCategory
    (scoreRelevance ascii_toLowerCase
       (js "New Zero Knowledge Proof Protocol Launches on Mainnet. Researchers announce breakthrough in ZK proofs for blockchain privacy.")
       [] (f64_lit 10 10)) = technology.
Proof. vm_compute. split; reflexivity. Qed.

(** The scenarios of the tests: a text with lexicon keywords scores
    higher than a text without, announcements are timely and general
    content is evergreen. *)
Example relevance_scenarios :
  score (scoreRelevance ascii_toLowerCase
           (js "Zero-knowledge rollup reaches mainnet") [] (f64_lit 10 10))
  = Num 30 /\
  score (scoreRelevance ascii_toLowerCase
           (js "Sports Team Wins Championship") [] (f64_lit 10 10))
  = Num 0 /\
  urgency_tier (scoreRelevance ascii_toLowerCase
                  (js "Privacy Protocol Announces Major Upgrade") []
                  (f64_lit 10 10)) = timely /\
  urgency_tier (scoreRelevance ascii_toLowerCase
                  (js "Overview of Privacy Technology in 2026") []
                  (f64_lit 10 10)) = evergreen.
Proof. vm_compute. repeat split; reflexivity. Qed.

End NewsScorerFacts.

(* ===================================================================== *)
(** * Further properties of the scheduler *)
(* ===================================================================== *)

Module SchedulerProperties.
Import JS JSFacts Scheduler SchedulerFacts.

Lemma map_get_delete_same {V : Type} (k : jsstring) (m : list (jsstring * V)) :
  NoDup (map fst m) -> map_get k (map_delete k m) = None.
Proof.
  induction m as [|[k' v'] m IH]; simpl; intros H; [reflexivity|].
  inversion H as [|? ? Hk Hm]; subst.
  destruct (str_eqb k k') eqn:E.
  - apply str_eqb_eq in E; subst k'.
    destruct (map_get k m) eqn:G; [|reflexivity].
    apply map_get_in_keys in G. contradiction.
  - simpl. rewrite E. auto.
Qed.

Lemma map_get_delete_other {V : Type} (k name : jsstring)
  (m : list (jsstring * V)) :
  k <> name -> map_get name (map_delete k m) = map_get name m.
Proof.
  intros Hne. induction m as [|[k' v'] m IH]; simpl; [reflexivity|].
  destruct (str_eqb k k') eqn:E; simpl.
  - apply str_eqb_eq in E; subst k'.
    assert (E' : str_eqb name k = false) by (apply str_eqb_neq; congruence).
    now rewrite E'.
  - now rewrite IH.
Qed.

Lemma map_get_In {V : Type} (k : jsstring) (m : list (jsstring * V)) v :
  map_get k m = Some v -> In (k, v) m.
Proof.
  induction m as [|[k' v'] m IH]; simpl; [discriminate|].
  destruct (str_eqb k k') eqn:E.
  - apply str_eqb_eq in E. intros H; inversion H; subst. now left.
  - intros H; right; auto.
Qed.

Lemma map_set_absent {V : Type} (k : jsstring) (v : V) m :
  map_get k m = None -> map_set k v m = m ++ [(k, v)].
Proof.
  induction m as [|[k' v'] m IH]; simpl; [reflexivity|].
  destruct (str_eqb k k'); [discriminate|]. intros H. now rewrite IH.
Qed.

Lemma map_delete_last {V : Type} (k : jsstring) (v : V) m :
  map_get k m = None -> map_delete k (m ++ [(k, v)]) = m.
Proof.
  induction m as [|[k' v'] m IH]; simpl.
  - now rewrite str_eqb_refl.
  - destruct (str_eqb k k'); [discriminate|]. intros H. now rewrite IH.
Qed.

(** ** Registration *)

(** X1: [addTask] stores the task idle (never run, no error, no next run)
    under its name, with [runImmediately] false and [enabled] true unless
    given, leaves the other tasks as they are and arms nothing; the task
    is then listed by [getAllTasks]. *)
Theorem addTask_registers :
  forall (s : Scheduler.t) (name sched : jsstring) (fn : action)
         (ri en : option bool) (parsed : parsed_schedule),
    name <> [] -> sched <> [] -> parseSchedule sched = Ok parsed ->
    exists s',
      addTask s (mkConfig (Just name) (Just sched) (Some fn) ri en) = Ok s' /\
      map_get name (tasks s')
      = Some (mkTask parsed sched fn
                (match ri with Some b => b | None => false end)
                (match en with Some b => b | None => true end)
                None None (Num 0) []) /\
      (forall other, other <> name ->
         map_get other (tasks s') = map_get other (tasks s)) /\
      timers s' = timers s /\ pending_timers s' = pending_timers s /\
      running s' = running s /\ log s' = log s /\
      In (Some (mkTaskInfo name sched
                  (match en with Some b => b | None => true end)
                  None None (Num 0) []))
         (getAllTasks s').
Proof.
  intros s name sched fn ri en parsed Hn Hs Hp.
  unfold addTask. cbn [cfg_name cfg_schedule cfg_task cfg_runImmediately
                       cfg_enabled].
  destruct name as [|c name]; [congruence|].
  destruct sched as [|c' sched]; [congruence|].
  cbn [truthy_str andb]. rewrite Hp.
  eexists. split; [reflexivity|].
  cbn [tasks timers pending_timers running log with_tasks].
  repeat split.
  - apply map_get_set_same.
  - intros other Ho. apply map_get_set_other. congruence.
  - unfold getAllTasks. cbn [tasks with_tasks].
    apply in_map_iff. eexists (c :: name, _). split.
    + unfold getTaskInfo. cbn [fst tasks with_tasks].
      rewrite map_get_set_same. reflexivity.
    + apply map_get_In, map_get_set_same.
Qed.

Lemma addTask_registers_witness :
  exists s',
    addTask empty (mkConfig (Just (js "test")) (Just (js "1h"))
                     (Some (Async 0 Fulfilled)) None None) = Ok s' /\
    map_get (js "test") (tasks s')
    = Some (mkTask (Interval (Num 3600000) (Some (js "1h"))) (js "1h")
              (Async 0 Fulfilled) false true None None (Num 0) []) /\
    (forall other, other <> js "test" ->
       map_get other (tasks s') = map_get other (tasks empty)) /\
    timers s' = timers empty /\ pending_timers s' = pending_timers empty /\
    running s' = running empty /\ log s' = log empty /\
    In (Some (mkTaskInfo (js "test") (js "1h") true None None (Num 0) []))
       (getAllTasks s').
Proof.
  apply (addTask_registers empty (js "test") (js "1h") (Async 0 Fulfilled)
           None None (Interval (Num 3600000) (Some (js "1h")))).
  - discriminate.
  - discriminate.
  - reflexivity.
Defined.

(** X2: a configuration without a name, a schedule or a task function is
    refused with the error that names the three, and a schedule that
    [parseSchedule] refuses is refused with the error of [parseSchedule];
    in both cases nothing is registered. *)
Theorem addTask_rejects :
  forall (s : Scheduler.t) (config : task_config),
    (str_or_null (cfg_name config) = None \/
     str_or_null (cfg_schedule config) = None \/
     cfg_task config = None ->
     addTask s config
     = Throw (js "Task requires name, schedule, and task function")) /\
    (forall name sched fn m,
        cfg_name config = Just name -> name <> [] ->
        cfg_schedule config = Just sched -> sched <> [] ->
        cfg_task config = Some fn ->
        parseSchedule sched = Throw m ->
        addTask s config = Throw m).
Proof.
  intros s config. split.
  - unfold addTask, str_or_null.
    destruct (cfg_name config) as [| |name];
      destruct (cfg_schedule config) as [| |sched];
      destruct (cfg_task config) as [fn|]; try reflexivity.
    destruct name, sched; cbn [truthy_str andb]; try reflexivity.
    intros [H|[H|H]]; discriminate.
  - intros name sched fn m Hn Hn0 Hs Hs0 Hf Hp.
    unfold addTask. rewrite Hn, Hs, Hf.
    destruct name; [congruence|]. destruct sched; [congruence|].
    cbn [truthy_str andb]. now rewrite Hp.
Qed.

Lemma addTask_rejects_witness :
  addTask empty (mkConfig (Just (js "test")) Undefined
                   (Some (Async 0 Fulfilled)) None None)
  = Throw (js "Task requires name, schedule, and task function") /\
  addTask empty (mkConfig (Just (js "test")) (Just (js "invalid"))
                   (Some (Async 0 Fulfilled)) None None)
  = Throw (invalid_schedule_message (js "invalid")).
Proof.
  split.
  - apply (proj1 (addTask_rejects empty _)). right. left. reflexivity.
  - apply (proj2 (addTask_rejects empty
                    (mkConfig (Just (js "test")) (Just (js "invalid"))
                       (Some (Async 0 Fulfilled)) None None))
             (js "test") (js "invalid") (Async 0 Fulfilled));
      try reflexivity; discriminate.
Defined.

(** X3: removing a task forgets the task and its timer: the name has no
    task and no tracked timer afterwards, the tracked timer is no longer
    pending, and the other tasks stay.  Removing a task right after it was
    added under a new name gives back the scheduler as it was. *)
Theorem removeTask_forgets :
  forall (s : Scheduler.t) (name : jsstring),
    well_formed s ->
    let s' := removeTask s name in
    map_get name (tasks s') = None /\
    map_get name (timers s') = None /\
    (forall id, map_get name (timers s) = Some id ->
       ~ In id (map fst (pending_timers s'))) /\
    (forall other, other <> name ->
       map_get other (tasks s') = map_get other (tasks s)) /\
    (forall config s1,
        map_get name (tasks s) = None -> map_get name (timers s) = None ->
        addTask s config = Ok s1 -> cfg_name config = Just name ->
        removeTask s1 name = s).
Proof.
  intros s name [Ht Hm] s'. subst s'. unfold removeTask.
  destruct (map_get name (timers s)) as [id|] eqn:G; cbn.
  - repeat split.
    + now apply map_get_delete_same.
    + now apply map_get_delete_same.
    + intros id' E; inversion E; subst id'. intros Hin.
      apply in_map_iff in Hin as (p & Hp & Hin).
      apply filter_In in Hin as [_ Hf]. rewrite Hp, Nat.eqb_refl in Hf.
      discriminate.
    + intros other Ho. now apply map_get_delete_other.
    + discriminate.
  - repeat split.
    + now apply map_get_delete_same.
    + exact G.
    + discriminate.
    + intros other Ho. now apply map_get_delete_other.
    + intros config s1 Hnone _ Hadd Hname. unfold addTask in Hadd.
      rewrite Hname in Hadd.
      destruct (cfg_schedule config) as [| |sched]; try discriminate.
      destruct (cfg_task config) as [fn|]; try discriminate.
      destruct (truthy_str name && truthy_str sched); try discriminate.
      destruct (parseSchedule sched); try discriminate.
      inversion Hadd; subst s1; clear Hadd. cbn.
      assert (Gt : map_get name (timers s) = None) by exact G.
      rewrite Gt. unfold with_tasks. cbn.
      rewrite map_set_absent, map_delete_last by assumption.
      destruct s; reflexivity.
Qed.

Lemma removeTask_forgets_witness :
  let s := start no_cron market_creation_scheduler (Num 0) in
  let s' := removeTask s (js "market-creation") in
  map_get (js "market-creation") (tasks s') = None /\
  map_get (js "market-creation") (timers s') = None /\
  (forall id, map_get (js "market-creation") (timers s) = Some id ->
     ~ In id (map fst (pending_timers s'))) /\
  (forall other, other <> js "market-creation" ->
     map_get other (tasks s') = map_get other (tasks s)) /\
  (forall config s1,
      map_get (js "market-creation") (tasks s) = None ->
      map_get (js "market-creation") (timers s) = None ->
      addTask s config = Ok s1 ->
      cfg_name config = Just (js "market-creation") ->
      removeTask s1 (js "market-creation") = s).
Proof.
  apply (removeTask_forgets
           (start no_cron market_creation_scheduler (Num 0))
           (js "market-creation")).
  split; vm_compute; (constructor; [intros []|constructor]).
Defined.

(** ** Stopping *)

Section WithCron.
Variable cron_next : jsstring -> number -> result number.

Lemma run_job_stopped s now :
  running s = false ->
  running (run_job cron_next s now) = false /\
  pending_timers (run_job cron_next s now) = pending_timers s /\
  timers (run_job cron_next s now) = timers s.
Proof.
  intros Hr. unfold run_job. destruct (jobs s) as [|j rest]; [auto|].
  destruct j as [name [|turns] r w|name].
  - unfold finish_task, update_task.
    destruct r as [|m]; cbn [tasks];
      [|destruct (map_get name (tasks s))]; destruct w; cbn; auto.
  - cbn; auto.
  - unfold scheduleNext. cbn [tasks running].
    destruct (map_get name (tasks s)); [|cbn; auto].
    rewrite Hr. cbn; auto.
Qed.

Lemma run_jobs_stopped fuel : forall s now,
  running s = false ->
  running (run_jobs cron_next fuel s now) = false /\
  pending_timers (run_jobs cron_next fuel s now) = pending_timers s /\
  timers (run_jobs cron_next fuel s now) = timers s.
Proof.
  induction fuel as [|fuel IH]; intros s now Hr; cbn [run_jobs]; [auto|].
  destruct (jobs s) eqn:J; [auto|].
  destruct (run_job_stopped s now Hr) as (R & P & T).
  destruct (IH (run_job cron_next s now) now R) as (R' & P' & T').
  rewrite R', P', T', P, T. auto.
Qed.

(** X4: [stop()] keeps the tasks with their counters, forgets every
    tracked timer and cancels it.  Afterwards the executions still in the
    job queue finish without any timer being armed, and a timer that fires
    all the same runs nothing. *)
Theorem stop_cancels_timers :
  forall (s : Scheduler.t),
    let s' := stop s in
    running s' = false /\ tasks s' = tasks s /\ timers s' = [] /\
    (forall name id, In (name, id) (timers s) ->
       ~ In id (map fst (pending_timers s'))) /\
    (forall fuel now,
       let s'' := run_jobs cron_next fuel s' now in
       running s'' = false /\ timers s'' = [] /\
       pending_timers s'' = pending_timers s') /\
    (forall now id,
       let s'' := fire_timer s' now id in
       tasks s'' = tasks s' /\ log s'' = log s' /\ jobs s'' = jobs s' /\
       timers s'' = []).
Proof.
  intros s s'. subst s'. repeat split.
  - intros name id Hin Hp. cbn in Hp.
    apply in_map_iff in Hp as (p & Hp & Hf).
    apply filter_In in Hf as [_ Hf].
    apply negb_true_iff in Hf.
    assert (E : existsb (fun q => Nat.eqb (snd q) (fst p)) (timers s) = true).
    { apply existsb_exists. exists (name, id). split; [exact Hin|].
      cbn. rewrite Hp. apply Nat.eqb_refl. }
    congruence.
  - apply (run_jobs_stopped fuel (stop s) now). reflexivity.
  - destruct (run_jobs_stopped fuel (stop s) now eq_refl) as (_ & _ & T).
    exact T.
  - destruct (run_jobs_stopped fuel (stop s) now eq_refl) as (_ & P & _).
    exact P.
  - unfold fire_timer.
    destruct (find _ (pending_timers (stop s))) as [[? [name ?]]|];
      [|reflexivity].
    cbn [clearTimeout tasks running].
    destruct (map_get name (tasks (stop s))); reflexivity.
  - unfold fire_timer.
    destruct (find _ (pending_timers (stop s))) as [[? [name ?]]|];
      [|reflexivity].
    cbn [clearTimeout tasks running].
    destruct (map_get name (tasks (stop s))); reflexivity.
  - unfold fire_timer.
    destruct (find _ (pending_timers (stop s))) as [[? [name ?]]|];
      [|reflexivity].
    cbn [clearTimeout tasks running].
    destruct (map_get name (tasks (stop s))); reflexivity.
  - unfold fire_timer.
    destruct (find _ (pending_timers (stop s))) as [[? [name ?]]|];
      [|reflexivity].
    cbn [clearTimeout tasks running].
    destruct (map_get name (tasks (stop s))); reflexivity.
Qed.

(** ** The errors kept for a task *)

Lemma map_set_In {V : Type} (k : jsstring) (v : V) m n c :
  In (n, c) (map_set k v m) -> In (n, c) m \/ c = v.
Proof.
  induction m as [|[k' v'] m IH]; simpl.
  - intros [E|[]]; inversion E; auto.
  - destruct (str_eqb k k'); simpl.
    + intros [E|H]; [inversion E; auto|auto].
    + intros [E|H]; [auto|]. destruct (IH H); auto.
Qed.

Lemma map_delete_In {V : Type} (k : jsstring) (m : list (jsstring * V)) p :
  In p (map_delete k m) -> In p m.
Proof.
  induction m as [|[k' v'] m IH]; simpl; [auto|].
  destruct (str_eqb k k'); simpl; intuition.
Qed.

Lemma errors_bounded_same s s' :
  tasks s' = tasks s -> errors_bounded s -> errors_bounded s'.
Proof. unfold errors_bounded. intros ->. auto. Qed.

Lemma errors_bounded_set s k v :
  errors_bounded s -> (List.length (errors v) <= 10)%nat ->
  errors_bounded (with_tasks s (map_set k v (tasks s))).
Proof.
  intros H Hv n c Hin. cbn in Hin.
  destruct (map_set_In _ _ _ _ _ Hin) as [Hi| ->]; [eapply H; eauto|exact Hv].
Qed.

Lemma record_error_bounded now m c :
  (List.length (errors c) <= 10)%nat ->
  (List.length (errors (record_error now m c)) <= 10)%nat.
Proof.
  intros H. unfold record_error. cbn [errors].
  destruct (10 <? List.length (errors c ++ [(now, m)]))%nat eqn:E.
  - destruct (errors c); cbn in *; [lia|]. rewrite length_app in *. cbn in *.
    lia.
  - apply Nat.ltb_ge in E. exact E.
Qed.

Lemma errors_bounded_update s name f :
  (forall c, (List.length (errors c) <= 10)%nat ->
             (List.length (errors (f c)) <= 10)%nat) ->
  errors_bounded s -> errors_bounded (update_task s name f).
Proof.
  intros Hf H. unfold update_task.
  destruct (map_get name (tasks s)) as [c|] eqn:G; [|exact H].
  apply errors_bounded_set; [exact H|].
  apply Hf. eapply H. eapply map_get_In; eauto.
Qed.

Lemma errors_bounded_finish s now name r :
  errors_bounded s -> errors_bounded (finish_task s now name r).
Proof.
  intros H. unfold finish_task.
  eapply errors_bounded_same; [reflexivity|].
  destruct r; [exact H|].
  apply errors_bounded_update; [|exact H].
  intros c. apply record_error_bounded.
Qed.

Lemma errors_bounded_executeTask s now name w :
  errors_bounded s -> errors_bounded (executeTask s now name w).
Proof.
  intros H. unfold executeTask.
  destruct (map_get name (tasks s)) as [c|] eqn:G; [|exact H].
  assert (H1 : errors_bounded
                 (add_event
                    (with_tasks s
                       (map_set name
                          (mkTask (schedule c) (originalSchedule c)
                             (task_fn c) (runImmediately c) (enabled c)
                             (Some now) (nextRun c)
                             (num_add (runCount c) (Num 1)) (errors c))
                          (tasks s))) (Invoked name))).
  { eapply errors_bounded_same; [reflexivity|].
    apply errors_bounded_set; [exact H|]. cbn.
    eapply H. eapply map_get_In; eauto. }
  destruct (task_fn c).
  - destruct w;
      (eapply errors_bounded_same; [reflexivity|]);
      apply errors_bounded_finish; exact H1.
  - eapply errors_bounded_same; [reflexivity|]. exact H1.
Qed.

Lemma errors_bounded_scheduleNext s now name :
  errors_bounded s -> errors_bounded (scheduleNext cron_next s now name).
Proof.
  intros H. unfold scheduleNext.
  destruct (map_get name (tasks s)) as [c|] eqn:G; [|exact H].
  destruct (negb (running s) || negb (enabled c)); [exact H|].
  match goal with
  | |- context [match ?d with Ok _ => _ | Throw _ => _ end] => destruct d
  end; [|exact H].
  eapply errors_bounded_same; [reflexivity|].
  apply errors_bounded_set; [exact H|]. cbn.
  eapply H. eapply map_get_In; eauto.
Qed.

Lemma errors_bounded_start_task now s name :
  errors_bounded s -> errors_bounded (start_task cron_next now s name).
Proof.
  intros H. unfold start_task.
  destruct (map_get name (tasks s)) as [c|]; [|exact H].
  destruct (negb (enabled c)); [exact H|].
  apply errors_bounded_scheduleNext.
  destruct (runImmediately c); [|exact H].
  now apply errors_bounded_executeTask.
Qed.

Lemma errors_bounded_start s now :
  errors_bounded s -> errors_bounded (start cron_next s now).
Proof.
  intros H. unfold start. destruct (running s); [exact H|].
  assert (H0 : errors_bounded (with_running s true)) by exact H.
  revert H0. generalize (with_running s true). generalize (map fst (tasks s)).
  intros ks. induction ks as [|k ks IH]; intros s0 H0; cbn; [exact H0|].
  apply IH. now apply errors_bounded_start_task.
Qed.

Lemma errors_bounded_run_job s now :
  errors_bounded s -> errors_bounded (run_job cron_next s now).
Proof.
  intros H. unfold run_job. destruct (jobs s) as [|j rest]; [exact H|].
  set (s0 := mkScheduler _ _ _ _ _ rest _).
  assert (H0 : errors_bounded s0) by exact H.
  destruct j as [name [|turns] r w|name].
  - destruct w;
      try (eapply errors_bounded_same; [reflexivity|]);
      now apply errors_bounded_finish.
  - exact H0.
  - now apply errors_bounded_scheduleNext.
Qed.

Lemma errors_bounded_fire_timer s now id :
  errors_bounded s -> errors_bounded (fire_timer s now id).
Proof.
  intros H. unfold fire_timer.
  destruct (find _ (pending_timers s)) as [[? [name ?]]|]; [|exact H].
  assert (H1 : errors_bounded (clearTimeout s id)) by exact H.
  destruct (map_get name (tasks (clearTimeout s id))); [|exact H1].
  destruct (negb (running (clearTimeout s id)) || negb (enabled t0));
    [exact H1|].
  now apply errors_bounded_executeTask.
Qed.

(** X5: no task ever holds more than ten errors.  The bound holds for a
    task as registered, and every operation of the scheduler keeps it:
    starting, a timer firing, a turn of the job queue (where a failure is
    recorded), [runNow], enabling, disabling, removing and stopping.  Of
    these errors [getTaskInfo] shows the last five at most. *)
Theorem errors_never_exceed_ten :
  forall (s : Scheduler.t) (now : number),
    errors_bounded s ->
    (forall config s', addTask s config = Ok s' -> errors_bounded s') /\
    errors_bounded (start cron_next s now) /\
    (forall id, errors_bounded (fire_timer s now id)) /\
    (forall fuel, errors_bounded (run_jobs cron_next fuel s now)) /\
    (forall name s', runNow s now name = Ok s' ->
                     errors_bounded s') /\
    (forall name, errors_bounded (enableTask cron_next s now name)) /\
    (forall name, errors_bounded (disableTask s name)) /\
    (forall name, errors_bounded (removeTask s name)) /\
    errors_bounded (stop s) /\
    (forall name info, getTaskInfo s name = Some info ->
       (List.length (recentErrors info) <= 5)%nat /\
       exists c older,
         map_get name (tasks s) = Some c /\
         errors c = older ++ recentErrors info).
Proof.
  intros s now H.
  split; [|split; [|split; [|split; [|split; [|split; [|split; [|split;
    [|split]]]]]]]].
  - intros config s' Hadd. unfold addTask in Hadd.
    destruct (cfg_name config) as [| |name]; try discriminate.
    destruct (cfg_schedule config) as [| |sched]; try discriminate.
    destruct (cfg_task config) as [fn|]; try discriminate.
    destruct (truthy_str name && truthy_str sched); try discriminate.
    destruct (parseSchedule sched); try discriminate.
    inversion Hadd; subst s'.
    apply errors_bounded_set; [exact H|]. cbn. lia.
  - now apply errors_bounded_start.
  - intros id. now apply errors_bounded_fire_timer.
  - intros fuel. revert s H.
    induction fuel as [|fuel IH]; intros s H; cbn [run_jobs]; [exact H|].
    destruct (jobs s); [exact H|].
    apply IH. now apply errors_bounded_run_job.
  - intros name s' Hr. unfold runNow in Hr.
    destruct (map_get name (tasks s)); inversion Hr.
    now apply errors_bounded_executeTask.
  - intros name. unfold enableTask.
    destruct (map_get name (tasks s)); [|exact H].
    assert (H1 : errors_bounded (update_task s name (set_enabled true)))
      by (apply errors_bounded_update; auto).
    destruct (running _); [|exact H1].
    now apply errors_bounded_scheduleNext.
  - intros name. unfold disableTask.
    destruct (map_get name (tasks s)); [|exact H].
    assert (H1 : errors_bounded (update_task s name (set_enabled false)))
      by (apply errors_bounded_update; auto).
    destruct (map_get name (timers _)); [|exact H1].
    exact H1.
  - intros name n c Hin. unfold removeTask in Hin.
    destruct (map_get name (timers s)); cbn in Hin;
      apply map_delete_In in Hin; eapply H; eauto.
  - exact H.
  - intros name info G. unfold getTaskInfo in G.
    destruct (map_get name (tasks s)) as [c|]; [|discriminate].
    inversion G; subst info; clear G. cbn [recentErrors]. unfold last_n.
    split; [rewrite length_skipn; lia|].
    exists c, (firstn (List.length (errors c) - 5) (errors c)).
    split; [reflexivity|]. symmetry. apply firstn_skipn.
Qed.

(** ** Running a task on demand *)


(** ** Cron schedules *)

(** X7: for a task on a cron schedule, the delay of the timer is the time
    to the next occurrence and never less than one second, and [nextRun]
    is the present time plus that delay.  An expression that the cron
    library refuses is only noticed here, not by [addTask]: no timer is
    armed and the scheduler is left as it is, so the task never runs on
    its schedule. *)
Theorem cron_schedule_arming :
  forall (s : Scheduler.t) (now : number) (name expression : jsstring)
         (c : task),
    running s = true -> map_get name (tasks s) = Some c ->
    enabled c = true -> schedule c = Cron expression ->
    let s' := scheduleNext cron_next s now name in
    (forall m, cron_next expression now = Throw m -> s' = s) /\
    (forall next, cron_next expression now = Ok next ->
       exists d,
         log s' = log s ++ [Armed name d] /\
         pending_timers s'
         = pending_timers s ++ [(next_timer_id s, (name, d))] /\
         num_ltb d (Num 1000) = false /\
         (num_ltb (num_sub next now) (Num 1000) = false ->
          d = num_sub next now) /\
         (num_ltb (num_sub next now) (Num 1000) = true -> d = Num 1000) /\
         getNextRun s' name = Some (num_add now d)).
Proof.
  intros s now name expression c Hr G He Hs s'. subst s'.
  unfold scheduleNext. rewrite G, Hr, He, Hs. cbn [negb orb]. split.
  - intros m Hc. now rewrite Hc.
  - intros next Hc. rewrite Hc.
    exists (if num_ltb (num_sub next now) (Num 1000) then Num 1000
            else num_sub next now).
    unfold getNextRun. cbn. rewrite map_get_set_same. cbn.
    repeat split; auto.
    + destruct (num_ltb (num_sub next now) (Num 1000)) eqn:E;
        [reflexivity|exact E].
    + intros E. now rewrite E.
    + intros E. now rewrite E.
Qed.

(** ** Enabling and disabling *)

(** X8: disabling a task clears its flag, cancels and forgets its timer
    and leaves the other tasks, the running flag and the record of events
    alone. *)
Theorem disableTask_cancels :
  forall (s : Scheduler.t) (name : jsstring) (c : task),
    well_formed s -> map_get name (tasks s) = Some c ->
    let s' := disableTask s name in
    map_get name (tasks s') = Some (set_enabled false c) /\
    map_get name (timers s') = None /\
    (forall id, map_get name (timers s) = Some id ->
       ~ In id (map fst (pending_timers s'))) /\
    (forall other, other <> name ->
       map_get other (tasks s') = map_get other (tasks s)) /\
    running s' = running s /\ log s' = log s.
Proof.
  intros s name c [Ht Hm] G s'. subst s'. unfold disableTask.
  rewrite G. unfold update_task. rewrite G. cbn [timers with_tasks].
  destruct (map_get name (timers s)) as [id|] eqn:T;
    cbn [clearTimeout tasks timers running pending_timers log];
    (split; [apply map_get_set_same|]);
    (split; [|split; [|split; [|split; reflexivity]]]).
  - now apply map_get_delete_same.
  - intros id' E; inversion E; subst id'. intros Hin.
    apply in_map_iff in Hin as (p & Hp & Hin).
    apply filter_In in Hin as [_ Hf]. rewrite Hp, Nat.eqb_refl in Hf.
    discriminate.
  - intros other Ho. apply map_get_set_other. congruence.
  - exact T.
  - discriminate.
  - intros other Ho. apply map_get_set_other. congruence.
Qed.

(** X9: enabling a task of a running scheduler sets its flag and arms a
    timer for it without cancelling any: the timers that were pending,
    those of the task itself included, stay pending, and the new one is
    the timer tracked for the task.  When the scheduler does not run, only
    the flag is set. *)
Theorem enableTask_arms_without_cancelling :
  forall (s : Scheduler.t) (now : number) (name : jsstring) (c : task)
         (ms : number) (o : option jsstring),
    map_get name (tasks s) = Some c -> schedule c = Interval ms o ->
    let s' := enableTask cron_next s now name in
    option_map enabled (map_get name (tasks s')) = Some true /\
    (running s = true ->
     pending_timers s'
     = pending_timers s ++ [(next_timer_id s, (name, ms))] /\
     map_get name (timers s') = Some (next_timer_id s) /\
     pending_for s' name = pending_for s name ++ [next_timer_id s]) /\
    (running s = false ->
     pending_timers s' = pending_timers s /\ timers s' = timers s).
Proof.
  intros s now name c ms o G Hs s'. subst s'. unfold enableTask.
  rewrite G. unfold update_task. rewrite G. cbn [running with_tasks].
  destruct (running s) eqn:Hr.
  - unfold scheduleNext. cbn [tasks running with_tasks].
    rewrite map_get_set_same, Hr. cbn [set_enabled enabled negb orb schedule].
    rewrite Hs. cbn. rewrite map_get_set_same. cbn.
    repeat split; auto; try discriminate.
    + apply map_get_set_same.
    + unfold pending_for. cbn. rewrite filter_app, map_app. cbn.
      now rewrite str_eqb_refl.
  - cbn. rewrite map_get_set_same. cbn. repeat split; auto; discriminate.
Qed.

(** ** A timer that fires *)






End WithCron.

Lemma stop_cancels_timers_witness :
  let s := start no_cron market_creation_scheduler (Num 0) in
  let s' := stop s in
  running s' = false /\ tasks s' = tasks s /\ timers s' = [] /\
  (forall name id, In (name, id) (timers s) ->
     ~ In id (map fst (pending_timers s'))) /\
  (forall fuel now,
     let s'' := run_jobs no_cron fuel s' now in
     running s'' = false /\ timers s'' = [] /\
     pending_timers s'' = pending_timers s') /\
  (forall now id,
     let s'' := fire_timer s' now id in
     tasks s'' = tasks s' /\ log s'' = log s' /\ jobs s'' = jobs s' /\
     timers s'' = []).
Proof.
  apply (stop_cancels_timers no_cron
           (start no_cron market_creation_scheduler (Num 0))).
Defined.

(** A task that has failed ten times and whose function throws. *)
Lemma errors_never_exceed_ten_witness :
  let failing :=
    mkTask (Interval (Num 1000) None) (js "1000") (SyncThrow (js "boom"))
      false true None None (Num 10) (repeat (Num 0, js "boom") 10) in
  let s := mkScheduler [(js "t", failing)] [] false [] 0 [] [] in
  errors_bounded s /\
  forall s', runNow s (Num 5) (js "t") = Ok s' -> errors_bounded s'.
Proof.
  intros failing s.
  assert (H : errors_bounded s).
  { intros n c [E|[]]. inversion E; subst. cbn. lia. }
  split; [exact H|].
  intros s' Hr.
  exact (proj1 (proj2 (proj2 (proj2 (proj2
           (errors_never_exceed_ten no_cron s (Num 5) H)))))
           (js "t") s' Hr).
Defined.


(** A task that runs every minute, with a cron library that reports the
    next occurrence 250 ms ahead. *)
Lemma cron_schedule_arming_witness :
  let every_minute :=
    mkTask (Cron (js "* * * * *")) (js "* * * * *") (Async 0 Fulfilled)
      false true None None (Num 0) [] in
  let s := mkScheduler [(js "tick", every_minute)] [] true [] 0 [] [] in
  let cron := fun (_ : jsstring) (now : number) =>
                Ok (num_add now (Num 250)) in
  exists d,
    log (scheduleNext cron s (Num 10000) (js "tick"))
    = [Armed (js "tick") d] /\ d = Num 1000.
Proof.
  intros every_minute s cron.
  destruct (proj2 (cron_schedule_arming cron s (Num 10000) (js "tick")
                     (js "* * * * *") every_minute
                     eq_refl eq_refl eq_refl eq_refl)
              (Num 10250) eq_refl)
    as (d & L & _ & _ & _ & D & _).
  exists d. split; [exact L|]. apply D. reflexivity.
Defined.

Lemma disableTask_cancels_witness :
  let s := start no_cron market_creation_scheduler (Num 0) in
  let s' := disableTask s (js "market-creation") in
  map_get (js "market-creation") (timers s') = None /\
  pending_timers s' = [] /\
  option_map enabled (map_get (js "market-creation") (tasks s'))
  = Some false.
Proof.
  intros s s'.
  assert (W : well_formed s)
    by (split; vm_compute; (constructor; [intros []|constructor])).
  destruct (map_get (js "market-creation") (tasks s)) as [c|] eqn:G;
    [|discriminate G].
  destruct (disableTask_cancels s (js "market-creation") c W G)
    as (H1 & H2 & _).
  split; [exact H2|]. split; [reflexivity|].
  fold s' in H1. rewrite H1. reflexivity.
Defined.

Lemma enableTask_arms_without_cancelling_witness :
  let s := start no_cron market_creation_scheduler (Num 0) in
  let s' := enableTask no_cron s (Num 1) (js "market-creation") in
  pending_for s (js "market-creation") = [0%nat] /\
  pending_for s' (js "market-creation") = [0%nat; 1%nat].
Proof.
  intros s s'. split; [reflexivity|].
  destruct (map_get (js "market-creation") (tasks s)) as [c|] eqn:G;
    [|discriminate G].
  assert (Hs : schedule c = Interval (Num 3600000) (Some (js "1h")))
    by (vm_compute in G; inversion G; reflexivity).
  destruct (enableTask_arms_without_cancelling no_cron s (Num 1)
              (js "market-creation") c _ _ G Hs) as (_ & H & _).
  destruct (H eq_refl) as (_ & _ & P). exact P.
Defined.


End SchedulerProperties.

(* ===================================================================== *)
(** * Further properties of the store *)
(* ===================================================================== *)

Module MarketStoreProperties.
Import JS JSFacts MarketStore MarketStoreFacts.

Lemma find_filter_other (a b : jsstring) (rows : list Row.t) :
  b <> a ->
  find (fun r => str_eqb (Row.address r) b)
    (filter (fun r => negb (str_eqb (Row.address r) a)) rows)
  = find (fun r => str_eqb (Row.address r) b) rows.
Proof.
  intros Hne. induction rows as [|x rows IH]; simpl; [reflexivity|].
  destruct (str_eqb (Row.address x) a) eqn:Ea; simpl.
  - apply str_eqb_eq in Ea.
    assert (Eb : str_eqb (Row.address x) b = false)
      by (apply str_eqb_neq; congruence).
    now rewrite Eb.
  - now rewrite IH.
Qed.

Lemma existsb_find {A : Type} (p : A -> bool) (l : list A) :
  existsb p l = match find p l with Some _ => true | None => false end.
Proof.
  induction l as [|x l IH]; simpl; [reflexivity|].
  destruct (p x); [reflexivity|exact IH].
Qed.

Lemma getMarket_saveMarket_other (s : t) (now : number) (record : market)
  (b : jsstring) :
  utf8_text b <> utf8_text (address record) ->
  getMarket (fst (saveMarket s now record)) b = getMarket s b.
Proof.
  intros Hne. unfold getMarket, saveMarket, insert_or_replace.
  cbn [fst markets with_markets].
  set (row := row_of_record now record).
  assert (Ea : Row.address row = utf8_text (address record)) by reflexivity.
  assert (E : str_eqb (Row.address row) (utf8_text b) = false).
  { apply str_eqb_neq. rewrite Ea. congruence. }
  assert (F : find (fun r => str_eqb (Row.address r) (utf8_text b))
                (filter
                   (fun r => negb (str_eqb (Row.address r) (Row.address row)))
                   (markets s))
              = find (fun r => str_eqb (Row.address r) (utf8_text b))
                  (markets s))
    by (apply find_filter_other; rewrite Ea; exact Hne).
  clearbody row.
  destruct (find (fun r => str_eqb (Row.address r) (utf8_text b)) (markets s))
    as [r|] eqn:G.
  - clear G. revert F.
    generalize (filter
                  (fun r => negb (str_eqb (Row.address r) (Row.address row)))
                  (markets s)).
    intros l. induction l as [|x l IH]; cbn [find app]; [discriminate|].
    destruct (str_eqb (Row.address x) (utf8_text b));
      [intros H; now rewrite H|exact IH].
  - rewrite find_app_none by exact F. cbn [find]. now rewrite E.
Qed.

(** ** Deleting and updating *)

(** X11: after [deleteMarket(address)] no record is stored under the
    address; the result tells whether one was; the records under
    addresses with another text, the daemon state and the inbound events
    are as before. *)
Theorem deleteMarket_removes :
  forall (s : MarketStore.t) (a : jsstring),
    let s' := fst (deleteMarket s a) in
    getMarket s' a = None /\
    snd (deleteMarket s a)
    = (match getMarket s a with Some _ => true | None => false end) /\
    (forall b, utf8_text b <> utf8_text a ->
               getMarket s' b = getMarket s b) /\
    (List.length (markets s') <= List.length (markets s))%nat /\
    daemon_state s' = daemon_state s /\
    webhook_events s' = webhook_events s.
Proof.
  intros s a s'. subst s'. unfold deleteMarket, getMarket.
  cbn [fst snd markets with_markets daemon_state webhook_events].
  repeat split.
  - now rewrite find_filter_out.
  - rewrite existsb_find.
    destruct (find _ (markets s)); reflexivity.
  - intros b Hb. now rewrite find_filter_other.
  - apply filter_length_le.
Qed.

Lemma fold_update_fixed (us : list update) : forall (r : Row.t),
  let r' := fold_left apply_update us r in
  Row.address r' = Row.address r /\ Row.question r' = Row.question r /\
  Row.category r' = Row.category r /\
  Row.category_key r' = Row.category_key r /\
  Row.creation_time r' = Row.creation_time r /\
  Row.creation_signature r' = Row.creation_signature r /\
  Row.initial_liquidity r' = Row.initial_liquidity r /\
  Row.duration_days r' = Row.duration_days r /\
  Row.end_time r' = Row.end_time r /\
  Row.metadata r' = Row.metadata r.
Proof.
  induction us as [|u us IH]; intros r; cbn [fold_left].
  - repeat split.
  - specialize (IH (apply_update r u)). cbn zeta in IH.
    destruct IH as (H1 & H2 & H3 & H4 & H5 & H6 & H7 & H8 & H9 & H10).
    rewrite H1, H2, H3, H4, H5, H6, H7, H8, H9, H10.
    destruct u; repeat split.
Qed.

Lemma last_assigned_app {A : Type} (pick : update -> option A)
  (us : list update) (u : update) :
  last_assigned pick (us ++ [u])
  = match pick u with Some v => Some v | None => last_assigned pick us end.
Proof. unfold last_assigned. rewrite fold_left_app. reflexivity. Qed.

(** The columns that updates can assign hold what was assigned last. *)
Lemma fold_update_assigned (us : list update) (r : Row.t) :
  let r' := fold_left apply_update us r in
  Row.bound_status r'
  = match last_assigned status_set us with
    | Some v => v | None => Row.bound_status r end /\
  Row.bound_outcome r'
  = match last_assigned outcome_set us with
    | Some v => v | None => Row.bound_outcome r end /\
  Row.bound_volume r'
  = match last_assigned volume_set us with
    | Some v => v | None => Row.bound_volume r end /\
  Row.resolution_time r'
  = match last_assigned resolutionTime_set us with
    | Some v => match v with Some n => sql_number n | None => None end
    | None => Row.resolution_time r
    end.
Proof.
  induction us as [|u us IH] using rev_ind; [repeat split|].
  cbn zeta in *. rewrite fold_left_app, !last_assigned_app.
  destruct IH as (H1 & H2 & H3 & H4).
  cbn [fold_left]. destruct u; cbn; auto.
Qed.

Lemma find_update_rows (a b : jsstring) (us : list update)
  (rows : list Row.t) :
  find (fun r => str_eqb (Row.address r) b) (update_rows a us rows)
  = option_map
      (fun r => if str_eqb (Row.address r) (utf8_text a)
                then fold_left apply_update us r else r)
      (find (fun r => str_eqb (Row.address r) b) rows).
Proof.
  unfold update_rows.
  induction rows as [|x rows IH]; cbn [map find option_map]; [reflexivity|].
  destruct (str_eqb (Row.address x) (utf8_text a)) eqn:Ea.
  - destruct (fold_update_fixed us x) as (H1 & _). rewrite H1.
    destruct (str_eqb (Row.address x) b); cbn [option_map];
      [now rewrite Ea|exact IH].
  - destruct (str_eqb (Row.address x) b); cbn [option_map];
      [now rewrite Ea|exact IH].
Qed.

(** X12: [updateMarket] returns [null] and changes nothing for an address
    that is not stored.  For a stored record it returns the record read
    back, in which the status, the outcome, the volume and the resolution
    time are each what the updates assign to it last, or as before when
    they assign nothing to it, and every other field is as before; the
    identifiers and questions of the table, the records under addresses
    with another text, the state and the events are as before; and an
    empty set of updates leaves the store as it is. *)
Theorem updateMarket_changes_named_columns :
  forall (s : MarketStore.t) (a : jsstring) (us : list update),
    (getMarket s a = None -> updateMarket s a us = (s, None)) /\
    (forall m0, getMarket s a = Some m0 ->
       exists s' m,
         updateMarket s a us = (s', Some m) /\
         getMarket s' a = Some m /\
         address m = address m0 /\ question m = question m0 /\
         category m = category m0 /\ categoryKey m = categoryKey m0 /\
         creationTime m = creationTime m0 /\
         creationSignature m = creationSignature m0 /\
         initialLiquidity m = initialLiquidity m0 /\
         durationDays m = durationDays m0 /\ endTime m = endTime m0 /\
         metadata m = metadata m0 /\
         status m
         = match last_assigned status_set us with
           | Some v => of_column (option_map utf8_text v)
           | None => status m0
           end /\
         outcome m
         = match last_assigned outcome_set us with
           | Some v => of_column (option_map utf8_text v)
           | None => outcome m0
           end /\
         volume m
         = match last_assigned volume_set us with
           | Some v => of_column (option_map AStr (option_map utf8_text v))
           | None => volume m0
           end /\
         resolutionTime m
         = match last_assigned resolutionTime_set us with
           | Some v =>
               of_column (match v with
                          | Some n => sql_number n
                          | None => None
                          end)
           | None => resolutionTime m0
           end /\
         contents s' = contents s /\
         (forall b, utf8_text b <> utf8_text a ->
                    getMarket s' b = getMarket s b) /\
         (us = [] -> s' = s) /\
         daemon_state s' = daemon_state s /\
         webhook_events s' = webhook_events s).
Proof.
  intros s a us. split.
  - intros G. unfold updateMarket. now rewrite G.
  - intros m0 G. unfold updateMarket. rewrite G.
    unfold getMarket in G.
    destruct (find (fun r => str_eqb (Row.address r) (utf8_text a))
                (markets s)) as [r|] eqn:F; [|discriminate].
    cbn [option_map] in G. inversion G; subst m0; clear G.
    assert (Ea : str_eqb (Row.address r) (utf8_text a) = true).
    { apply find_some in F. apply F. }
    set (s' := match us with
               | [] => s
               | _ => with_markets s (update_rows a us (markets s))
               end).
    set (r' := fold_left apply_update us r).
    assert (Gm : getMarket s' a = Some (_rowToMarket r')).
    { subst s' r'. destruct us as [|u us].
      - unfold getMarket. now rewrite F.
      - unfold getMarket. cbn [markets with_markets].
        rewrite find_update_rows, F. cbn [option_map]. now rewrite Ea. }
    exists s', (_rowToMarket r').
    destruct (fold_update_fixed us r)
      as (H1 & H2 & H3 & H4 & H5 & H6 & H7 & H8 & H9 & H10).
    destruct (fold_update_assigned us r) as (A1 & A2 & A3 & A4).
    fold r' in H1, H2, H3, H4, H5, H6, H7, H8, H9, H10, A1, A2, A3, A4.
    split; [now rewrite Gm|]. split; [exact Gm|].
    cbn [_rowToMarket address question category categoryKey creationTime
         creationSignature initialLiquidity durationDays endTime metadata
         status outcome volume resolutionTime].
    rewrite H1, H2, H3, H4, H5, H6, H7, H8, H9, H10.
    unfold Row.status, Row.outcome, Row.volume. rewrite A1, A2, A3, A4.
    split; [reflexivity|]. split; [reflexivity|]. split; [reflexivity|].
    split; [reflexivity|]. split; [reflexivity|]. split; [reflexivity|].
    split; [reflexivity|]. split; [reflexivity|]. split; [reflexivity|].
    split; [reflexivity|].
    split; [destruct (last_assigned status_set us); reflexivity|].
    split; [destruct (last_assigned outcome_set us); reflexivity|].
    split; [destruct (last_assigned volume_set us); reflexivity|].
    split; [destruct (last_assigned resolutionTime_set us); reflexivity|].
    split; [|split; [|split; [|split]]].
    + subst s'. destruct us as [|u us]; [reflexivity|].
      unfold contents, update_rows. cbn [markets with_markets].
      rewrite map_map. apply map_ext. intros x.
      destruct (str_eqb (Row.address x) (utf8_text a)); [|reflexivity].
      destruct (fold_update_fixed (u :: us) x) as (K1 & K2 & _).
      now rewrite K1, K2.
    + intros b Hb. subst s'. destruct us as [|u us]; [reflexivity|].
      unfold getMarket. cbn [markets with_markets].
      rewrite find_update_rows.
      destruct (find (fun r0 => str_eqb (Row.address r0) (utf8_text b))
                  (markets s)) as [x|] eqn:Fb; [|reflexivity].
      cbn [option_map]. apply find_some in Fb. destruct Fb as [_ Fb].
      apply str_eqb_eq in Fb.
      assert (E : str_eqb (Row.address x) (utf8_text a) = false)
        by (apply str_eqb_neq; congruence).
      now rewrite E.
    + intros ->. reflexivity.
    + subst s'. destruct us; reflexivity.
    + subst s'. destruct us; reflexivity.
Qed.

(** ** Queries *)

Lemma order_by_In (l : list Row.t) (r : Row.t) :
  In r (order_by_creation_desc l) <-> In r l.
Proof.
  split; intros H.
  - eapply Permutation_in; [apply order_by_perm|exact H].
  - eapply Permutation_in; [apply Permutation_sym, order_by_perm|exact H].
Qed.

(** X13: [getAllMarkets({ status })] returns exactly the stored records
    whose status is the text of the status asked for: each returned
    record has it, each stored record with it is returned, and their
    number is the number of stored rows with that status. *)
Theorem getAllMarkets_by_status :
  forall (s : MarketStore.t) (st : jsstring),
    st <> [] ->
    let found :=
      getAllMarkets s
        (mkQuery (Just st) Undefined Undefined Undefined Undefined Undefined)
    in
    (forall m, In m found -> status m = Just (utf8_text st)) /\
    (forall r, In r (markets s) -> Row.status r = Some (utf8_text st) ->
               In (_rowToMarket r) found) /\
    List.length found = count_status s st.
Proof.
  intros s st Hst found. subst found. unfold getAllMarkets.
  cbn [limit_offset q_limit].
  assert (W : forall r,
             where_clause
               (mkQuery (Just st) Undefined Undefined Undefined Undefined
                  Undefined) r
             = col_eqb (Row.status r) st).
  { intros r. unfold where_clause.
    cbn [q_status q_category q_since q_until str_or_null num_or_null].
    destruct st; [congruence|]. cbn [truthy_str].
    now rewrite !andb_true_r. }
  rewrite (filter_ext _ _ W).
  repeat split.
  - intros m Hm. apply in_map_iff in Hm as (r & <- & Hr).
    apply order_by_In, filter_In in Hr as [_ Hr].
    unfold col_eqb in Hr. cbn [_rowToMarket status].
    destruct (Row.status r) as [x|]; [|discriminate].
    apply str_eqb_eq in Hr. now subst.
  - intros r Hr Hs. apply in_map. apply order_by_In, filter_In.
    split; [exact Hr|]. unfold col_eqb. rewrite Hs. apply str_eqb_refl.
  - rewrite length_map. unfold count_status.
    apply Permutation_length, order_by_perm.
Qed.

Lemma col_ltb_asym (a b : option number) :
  col_ltb a b = true -> col_ltb b a = false.
Proof.
  destruct a as [[| | |x]|], b as [[| | |y]|]; cbn; try congruence.
  intros H. apply Z.ltb_lt in H. apply Z.ltb_ge. lia.
Qed.

Lemma insert_desc_sorted (r : Row.t) (l : list Row.t) :
  Sorted not_older l -> Sorted not_older (insert_desc r l).
Proof.
  induction l as [|x l IH]; intros H; cbn [insert_desc].
  - repeat constructor.
  - destruct (col_ltb (Row.creation_time x) (Row.creation_time r)) eqn:E.
    + constructor; [exact H|]. constructor. now apply col_ltb_asym.
    + inversion H as [|? ? Hl Hx]; subst.
      constructor; [now apply IH|].
      destruct l as [|y l]; cbn [insert_desc].
      * constructor. exact E.
      * destruct (col_ltb (Row.creation_time y) (Row.creation_time r));
          constructor; [exact E|].
        inversion Hx; assumption.
Qed.

Lemma order_by_sorted (l : list Row.t) :
  Sorted not_older (order_by_creation_desc l).
Proof.
  unfold order_by_creation_desc.
  assert (G : forall acc, Sorted not_older acc ->
                Sorted not_older
                  (fold_left (fun acc r => insert_desc r acc) l acc)).
  { induction l as [|x l IH]; intros acc H; cbn; [exact H|].
    apply IH. now apply insert_desc_sorted. }
  apply G. constructor.
Qed.

Lemma skipn_sorted {A : Type} (R : A -> A -> Prop) (n : nat) :
  forall l, Sorted R l -> Sorted R (skipn n l).
Proof.
  induction n as [|n IH]; intros l H; [exact H|].
  destruct l as [|x l]; [exact H|]. cbn. apply IH.
  now inversion H.
Qed.

Lemma firstn_sorted {A : Type} (R : A -> A -> Prop) (n : nat) :
  forall l, Sorted R l -> Sorted R (firstn n l).
Proof.
  induction n as [|n IH]; intros l H; [constructor|].
  destruct l as [|x l]; [constructor|]. cbn.
  inversion H as [|? ? Hl Hx]; subst.
  constructor; [now apply IH|].
  destruct l as [|y l]; [destruct n; constructor|].
  destruct n; cbn; constructor. now inversion Hx.
Qed.

Lemma in_skipn {A : Type} (n : nat) : forall (l : list A) x,
  In x (skipn n l) -> In x l.
Proof.
  induction n as [|n IH]; intros l x H; [exact H|].
  destruct l as [|y l]; [exact H|]. right. now apply IH.
Qed.

Lemma in_firstn {A : Type} (n : nat) : forall (l : list A) x,
  In x (firstn n l) -> In x l.
Proof.
  induction n as [|n IH]; intros l x H; [destruct H|].
  destruct l as [|y l]; [exact H|]. destruct H as [H|H]; [now left|].
  right. now apply IH.
Qed.

(** X14: whatever the filters, [getAllMarkets] returns stored records
    that pass the filters, newest first (no record is followed by one
    created later), and at most [limit] of them when a positive limit is
    given. *)
Theorem getAllMarkets_newest_first :
  forall (s : MarketStore.t) (options : query),
  exists rows,
    getAllMarkets s options = map _rowToMarket rows /\
    Sorted not_older rows /\
    (forall r, In r rows ->
       In r (markets s) /\ where_clause options r = true) /\
    (forall lim, q_limit options = Just lim -> 0 < lim ->
       (List.length rows <= Z.to_nat lim)%nat).
Proof.
  intros s options.
  exists (limit_offset options
            (order_by_creation_desc
               (filter (where_clause options) (markets s)))).
  split; [reflexivity|].
  set (sorted := order_by_creation_desc _).
  assert (S0 : Sorted not_older sorted) by apply order_by_sorted.
  assert (I0 : forall r, In r sorted ->
                 In r (markets s) /\ where_clause options r = true).
  { intros r Hr. apply order_by_In, filter_In in Hr. exact Hr. }
  clearbody sorted. unfold limit_offset.
  destruct (q_limit options) as [| |lim].
  - repeat split; auto; try apply I0; auto. discriminate.
  - repeat split; auto; try apply I0; auto. discriminate.
  - destruct (lim =? 0) eqn:E0.
    + repeat split; auto; try apply I0; auto.
      intros lim' E; inversion E; subst. apply Z.eqb_eq in E0. lia.
    + set (skipped := match q_offset options with
                       | Just off =>
                           if 0 <? off then skipn (Z.to_nat off) sorted
                           else sorted
                       | _ => sorted
                       end).
      assert (S1 : Sorted not_older skipped).
      { subst skipped. destruct (q_offset options) as [| |off]; auto.
        destruct (0 <? off); auto. now apply skipn_sorted. }
      assert (I1 : forall r, In r skipped -> In r sorted).
      { subst skipped. intros r. destruct (q_offset options) as [| |off]; auto.
        destruct (0 <? off); auto. apply in_skipn. }
      clearbody skipped.
      destruct (lim <? 0) eqn:En.
      * repeat split; auto; try (apply I0, I1; assumption).
        intros lim' E; inversion E; subst. apply Z.ltb_lt in En. lia.
      * repeat split.
        -- now apply firstn_sorted.
        -- apply I0, I1. eapply in_firstn; eauto.
        -- apply I0, I1. eapply in_firstn; eauto.
        -- intros lim' E _; inversion E; subst. apply firstn_le_length.
Qed.

(** ** Statistics *)

Lemma count_three (p q r : Row.t -> bool) (l : list Row.t) :
  (forall x, In x l ->
     (p x = true /\ q x = false /\ r x = false) \/
     (p x = false /\ q x = true /\ r x = false) \/
     (p x = false /\ q x = false /\ r x = true)) ->
  (List.length l
   = List.length (filter p l) + List.length (filter q l)
     + List.length (filter r l))%nat.
Proof.
  induction l as [|x l IH]; intros H; [reflexivity|].
  cbn [filter List.length].
  rewrite IH by (intros y Hy; apply H; now right).
  destruct (H x (or_introl eq_refl)) as [(A & B & C)|[(A & B & C)|(A & B & C)]];
    rewrite A, B, C; cbn [List.length]; lia.
Qed.

(** X15: the counters of [getStats]: the recent records and the records
    of each status are among the records counted by [total]; and when
    every record is active, resolved or cancelled, [total] is the sum of
    the three counters. *)
Theorem getStats_counters :
  forall (s : MarketStore.t) (now : number),
    (forall r, In r (markets s) ->
       Row.status r = Some (js "active") \/
       Row.status r = Some (js "resolved") \/
       Row.status r = Some (js "cancelled")) ->
    let st := getStats s now in
    total st = (active st + resolved st + cancelled st)%nat /\
    (recentCount st <= total st)%nat /\
    total st = List.length (getAllMarkets s no_options).
Proof.
  intros s now H st. subst st. unfold getStats, count_status.
  cbn [total active resolved cancelled recentCount].
  repeat split.
  - apply count_three. intros x Hx.
    destruct (H x Hx) as [E|[E|E]]; rewrite E; cbn; auto.
  - apply filter_length_le.
  - rewrite getAllMarkets_all, length_map.
    symmetry. apply Permutation_length, order_by_perm.
Qed.

Lemma getAllMarkets_by_status_witness :
  let record (a st : string) :=
    mkMarket (js a) (js "Test") Undefined Undefined
      (Just (Num 1700000000000)) Undefined Undefined (Just (Num 30))
      Undefined (Just (js st)) Undefined Undefined Undefined Undefined in
  let save s r := fst (saveMarket s (Num 1700000000001) r) in
  let s := save (save empty (record "active1" "active")%string)
             (record "resolved1" "resolved")%string in
  let found :=
    getAllMarkets s
      (mkQuery (Just (js "active")) Undefined Undefined Undefined Undefined
         Undefined) in
  (forall m, In m found -> status m = Just (js "active")) /\
  List.length found = 1%nat.
Proof.
  intros record save s found.
  destruct (getAllMarkets_by_status s (js "active")) as (H1 & _ & H3);
    [discriminate|].
  split; [exact H1|]. fold found in H3. rewrite H3. reflexivity.
Defined.

Lemma getStats_counters_witness :
  let record (a st : string) :=
    mkMarket (js a) (js "Test") Undefined Undefined
      (Just (Num 1700000000000)) Undefined Undefined (Just (Num 30))
      Undefined (Just (js st)) Undefined Undefined Undefined Undefined in
  let save s r := fst (saveMarket s (Num 1700000000001) r) in
  let s := save (save (save empty (record "stat1" "active")%string)
                   (record "stat2" "active")%string)
             (record "stat3" "resolved")%string in
  let st := getStats s (Num 1700000000002) in
  total st = (active st + resolved st + cancelled st)%nat /\
  total st = 3%nat /\ active st = 2%nat /\ resolved st = 1%nat.
Proof.
  intros record save s st.
  assert (H : forall r, In r (markets s) ->
            Row.status r = Some (js "active") \/
            Row.status r = Some (js "resolved") \/
            Row.status r = Some (js "cancelled")).
  { intros r [E|[E|[E|[]]]]; subst r; cbn; auto. }
  destruct (getStats_counters s (Num 1700000000002) H) as (H1 & _).
  split; [exact H1|]. repeat split; reflexivity.
Defined.

(** ** Daemon state *)

Lemma select_state_put_other (s : t) (key key' : jsstring) (value : json)
  (now : number) :
  utf8_text key' <> utf8_text key ->
  select_state
    (with_daemon_state s (put_state key value now (daemon_state s))) key'
  = select_state s key'.
Proof.
  intros Hne. unfold select_state, put_state.
  cbn [daemon_state with_daemon_state].
  assert (E : str_eqb (utf8_text key) (utf8_text key') = false)
    by (apply str_eqb_neq; congruence).
  induction (daemon_state s) as [|[k [v n]] rows IH];
    cbn [filter find app fst snd negb].
  - now rewrite E.
  - destruct (str_eqb (utf8_text k) (utf8_text key)) eqn:Ek;
      cbn [negb find app fst].
    + apply str_eqb_eq in Ek. rewrite Ek, E. exact IH.
    + destruct (str_eqb (utf8_text k) (utf8_text key'));
        [reflexivity|exact IH].
Qed.

Lemma object_set_same (k : jsstring) (v : json) fields :
  json_field k (object_set k v fields) = Some v.
Proof.
  induction fields as [|[k' v'] fields IH]; cbn.
  - now rewrite str_eqb_refl.
  - destruct (str_eqb k k') eqn:E; cbn; rewrite E; [reflexivity|exact IH].
Qed.

Lemma object_set_other (k k' : jsstring) (v : json) fields :
  k' <> k -> json_field k' (object_set k v fields) = json_field k' fields.
Proof.
  intros Hne.
  assert (E : str_eqb k' k = false) by (apply str_eqb_neq; exact Hne).
  induction fields as [|[k0 v0] fields IH]; cbn.
  - now rewrite E.
  - destruct (str_eqb k k0) eqn:E0; cbn.
    + apply str_eqb_eq in E0. subst k0. now rewrite E.
    + destruct (str_eqb k' k0); [reflexivity|exact IH].
Qed.

Lemma saveState_getState_by_key :
  forall (s : MarketStore.t) (now : number) (key : jsstring) (value : json),
    let s' := saveState s now (ByKey key value) in
    (key <> [] -> getState s' (Just key) = value) /\
    (forall key', key' <> [] -> utf8_text key' <> utf8_text key ->
       getState s' (Just key') = getState s (Just key')) /\
    (utf8_text key <> js "__full_state__" ->
     getState s' Undefined = getState s Undefined) /\
    (key = [] -> getState s' (Just key) = getState s Undefined) /\
    markets s' = markets s /\ webhook_events s' = webhook_events s.
Proof.
  intros s now key value s'. subst s'. cbn [saveState]. repeat split.
  - intros Hk. unfold getState. destruct key; [congruence|].
    cbn [str_or_null truthy_str]. apply select_state_put.
  - intros key' Hk' Hne. unfold getState. destruct key'; [congruence|].
    cbn [str_or_null truthy_str]. now apply select_state_put_other.
  - intros Hne. unfold getState. cbn [str_or_null].
    apply select_state_put_other. intros E. apply Hne. now rewrite <- E.
  - intros ->. unfold getState. cbn [str_or_null truthy_str].
    apply select_state_put_other. discriminate.
Qed.

Lemma saveState_getState_whole :
  forall (s : MarketStore.t) (now : number)
         (stateObject : list (jsstring * json)),
    let s' := saveState s now (WholeState stateObject) in
    exists fields,
      getState s' Undefined = JObj fields /\
      json_field (js "savedAt") fields = Some (json_of_number now) /\
      (forall k, k <> js "savedAt" ->
                 json_field k fields = json_field k stateObject) /\
      (forall key, key <> [] -> utf8_text key <> js "__full_state__" ->
                   getState s' (Just key) = getState s (Just key)) /\
      (forall now' other,
          getState (saveState s' now' (WholeState other)) Undefined
          = getState (saveState s now' (WholeState other)) Undefined).
Proof.
  intros s now stateObject s'. subst s'.
  exists (object_set (js "savedAt") (json_of_number now) stateObject).
  cbn [saveState]. repeat split.
  - unfold getState. cbn [str_or_null]. apply select_state_put.
  - apply object_set_same.
  - intros k Hk. now apply object_set_other.
  - intros key Hk Hne. unfold getState. destruct key; [congruence|].
    cbn [str_or_null truthy_str]. now apply select_state_put_other.
  - intros now' other. unfold getState. cbn [str_or_null].
    now rewrite !select_state_put.
Qed.

(** X16: the state saved is the state read.  By key: a value saved under
    a non-empty key is what [getState(key)] returns afterwards; the values
    under the keys with another text and the records are untouched; but a
    value saved under the empty key cannot be read back, [getState('')]
    reading the whole-state entry instead.  As a whole: after
    [saveState(stateObject)], [getState()] returns the properties of the
    object with [savedAt] set to the time of the call, the values saved by
    key are untouched, and the second of two saves is the one that is
    read. *)
Theorem saveState_getState_round_trip :
  forall (s : MarketStore.t) (now : number),
    (forall (key : jsstring) (value : json),
       let s' := saveState s now (ByKey key value) in
       (key <> [] -> getState s' (Just key) = value) /\
       (forall key', key' <> [] -> utf8_text key' <> utf8_text key ->
          getState s' (Just key') = getState s (Just key')) /\
       (utf8_text key <> js "__full_state__" ->
        getState s' Undefined = getState s Undefined) /\
       (key = [] -> getState s' (Just key) = getState s Undefined) /\
       markets s' = markets s /\ webhook_events s' = webhook_events s) /\
    (forall (stateObject : list (jsstring * json)),
       let s' := saveState s now (WholeState stateObject) in
       exists fields,
         getState s' Undefined = JObj fields /\
         json_field (js "savedAt") fields = Some (json_of_number now) /\
         (forall k, k <> js "savedAt" ->
                    json_field k fields = json_field k stateObject) /\
         (forall key, key <> [] -> utf8_text key <> js "__full_state__" ->
                      getState s' (Just key) = getState s (Just key)) /\
         (forall now' other,
             getState (saveState s' now' (WholeState other)) Undefined
             = getState (saveState s now' (WholeState other)) Undefined)).
Proof.
  intros s now. split.
  - intros key value. apply saveState_getState_by_key.
  - intros stateObject. apply saveState_getState_whole.
Qed.

Lemma deleteMarket_removes_witness :
  let record (a : string) :=
    mkMarket (js a) (js "Test") Undefined Undefined
      (Just (Num 1700000000000)) Undefined Undefined (Just (Num 30))
      Undefined Undefined Undefined Undefined Undefined Undefined in
  let save s r := fst (saveMarket s (Num 1700000000001) r) in
  let s := save (save empty (record "keep")%string) (record "delete")%string in
  let s' := fst (deleteMarket s (js "delete")) in
  getMarket s' (js "delete") = None /\
  snd (deleteMarket s (js "delete")) = true /\
  getMarket s' (js "keep") = getMarket s (js "keep") /\
  snd (deleteMarket s' (js "delete")) = false.
Proof.
  intros record save s s'.
  destruct (deleteMarket_removes s (js "delete")) as (H1 & H2 & H3 & _).
  split; [exact H1|]. split; [rewrite H2; reflexivity|].
  split; [apply H3; discriminate|].
  destruct (deleteMarket_removes s' (js "delete")) as (_ & H2' & _).
  rewrite H2'. fold s' in H1. now rewrite H1.
Defined.

Lemma updateMarket_changes_named_columns_witness :
  let record :=
    mkMarket (js "update-test") (js "Test") Undefined Undefined
      (Just (Num 1700000000000)) Undefined Undefined (Just (Num 30))
      Undefined (Just (js "active")) Undefined Undefined Undefined
      Undefined in
  let s := fst (saveMarket empty (Num 1700000000001) record) in
  updateMarket s (js "missing") [SetStatus (Some (js "resolved"))]
  = (s, None) /\
  exists s' m,
    updateMarket s (js "update-test")
      [SetOutcome (Some (js "yes")); SetStatus (Some (js "resolved"))]
    = (s', Some m) /\
    status m = Just (js "resolved") /\ question m = js "Test" /\
    contents s' = contents s.
Proof.
  intros record s. split.
  - apply (proj1 (updateMarket_changes_named_columns s (js "missing")
                    [SetStatus (Some (js "resolved"))])). reflexivity.
  - destruct (proj2 (updateMarket_changes_named_columns s (js "update-test")
                       [SetOutcome (Some (js "yes"));
                        SetStatus (Some (js "resolved"))])
                (_rowToMarket (row_of_record (Num 1700000000001) record))
                eq_refl)
      as (s' & m & U & _ & _ & Q & _ & _ & _ & _ & _ & _ & _ & _ & St & _ & _
          & _ & C & _).
    exists s', m. split; [exact U|].
    split; [rewrite St; reflexivity|].
    split; [rewrite Q; reflexivity|exact C].
Defined.

Lemma getAllMarkets_newest_first_witness :
  let record (a : string) (created : Z) :=
    mkMarket (js a) (js "Test") Undefined Undefined (Just (Num created))
      Undefined Undefined (Just (Num 30)) Undefined Undefined Undefined
      Undefined Undefined Undefined in
  let save s r := fst (saveMarket s (Num 1700000000001) r) in
  let s := save (save (save empty (record "old" 1000)%string)
                   (record "new" 3000)%string)
             (record "mid" 2000)%string in
  let options := mkQuery Undefined Undefined Undefined Undefined (Just 2)
                   Undefined in
  map address (getAllMarkets s options) = [js "new"; js "mid"] /\
  exists rows,
    getAllMarkets s options = map _rowToMarket rows /\
    Sorted not_older rows /\ (List.length rows <= 2)%nat.
Proof.
  intros record save s options. split; [reflexivity|].
  destruct (getAllMarkets_newest_first s options) as (rows & E & S & _ & L).
  exists rows. split; [exact E|]. split; [exact S|].
  apply (L 2); [reflexivity|lia].
Defined.

Lemma saveState_getState_round_trip_witness :
  let s := saveState empty (Num 10) (ByKey (js "testKey") (JNum 42)) in
  getState s (Just (js "testKey")) = JNum 42 /\
  getState (saveState s (Num 11) (ByKey (js "other") JNull))
    (Just (js "testKey")) = JNum 42 /\
  getState (saveState s (Num 12) (ByKey [] (JNum 7))) (Just []) = JNull.
Proof.
  intros s.
  destruct (proj1 (saveState_getState_round_trip empty (Num 10))
              (js "testKey") (JNum 42)) as (H1 & _).
  destruct (proj1 (saveState_getState_round_trip s (Num 11))
              (js "other") JNull) as (_ & H2 & _).
  destruct (proj1 (saveState_getState_round_trip s (Num 12)) [] (JNum 7))
    as (_ & _ & _ & H4 & _).
  split; [apply H1; discriminate|].
  split; [rewrite H2 by discriminate; apply H1; discriminate|].
  etransitivity; [apply H4; reflexivity|reflexivity].
Defined.

(** ** Inbound events *)

Lemma insert_event_desc_In (e x : Event.t) (l : list Event.t) :
  In x (insert_event_desc e l) <-> x = e \/ In x l.
Proof.
  induction l as [|y l IH]; cbn.
  - intuition.
  - destruct (col_ltb (Event.timestamp y) (Event.timestamp e)); cbn.
    + intuition.
    + rewrite IH. intuition.
Qed.

Lemma sorted_events_In (l : list Event.t) (x : Event.t) :
  In x (fold_left (fun acc e => insert_event_desc e acc) l []) <-> In x l.
Proof.
  assert (G : forall acc,
             In x (fold_left (fun acc e => insert_event_desc e acc) l acc)
             <-> In x l \/ In x acc).
  { induction l as [|y l IH]; intros acc; cbn; [intuition|].
    rewrite IH, insert_event_desc_In. intuition. }
  rewrite G. cbn. intuition.
Qed.

(** X17: every inbound event gets an identifier of its own, one above the
    last one given, and starts unprocessed.  The numbering survives
    [markWebhookProcessed] and [clear()]: an identifier is never given
    twice, even after the table was emptied. *)
Theorem webhook_event_ids_fresh :
  forall (s : MarketStore.t) (now : number)
         (type signature : option jsstring) (data : json),
    events_well_numbered s ->
    let s' := saveWebhookEvent s now type signature data in
    let created :=
      Event.mk (event_seq s + 1) type signature data 0 (sql_number now) in
    events_well_numbered s' /\
    webhook_events s' = webhook_events s ++ [created] /\
    (forall e, In e (webhook_events s) -> Event.id e < Event.id created) /\
    (forall id, events_well_numbered (markWebhookProcessed s id)) /\
    events_well_numbered (clear s) /\
    webhook_events (saveWebhookEvent (clear s) now type signature data)
    = [created] /\
    logWebhookEvent s now type signature data = s'.
Proof.
  intros s now type signature data [Hnd Hle] s' created. subst s' created.
  unfold events_well_numbered, saveWebhookEvent.
  cbn [webhook_events event_seq clear Event.id].
  repeat split.
  - rewrite map_app. cbn. apply NoDup_app; [exact Hnd|repeat constructor; auto|].
    intros x Hx [<-|[]]. apply in_map_iff in Hx as (e & He & Hin).
    specialize (Hle e Hin). lia.
  - intros e He. apply in_app_or in He as [He|[<-|[]]]; cbn.
    + specialize (Hle e He). lia.
    + lia.
  - intros e He. specialize (Hle e He). lia.
  - unfold markWebhookProcessed. cbn [webhook_events].
    rewrite map_map.
    rewrite (map_ext _ Event.id); [exact Hnd|].
    intros e. destruct (Event.id e =? id); reflexivity.
  - unfold markWebhookProcessed. cbn [webhook_events event_seq].
    intros e He. apply in_map_iff in He as (x & Hx & Hin).
    specialize (Hle x Hin).
    destruct (Event.id x =? id); subst e; cbn; lia.
  - constructor.
  - intros e [].
Qed.

(** X18: [markWebhookProcessed(id)] marks the event with that identifier
    and no other, and marking again changes nothing; afterwards the event
    is listed among the processed events and no longer among the
    unprocessed ones. *)
Theorem markWebhookProcessed_marks :
  forall (s : MarketStore.t) (e : Event.t),
    events_well_numbered s -> In e (webhook_events s) ->
    let s' := markWebhookProcessed s (Event.id e) in
    let marked :=
      Event.mk (Event.id e) (Event.event_type e) (Event.signature e)
        (Event.data e) 1 (Event.timestamp e) in
    In marked (webhook_events s') /\
    (forall x, In x (webhook_events s) -> Event.id x <> Event.id e ->
               In x (webhook_events s')) /\
    (forall x, In x (webhook_events s') -> Event.id x = Event.id e ->
               x = marked) /\
    markWebhookProcessed s' (Event.id e) = s' /\
    In marked
      (getWebhookEventsBy s' (mkFilters Undefined (Just true) Undefined)) /\
    (forall x,
        In x (getWebhookEventsBy s'
                (mkFilters Undefined (Just false) Undefined)) ->
        Event.id x <> Event.id e).
Proof.
  intros s e [Hnd Hle] He s' marked.
  assert (M : In marked (webhook_events s')).
  { subst s' marked. unfold markWebhookProcessed. cbn [webhook_events].
    apply in_map_iff. exists e. rewrite Z.eqb_refl. auto. }
  assert (U : forall x, In x (webhook_events s') ->
                        Event.id x = Event.id e -> x = marked).
  { subst s' marked. unfold markWebhookProcessed. cbn [webhook_events].
    intros x Hx Hid. apply in_map_iff in Hx as (y & Hy & Hin).
    destruct (Event.id y =? Event.id e) eqn:E.
    - apply Z.eqb_eq in E.
      assert (y = e); [|subst; reflexivity].
      clear - Hnd Hin He E. induction (webhook_events s) as [|z l IH];
        [destruct Hin|].
      cbn in Hnd. inversion Hnd as [|? ? Hz Hl]; subst.
      destruct Hin as [->|Hin], He as [->|He']; auto.
      + exfalso. apply Hz. rewrite E. now apply in_map.
      + exfalso. apply Hz. rewrite <- E. now apply in_map.
    - subst x. apply Z.eqb_neq in E. contradiction. }
  split; [exact M|]. split; [|split; [exact U|split; [|split]]].
  - subst s'. unfold markWebhookProcessed. cbn [webhook_events].
    intros x Hx Hne. apply in_map_iff. exists x.
    apply Z.eqb_neq in Hne. rewrite Hne. auto.
  - subst s'. unfold markWebhookProcessed.
    cbn [webhook_events markets daemon_state event_seq]. f_equal.
    rewrite map_map. apply map_ext. intros x.
    destruct (Event.id x =? Event.id e) eqn:E;
      cbn [Event.id]; rewrite E; [|reflexivity].
    unfold Event.event_type, Event.signature.
    cbn [Event.bound_event_type Event.bound_signature Event.data
         Event.timestamp].
    destruct (Event.bound_event_type x), (Event.bound_signature x);
      cbn [option_map]; now rewrite ?utf8_text_idem.
  - unfold getWebhookEventsBy. cbn [f_limit f_eventType f_processed str_or_null].
    apply sorted_events_In, filter_In. split; [exact M|reflexivity].
  - intros x Hx Hid.
    unfold getWebhookEventsBy in Hx.
    cbn [f_limit f_eventType f_processed str_or_null] in Hx.
    apply sorted_events_In, filter_In in Hx as [Hx Hp].
    rewrite (U x Hx Hid) in Hp. discriminate.
Qed.

Lemma webhook_event_ids_fresh_witness :
  let s := saveWebhookEvent empty (Num 10) (Some (js "TRANSFER"))
             (Some (js "sig1")) JNull in
  let s' := saveWebhookEvent (clear s) (Num 20) (Some (js "SWAP"))
              (Some (js "sig2")) JNull in
  events_well_numbered s /\
  map Event.id (webhook_events s) = [1] /\
  map Event.id (webhook_events s') = [2].
Proof.
  intros s s'.
  destruct (webhook_event_ids_fresh empty (Num 10) (Some (js "TRANSFER"))
              (Some (js "sig1")) JNull) as (H & _).
  - split; [constructor|intros e []].
  - split; [exact H|]. split; reflexivity.
Defined.

Lemma markWebhookProcessed_marks_witness :
  let s := saveWebhookEvent
             (saveWebhookEvent empty (Num 10) (Some (js "TRANSFER"))
                (Some (js "sig1")) JNull)
             (Num 20) (Some (js "SWAP")) (Some (js "sig2")) JNull in
  let first := Event.mk 1 (Some (js "TRANSFER")) (Some (js "sig1")) JNull 0
                 (Some (Num 10)) in
  let s' := markWebhookProcessed s 1 in
  map Event.processed (webhook_events s') = [1; 0] /\
  markWebhookProcessed s' 1 = s' /\
  forall x,
    In x (getWebhookEventsBy s' (mkFilters Undefined (Just false) Undefined)) ->
    Event.id x <> 1.
Proof.
  intros s first s'.
  assert (W : events_well_numbered s).
  { split.
    - cbn. repeat constructor; cbn; intuition discriminate.
    - intros e [<-|[<-|[]]]; cbn; lia. }
  destruct (markWebhookProcessed_marks s first W (or_introl eq_refl))
    as (_ & _ & _ & H4 & _ & H6).
  split; [reflexivity|]. split; [exact H4|exact H6].
Defined.

(** ** Import *)

Lemma import_keeps_other (now : number) (ms : list market) (a : jsstring) :
  ~ In (utf8_text a) (map (fun m => utf8_text (address m)) ms) ->
  forall s,
    getMarket (fold_left (fun st m => fst (saveMarket st now m)) ms s) a
    = getMarket s a.
Proof.
  induction ms as [|m ms IH]; intros Hni s; [reflexivity|].
  cbn [fold_left]. rewrite IH by (cbn in Hni; tauto).
  apply getMarket_saveMarket_other. cbn in Hni. intuition.
Qed.

Lemma getMarket_text (s : t) (a b : jsstring) :
  utf8_text a = utf8_text b -> getMarket s a = getMarket s b.
Proof. intros E. unfold getMarket. now rewrite E. Qed.

Lemma import_keeps_present (now : number) (ms : list market) (a : jsstring) :
  forall s, getMarket s a <> None ->
    getMarket (fold_left (fun st m => fst (saveMarket st now m)) ms s) a
    <> None.
Proof.
  induction ms as [|m ms IH]; intros s H; [exact H|].
  cbn [fold_left]. apply IH.
  destruct (list_eq_dec N.eq_dec (utf8_text a) (utf8_text (address m)))
    as [E|Hne].
  - rewrite (getMarket_text _ _ _ E), getMarket_saveMarket. discriminate.
  - now rewrite getMarket_saveMarket_other.
Qed.

Lemma import_other_tables (now : number) (ms : list market) :
  forall s,
    let s' := fold_left (fun st m => fst (saveMarket st now m)) ms s in
    daemon_state s' = daemon_state s /\
    webhook_events s' = webhook_events s /\ event_seq s' = event_seq s.
Proof.
  induction ms as [|m ms IH]; intros s; [cbn; auto|].
  cbn [fold_left]. destruct (IH (fst (saveMarket s now m))) as (A & B & C).
  cbn zeta. rewrite A, B, C. cbn. auto.
Qed.

(** X19: [import] answers [false] and changes nothing for a text that
    does not parse.  Otherwise it answers [true]; afterwards every market
    of the document is stored, the records under an address whose text is
    that of no address of the document are as before, and the state and
    the events of the store are as before, whatever the document holds for
    them. *)
Theorem import_merges_markets :
  forall (s : MarketStore.t) (now : number),
    import s now Malformed = (s, false) /\
    (forall data,
       let s' := fst (import s now (Text data)) in
       snd (import s now (Text data)) = true /\
       (forall ms, doc_markets data = Just ms ->
          forall m, In m ms -> getMarket s' (address m) <> None) /\
       (forall ms, doc_markets data = Just ms ->
          forall a,
            ~ In (utf8_text a) (map (fun m => utf8_text (address m)) ms) ->
            getMarket s' a = getMarket s a) /\
       (doc_markets data = Undefined \/ doc_markets data = Null ->
        s' = s) /\
       daemon_state s' = daemon_state s /\
       webhook_events s' = webhook_events s).
Proof.
  intros s now. split; [reflexivity|].
  intros data s'. subst s'. unfold import.
  destruct (doc_markets data) as [| |ms]; cbn [fst snd].
  - repeat split; auto; discriminate.
  - repeat split; auto; discriminate.
  - destruct (import_other_tables now ms s) as (A & B & _).
    repeat split; auto.
    + intros ms' E m Hm. inversion E; subst ms'. clear E.
      apply in_split in Hm as (l1 & l2 & ->).
      rewrite fold_left_app. cbn [fold_left].
      apply import_keeps_present. rewrite getMarket_saveMarket. discriminate.
    + intros ms' E a Ha. inversion E; subst ms'.
      now apply import_keeps_other.
    + intros [E|E]; discriminate.
Qed.

Lemma import_merges_markets_witness :
  let record (a q : string) :=
    mkMarket (js a) (js q) Undefined Undefined (Just (Num 1700000000000))
      Undefined Undefined (Just (Num 30)) Undefined Undefined Undefined
      Undefined Undefined Undefined in
  let s := fst (saveMarket empty (Num 1700000000001)
                  (record "kept" "Kept?")%string) in
  let data := mkDocument (Just [(record "imported" "Imported?")%string])
                Undefined Undefined in
  let s' := fst (import s (Num 1700000000002) (Text data)) in
  import s (Num 1700000000002) Malformed = (s, false) /\
  snd (import s (Num 1700000000002) (Text data)) = true /\
  getMarket s' (js "imported") <> None /\
  getMarket s' (js "kept") = getMarket s (js "kept").
Proof.
  intros record s data s'.
  destruct (import_merges_markets s (Num 1700000000002)) as (H0 & H).
  destruct (H data) as (H1 & H2 & H3 & _).
  split; [exact H0|]. split; [exact H1|]. split.
  - apply (H2 _ eq_refl (record "imported" "Imported?")%string).
    now left.
  - apply (H3 _ eq_refl). cbn. intuition discriminate.
Defined.

End MarketStoreProperties.

(* ===================================================================== *)
(** * Further properties of the daemon *)
(* ===================================================================== *)

Module DaemonProperties.
Import JS JSFacts Daemon DaemonFacts.

Lemma active_after_save (tables : MarketStore.t) (d : Daemon.t)
  (now : number) (newsContext : json) (r : creation) :
  exists m,
    MarketStore.getMarket
      (fst (MarketStore.saveMarket tables now
              (market_record d now newsContext r))) (market r) = Some m /\
    MarketStore.status m = Just (js "active") /\
    MarketStore.question m = utf8_text (question r).
Proof.
  eexists. split.
  - apply (MarketStoreFacts.getMarket_saveMarket tables now
             (market_record d now newsContext r)).
  - split; reflexivity.
Qed.

Lemma store_results_open (now : number) (newsContext : json)
  (results : list creation) :
  forall (d : Daemon.t) (tables : MarketStore.t),
    store d = Some (mkHandle tables true) ->
    exists d' tables' mid,
      store_results d now newsContext results = (d', None) /\
      store d' = Some (mkHandle tables' true) /\
      events d' = events d ++ mid /\
      iterationCount d' = iterationCount d /\ cfg d' = cfg d /\
      isRunning d' = isRunning d /\ scheduler d' = scheduler d /\
      (forall r, In r results -> success r = true ->
         exists m, MarketStore.getMarket tables' (market r) = Some m /\
                   MarketStore.status m = Just (js "active")) /\
      (forall a,
         (exists m, MarketStore.getMarket tables a = Some m /\
                    MarketStore.status m = Just (js "active")) ->
         exists m, MarketStore.getMarket tables' a = Some m /\
                   MarketStore.status m = Just (js "active")) /\
      (forall a,
         (forall r, In r results -> success r = true ->
                    utf8_text (market r) <> utf8_text a) ->
         MarketStore.getMarket tables' a = MarketStore.getMarket tables a) /\
      MarketStore.daemon_state tables' = MarketStore.daemon_state tables.
Proof.
  induction results as [|r results IH]; intros d tables Hs.
  - exists d, tables, []. cbn. rewrite app_nil_r.
    repeat split; auto. intros r [].
  - cbn [store_results]. destruct (success r) eqn:Sr.
    + rewrite Hs. cbn [is_open db].
      set (tables1 := fst (MarketStore.saveMarket tables now
                             (market_record d now newsContext r))).
      set (d1 := emit (with_store d (Some (mkHandle tables1 true)))
                   (MARKET_CREATED (market r))).
      destruct (IH d1 tables1 eq_refl)
        as (d' & tables' & mid & E & S' & Ev & Ic & Cf & Ir & Sc & A & K & O & D).
      exists d', tables', (MARKET_CREATED (market r) :: mid).
      assert (Em : market_record d1 now newsContext = market_record d now newsContext)
        by reflexivity.
      split; [exact E|]. split; [exact S'|].
      split; [rewrite Ev; subst d1; cbn; now rewrite <- app_assoc|].
      split; [exact Ic|]. split; [exact Cf|]. split; [exact Ir|].
      split; [exact Sc|]. split; [|split; [|split]].
      * intros x [<-|Hx] Hsx; [|now apply A].
        apply K. subst tables1.
        destruct (active_after_save tables d now newsContext r)
          as (m & G & St & _).
        exists m. auto.
      * intros a Ha. apply K. subst tables1.
        destruct (list_eq_dec N.eq_dec (utf8_text a) (utf8_text (market r)))
          as [Eq|Hne].
        -- destruct (active_after_save tables d now newsContext r)
             as (m & G & St & _).
           exists m. rewrite (MarketStoreProperties.getMarket_text _ _ _ Eq).
           auto.
        -- rewrite MarketStoreProperties.getMarket_saveMarket_other; auto.
      * intros a Ha. rewrite O by (intros x Hx; apply Ha; now right).
        subst tables1.
        apply MarketStoreProperties.getMarket_saveMarket_other.
        intros E'. apply (Ha r (or_introl eq_refl) Sr). now symmetry.
      * rewrite D. reflexivity.
    + set (d1 := emit d (MARKET_FAILED (error r))).
      destruct (IH d1 tables Hs)
        as (d' & tables' & mid & E & S' & Ev & Ic & Cf & Ir & Sc & A & K & O & D).
      exists d', tables', (MARKET_FAILED (error r) :: mid).
      split; [exact E|]. split; [exact S'|].
      split; [rewrite Ev; subst d1; cbn; now rewrite <- app_assoc|].
      repeat split; auto.
      * intros x [<-|Hx] Hsx; [congruence|now apply A].
      * intros a Ha. apply O. intros x Hx. apply Ha. now right.
Qed.

(** X20: a cycle that creates markets stores every market that was
    created, as an active record under its address, also when other
    markets of the batch failed; the records under an address whose text
    is that of no market created are left alone.  The cycle is counted, the state is saved, and the completion is
    published last, with the numbers of successes and failures. *)
Theorem cycle_stores_created_markets :
  forall (d : Daemon.t) (tables : MarketStore.t) (now : number)
         (newsContext : json) (ideas : list (jsstring * jsstring))
         (results : list creation),
    store d = Some (mkHandle tables true) ->
    maxIterations_reached d = false ->
    dryRun (cfg d) <> Just true ->
    let d' := executeCycle d now newsContext ideas (Ok results) in
    let n := num_add (iterationCount d) (Num 1) in
    exists tables' mid,
      store d' = Some (mkHandle tables' true) /\
      (forall r, In r results -> success r = true ->
         exists m, MarketStore.getMarket tables' (market r) = Some m /\
                   MarketStore.status m = Just (js "active")) /\
      (forall a,
         (forall r, In r results -> success r = true ->
                    utf8_text (market r) <> utf8_text a) ->
         MarketStore.getMarket tables' a = MarketStore.getMarket tables a) /\
      iterationCount d' = n /\
      events d'
      = events d ++ [CYCLE_START n] ++ mid ++
        [STATE_SAVED n;
         CYCLE_COMPLETE n (List.length (filter success results))
           (List.length (filter (fun r => negb (success r)) results))].
Proof.
  intros d tables now newsContext ideas results Hs Hm Hd d' n. subst d'.
  unfold executeCycle. rewrite Hm.
  assert (Hd2 : match dryRun (cfg (begin_cycle d)) with
                | Just true => False | _ => True end).
  { cbn. destruct (dryRun (cfg d)) as [| |[|]]; auto. }
  destruct (dryRun (cfg (begin_cycle d))) as [| |[|]] eqn:Ed;
    try contradiction;
    (destruct (store_results_open now newsContext results (begin_cycle d)
                 tables Hs)
       as (d3 & tables3 & mid & E & S3 & Ev & Ic & Cf & Ir & Sc & A & K & O & D);
     rewrite E; unfold finish_cycle, saveState; rewrite S3; cbn [is_open db];
     eexists; exists mid; cbn [store emit with_store iterationCount events];
     (split; [reflexivity|]);
     (split; [intros r Hr Hsr;
              destruct (A r Hr Hsr) as (m & G & St); exists m;
              split; [|exact St];
              unfold MarketStore.getMarket in *; exact G|]);
     (split; [intros a Ha; rewrite <- (O a Ha); reflexivity|]);
     rewrite Ic, Ev; cbn; split; [reflexivity|];
     rewrite <- !app_assoc; reflexivity).
Qed.

Lemma cycle_stores_created_markets_witness :
  let created :=
    mkCreation true (js "mkt1") (js "Will it?") Undefined Undefined
      Undefined Undefined (Just (Num 30)) [] in
  let failed :=
    mkCreation false [] [] Undefined Undefined Undefined Undefined
      Undefined (js "rpc down") in
  let d := attach (create default_options) MarketStore.empty in
  let d' := executeCycle d (Num 1700000000000) JNull [] (Ok [failed; created])
  in
  exists tables',
    store d' = Some (mkHandle tables' true) /\
    option_map MarketStore.status
      (MarketStore.getMarket tables' (js "mkt1"))
    = Some (Just (js "active")) /\
    iterationCount d' = Num 1.
Proof.
  intros created failed d d'.
  destruct (cycle_stores_created_markets d MarketStore.empty
              (Num 1700000000000) JNull [] [failed; created])
    as (tables' & mid & S & A & _ & I & _);
    [reflexivity|reflexivity|discriminate|].
  exists tables'. split; [exact S|].
  destruct (A created (or_intror (or_introl eq_refl)) eq_refl)
    as (m & G & St).
  split; [|exact I].
  change (market created) with (js "mkt1") in G. rewrite G. cbn.
  now rewrite St.
Defined.

(** X21: a cycle writes no market when it creates none.  In a dry run
    the ideas are only counted: the markets are as before, the state is
    saved and the completion is published.  When the creation of the batch
    fails, the failure is published and the daemon keeps running, the
    cycle having been counted; but nothing is saved, not even the state,
    so the count in the store stays behind. *)
Theorem cycle_without_creation :
  forall (d : Daemon.t) (tables : MarketStore.t) (now : number)
         (newsContext : json) (ideas : list (jsstring * jsstring))
         (batchResults : result (list creation)),
    store d = Some (mkHandle tables true) ->
    maxIterations_reached d = false ->
    let n := num_add (iterationCount d) (Num 1) in
    (dryRun (cfg d) = Just true ->
     let d' := executeCycle d now newsContext ideas batchResults in
     exists tables',
       store d' = Some (mkHandle tables' true) /\
       MarketStore.markets tables' = MarketStore.markets tables /\
       iterationCount d' = n /\
       events d'
       = events d ++ [CYCLE_START n; STATE_SAVED n;
                      CYCLE_COMPLETE n (List.length ideas) 0]) /\
    (dryRun (cfg d) <> Just true ->
     forall message,
       let d' := executeCycle d now newsContext ideas (Throw message) in
       store d' = store d /\ isRunning d' = isRunning d /\
       scheduler d' = scheduler d /\ iterationCount d' = n /\
       events d' = events d ++ [CYCLE_START n; CYCLE_ERROR n message]).
Proof.
  intros d tables now newsContext ideas batchResults Hs Hm n. split.
  - intros Hd d'. subst d'. unfold executeCycle. rewrite Hm.
    replace (dryRun (cfg (begin_cycle d))) with (Just true)
      by (symmetry; exact Hd).
    unfold finish_cycle, saveState.
    replace (store (begin_cycle d)) with (Some (mkHandle tables true))
      by (symmetry; exact Hs).
    cbn [is_open db]. eexists. cbn. split; [reflexivity|].
    rewrite <- !app_assoc. repeat split.
  - intros Hd message d'. subst d'. unfold executeCycle. rewrite Hm.
    assert (E : forall X Y : Daemon.t * option jsstring * (nat * nat),
              match dryRun (cfg (begin_cycle d)) with
              | Just true => X | _ => Y end = Y).
    { intros X Y. cbn. destruct (dryRun (cfg d)) as [| |[|]]; congruence. }
    rewrite E. cbn. rewrite <- !app_assoc. repeat split.
Qed.

Lemma cycle_without_creation_witness :
  let d := attach (create default_options) MarketStore.empty in
  let d' := executeCycle d (Num 1700000000000) JNull []
              (Throw (js "rpc down")) in
  store d' = store d /\ iterationCount d' = Num 1 /\
  events d' = [CYCLE_START (Num 1); CYCLE_ERROR (Num 1) (js "rpc down")].
Proof.
  intros d d'.
  destruct (cycle_without_creation d MarketStore.empty (Num 1700000000000)
              JNull [] (Throw (js "rpc down")) eq_refl eq_refl) as (_ & H).
  destruct (H ltac:(discriminate) (js "rpc down"))
    as (S & _ & _ & I & E).
  split; [exact S|]. split; [exact I|exact E].
Defined.

(** X22: the count that a completed cycle leaves in the store is the
    count of the daemon: a daemon created afterwards on the same tables
    restores exactly the number of cycles counted so far. *)
Theorem cycle_count_survives_restart :
  forall (d : Daemon.t) (tables : MarketStore.t) (now : number)
         (newsContext : json) (ideas : list (jsstring * jsstring))
         (batchResults : result (list creation)) (options : config) (k : Z),
    store d = Some (mkHandle tables true) ->
    maxIterations_reached d = false ->
    iterationCount d = Num k -> 0 <= k < MAX_SAFE_INTEGER ->
    dryRun (cfg d) = Just true \/ (exists results, batchResults = Ok results) ->
    let d' := executeCycle d now newsContext ideas batchResults in
    exists tables',
      store d' = Some (mkHandle tables' true) /\
      iterationCount d' = Num (k + 1) /\
      iterationCount (restoreState (attach (create options) tables'))
      = Num (k + 1).
Proof.
  intros d tables now newsContext ideas batchResults options k Hs Hm Hk Hr Hb
         d'.
  assert (Hn : num_add (iterationCount d) (Num 1) = Num (k + 1)).
  { rewrite Hk. apply num_add_safe; unfold MAX_SAFE_INTEGER in *; lia. }
  assert (Fin : forall d3 tables3 ok failed,
             store d3 = Some (mkHandle tables3 true) ->
             iterationCount d3 = Num (k + 1) ->
             exists tables',
               store (finish_cycle d3 now None ok failed)
               = Some (mkHandle tables' true) /\
               iterationCount (finish_cycle d3 now None ok failed)
               = Num (k + 1) /\
               iterationCount (restoreState (attach (create options) tables'))
               = Num (k + 1)).
  { intros d3 tables3 ok failed S3 I3.
    set (tables4 := MarketStore.saveState tables3 now
                      (MarketStore.ByKey (js "daemon") (state_object d3 now))).
    set (d4 := emit (with_store d3 (Some (mkHandle tables4 true)))
                 (STATE_SAVED (iterationCount d3))).
    assert (E : saveState d3 now = Ok d4).
    { unfold saveState. rewrite S3. reflexivity. }
    exists tables4. unfold finish_cycle. rewrite E.
    split; [reflexivity|]. split; [exact I3|].
    apply (saveState_restoreState d3 d4 (mkHandle tables4 true) now options
             (k + 1) I3).
    - unfold MAX_SAFE_INTEGER in *. lia.
    - exact E.
    - reflexivity. }
  subst d'. unfold executeCycle. rewrite Hm.
  assert (S2 : store (begin_cycle d) = Some (mkHandle tables true))
    by exact Hs.
  assert (I2 : iterationCount (begin_cycle d) = Num (k + 1)) by exact Hn.
  destruct (dryRun (cfg (begin_cycle d))) as [| |[|]] eqn:Ed;
    try (apply (Fin _ tables); assumption);
    (destruct Hb as [Hb|[results ->]];
     [cbn in Ed; congruence|];
     destruct (store_results_open now newsContext results (begin_cycle d)
                 tables S2)
       as (d3 & tables3 & mid & E & S3 & Ev & Ic & _);
     rewrite E; apply (Fin _ tables3); [exact S3|congruence]).
Qed.

Lemma cycle_count_survives_restart_witness :
  let d := restoreState (attach (create default_options) (store_with_state 5))
  in
  let d' := executeCycle d (Num 1700000100000) JNull [] (Ok []) in
  exists tables',
    store d' = Some (mkHandle tables' true) /\
    iterationCount d' = Num 6 /\
    iterationCount (restoreState (attach (create default_options) tables'))
    = Num 6.
Proof.
  intros d d'.
  apply (cycle_count_survives_restart d (store_with_state 5)
           (Num 1700000100000) JNull [] (Ok []) default_options 5).
  - reflexivity.
  - reflexivity.
  - reflexivity.
  - unfold MAX_SAFE_INTEGER. lia.
  - right. exists []. reflexivity.
Defined.

(** X23: [stop()] of a running daemon stops the scheduler and forgets its
    timers, saves the state, closes the store and publishes the total of
    iterations; the count it leaves in the store is the count of the
    daemon.  A second [stop()], like a [stop()] of a daemon that does not
    run, does nothing. *)
Theorem stop_saves_and_closes :
  forall (d : Daemon.t) (tables : MarketStore.t) (now : number)
         (options : config) (k : Z),
    isRunning d = true -> store d = Some (mkHandle tables true) ->
    iterationCount d = Num k -> 0 <= k <= MAX_SAFE_INTEGER ->
    let d' := fst (stop d now) in
    exists tables',
      snd (stop d now) = None /\
      isRunning d' = false /\
      Scheduler.running (scheduler d') = false /\
      Scheduler.timers (scheduler d') = [] /\
      store d' = Some (mkHandle tables' false) /\
      MarketStore.markets tables' = MarketStore.markets tables /\
      iterationCount (restoreState (attach (create options) tables'))
      = iterationCount d /\
      events d' = events d ++ [STATE_SAVED (Num k); DAEMON_STOPPED (Num k)] /\
      (forall now', stop d' now' = (d', None)).
Proof.
  intros d tables now options k Hr Hs Hk Hb d'. subst d'.
  unfold stop. rewrite Hr. cbn [negb].
  unfold saveState. cbn [store with_scheduler]. rewrite Hs. cbn [is_open db].
  set (d1 := with_scheduler d (Scheduler.stop (scheduler d))).
  set (tables2 := MarketStore.saveState tables now
                    (MarketStore.ByKey (js "daemon") (state_object d1 now))).
  exists tables2.
  cbn [fst snd store emit with_store with_isRunning isRunning
       scheduler events iterationCount db with_scheduler].
  split; [reflexivity|]. split; [reflexivity|]. split; [reflexivity|].
  split; [reflexivity|]. split; [reflexivity|]. split; [reflexivity|].
  split; [|split].
  - rewrite Hk.
    apply (saveState_restoreState d1
             (emit (with_store d1 (Some (mkHandle tables2 true)))
                (STATE_SAVED (iterationCount d1)))
             (mkHandle tables2 true) now options k Hk Hb).
    + unfold saveState. cbn [store d1 with_scheduler]. rewrite Hs. reflexivity.
    + reflexivity.
  - subst d1. cbn [iterationCount with_scheduler events].
    rewrite Hk, <- app_assoc. reflexivity.
  - intros now'. reflexivity.
Qed.

Lemma stop_saves_and_closes_witness :
  let d := with_isRunning
             (restoreState
                (attach (create default_options) (store_with_state 5))) true in
  let d' := fst (stop d (Num 1700000100000)) in
  exists tables',
    snd (stop d (Num 1700000100000)) = None /\
    isRunning d' = false /\
    Scheduler.running (scheduler d') = false /\
    Scheduler.timers (scheduler d') = [] /\
    store d' = Some (mkHandle tables' false) /\
    MarketStore.markets tables' = MarketStore.markets (store_with_state 5) /\
    iterationCount (restoreState (attach (create default_options) tables'))
    = iterationCount d /\
    events d' = events d ++ [STATE_SAVED (Num 5); DAEMON_STOPPED (Num 5)] /\
    (forall now', stop d' now' = (d', None)).
Proof.
  intros d d'.
  apply (stop_saves_and_closes d (store_with_state 5) (Num 1700000100000)
           default_options 5).
  - reflexivity.
  - reflexivity.
  - reflexivity.
  - unfold MAX_SAFE_INTEGER. lia.
Defined.

(** X24: [start()] never succeeds.  It rejects a daemon that is
    running, and it passes on the failure of the market-creation service;
    otherwise it fails when it opens the store, whose constructor is given
    an options object where it expects a path and hands it to [dirname]:
    the store is never restored and the scheduler is never started. *)
Theorem start_always_rejects :
  forall (cron_next : jsstring -> number -> result number)
         (files : jsstring -> MarketStore.t) (d : Daemon.t) (now : number)
         (agent_initialize : result unit) (cycle : Scheduler.action),
    start cron_next files d now agent_initialize cycle
    = Throw
        (if isRunning d then js "Daemon is already running"
         else
           match agent_initialize with
           | Throw message => message
           | Ok _ =>
               js "The " ++ quote (js "path") ++
               js " argument must be of type string. Received an instance of Object"
           end).
Proof.
  intros. unfold start.
  destruct (isRunning d); [reflexivity|].
  destruct agent_initialize; reflexivity.
Qed.

End DaemonProperties.

(* ===================================================================== *)
(** * Properties of the event bus *)
(* ===================================================================== *)

Module EmitterProperties.
Import JS JSFacts Emitter.

Lemma removelast_cons_length {A : Type} (l : list A) :
  l <> [] -> List.length (removelast l) = pred (List.length l).
Proof.
  induction l as [|x l IH]; [congruence|]. intros _.
  destruct l as [|y l]; [reflexivity|].
  change (removelast (x :: y :: l)) with (x :: removelast (y :: l)).
  cbn [List.length]. rewrite IH by discriminate. reflexivity.
Qed.

(** X25: the history of the bus never holds more events than
    [maxHistorySize]: an event that is published becomes the first of the
    history, and when the history is full the oldest event is dropped to
    make room. *)
Theorem history_is_bounded :
  forall (e : Emitter.t) (now : number) (event : jsstring) (payload : object),
    (List.length (eventHistory e) <= maxHistorySize e)%nat ->
    (0 < maxHistorySize e)%nat ->
    let e' := emitTyped e now event payload in
    let published := event_data event now payload in
    (List.length (eventHistory e') <= maxHistorySize e')%nat /\
    maxHistorySize e' = maxHistorySize e /\
    hd_error (eventHistory e') = Some published /\
    ((List.length (eventHistory e) < maxHistorySize e)%nat ->
     eventHistory e' = published :: eventHistory e) /\
    (List.length (eventHistory e) = maxHistorySize e ->
     eventHistory e' = published :: removelast (eventHistory e)).
Proof.
  intros e now event payload Hb Hpos e' published. subst e' published.
  unfold emitTyped. cbn [eventHistory maxHistorySize List.length].
  destruct (Nat.ltb_spec (maxHistorySize e) (S (List.length (eventHistory e))))
    as [Hfull|Hroom].
  - assert (Hl : List.length (eventHistory e) = maxHistorySize e) by lia.
    destruct (eventHistory e) as [|x h] eqn:Eh; [cbn in Hl; lia|].
    change (removelast (event_data event now payload :: x :: h))
      with (event_data event now payload :: removelast (x :: h)).
    cbn [List.length hd_error].
    rewrite removelast_cons_length by discriminate.
    cbn [List.length] in *. repeat split; auto; lia.
  - cbn [List.length hd_error]. repeat split; auto; lia.
Qed.

Lemma history_is_bounded_witness :
  let e := emitTyped create (Num 1) (js "cycle:start") [] in
  let e' := emitTyped e (Num 2) (js "cycle:complete") [] in
  (List.length (eventHistory e') <= maxHistorySize e')%nat /\
  eventHistory e'
  = [event_data (js "cycle:complete") (Num 2) [];
     event_data (js "cycle:start") (Num 1) []].
Proof.
  intros e e'.
  destruct (history_is_bounded e (Num 2) (js "cycle:complete") [])
    as (H1 & _ & _ & H2 & _); [cbn; lia|cbn; lia|].
  split; [exact H1|]. apply H2. cbn. lia.
Defined.

Lemma set_property_same (k : jsstring) (v : json) (o : object) :
  json_field k (set_property k v o) = Some v.
Proof.
  induction o as [|[k' v'] o IH]; cbn.
  - now rewrite str_eqb_refl.
  - destruct (str_eqb k k') eqn:E; cbn; rewrite E; [reflexivity|exact IH].
Qed.

Lemma set_property_other (k k' : jsstring) (v : json) (o : object) :
  k' <> k -> json_field k' (set_property k v o) = json_field k' o.
Proof.
  intros Hne.
  assert (E : str_eqb k' k = false) by (apply str_eqb_neq; exact Hne).
  induction o as [|[k0 v0] o IH]; cbn.
  - now rewrite E.
  - destruct (str_eqb k k0) eqn:E0; cbn.
    + apply str_eqb_eq in E0. subst k0. now rewrite E.
    + destruct (str_eqb k' k0); [reflexivity|exact IH].
Qed.

Lemma fold_set_absent (k : jsstring) (payload : object) :
  ~ In k (map fst payload) ->
  forall o,
    json_field k (fold_left (fun o p => set_property (fst p) (snd p) o)
                    payload o)
    = json_field k o.
Proof.
  induction payload as [|[k' v'] payload IH]; intros Hni o; [reflexivity|].
  cbn [fold_left fst snd]. rewrite IH by (cbn in Hni; tauto).
  apply set_property_other. cbn in Hni. intuition.
Qed.

Lemma fold_set_present (k : jsstring) (v : json) (payload : object) :
  NoDup (map fst payload) -> In (k, v) payload ->
  forall o,
    json_field k (fold_left (fun o p => set_property (fst p) (snd p) o)
                    payload o)
    = Some v.
Proof.
  induction payload as [|[k' v'] payload IH]; intros Hnd Hin o; [destruct Hin|].
  cbn in Hnd. inversion Hnd as [|? ? Hk Hp]; subst.
  cbn [fold_left fst snd]. destruct Hin as [E|Hin].
  - inversion E; subst. rewrite fold_set_absent by exact Hk.
    apply set_property_same.
  - now apply IH.
Qed.

Lemma in_slice_to {A : Type} (limit : Z) (l : list A) (x : A) :
  In x (slice_to limit l) -> In x l.
Proof.
  unfold slice_to. destruct (limit <? 0);
    apply MarketStoreProperties.in_firstn.
Qed.

(** X26: the type under which an event is recorded is the [type] of its
    payload when the payload has one, because the payload is spread over
    the object last.  Such an event is listed under the type of the payload
    and not under the name with which it was published. *)
Theorem payload_type_overrides_event_type :
  forall (e : Emitter.t) (now : number) (event other : jsstring)
         (payload : object) (limit : Z),
    NoDup (map fst payload) -> In (js "type", JStr other) payload ->
    event <> [] -> other <> [] -> other <> event ->
    (0 < maxHistorySize e)%nat -> 0 < limit ->
    let published := event_data event now payload in
    let e' := emitTyped e now event payload in
    json_field (js "type") published = Some (JStr other) /\
    ~ In published (getRecentEvents e' (Just event) limit) /\
    In published (getRecentEvents e' (Just other) limit).
Proof.
  intros e now event other payload limit Hnd Hin He Ho Hne Hmax Hlim
         published e'.
  assert (F : json_field (js "type") published = Some (JStr other))
    by (subst published; unfold event_data; now apply fold_set_present).
  split; [exact F|]. split.
  - intros Hr. unfold getRecentEvents in Hr.
    destruct event as [|c event]; [congruence|].
    cbn [str_or_null truthy_str] in Hr.
    apply in_slice_to, filter_In in Hr as [_ Hr].
    unfold has_type in Hr. rewrite F in Hr.
    apply str_eqb_eq in Hr. contradiction.
  - unfold getRecentEvents.
    destruct other as [|c other]; [congruence|].
    cbn [str_or_null truthy_str].
    assert (Hh : exists rest, eventHistory e' = published :: rest).
    { subst e'. unfold emitTyped. cbn [eventHistory].
      fold published.
      destruct (maxHistorySize e <? List.length (published :: eventHistory e))%nat
        eqn:E; [|eauto].
      destruct (eventHistory e) as [|x h]; [|cbn; eauto].
      cbn [List.length] in E. apply Nat.ltb_lt in E. lia. }
    destruct Hh as (rest & ->). cbn [filter].
    replace (has_type (c :: other) published) with true
      by (unfold has_type; rewrite F; symmetry; apply str_eqb_refl).
    unfold slice_to. destruct (Z.ltb_spec limit 0); [lia|].
    destruct (Z.to_nat limit) eqn:En; [lia|]. now left.
Qed.

(** The report of an uncaught exception by the shutdown controller:
    published as [daemon:error] with a payload whose [type] is
    [uncaughtException]. *)
Lemma payload_type_overrides_event_type_witness :
  let payload := [(js "type", JStr (js "uncaughtException"));
                  (js "error", JStr (js "boom"))] in
  let published := event_data (js "daemon:error") (Num 5) payload in
  let e' := emitTyped create (Num 5) (js "daemon:error") payload in
  json_field (js "type") published = Some (JStr (js "uncaughtException")) /\
  ~ In published (getRecentEvents e' (Just (js "daemon:error")) 10) /\
  In published (getRecentEvents e' (Just (js "uncaughtException")) 10).
Proof.
  apply (payload_type_overrides_event_type create (Num 5)
           (js "daemon:error") (js "uncaughtException")
           [(js "type", JStr (js "uncaughtException"));
            (js "error", JStr (js "boom"))] 10).
  - cbn. repeat constructor; cbn; intuition discriminate.
  - left. reflexivity.
  - discriminate.
  - discriminate.
  - discriminate.
  - cbn. lia.
  - lia.
Defined.

End EmitterProperties.

(* ===================================================================== *)
(** * Properties of the relevance scorer and of the news monitor *)
(* ===================================================================== *)

Module NewsProperties.
Import JS JSFacts NewsScorer.

Lemma score_is_capped :
  forall (toLowerCase : jsstring -> jsstring) (text : jsstring)
         (sourceKeywords : list jsstring) (sourceWeight : f64),
    let s := score (scoreRelevance toLowerCase text sourceKeywords
                      sourceWeight) in
    s = NaN \/ num_geb (Num 100) s = true.
Proof.
  intros toLowerCase text sourceKeywords sourceWeight s. subst s.
  unfold scoreRelevance.
  destruct (fold_left _ PRIVACY_KEYWORDS _) as [score1 matched1].
  destruct (fold_left _ sourceKeywords _) as [score2 matched2].
  cbn [score].
  destruct (Math_round (f64_mul score2 sourceWeight)) as [| | |x];
    cbn [Math_min num_ltb num_geb]; auto.
  destruct (Z.ltb_spec 100 x); cbn [num_geb]; right; apply Z.leb_le; lia.
Qed.

Lemma determineCategory_first_maximum :
  forall (text : jsstring),
    let best := determineCategory text in
    (forall c, (score_of text c <= score_of text best)%nat) /\
    (forall c, score_of text c = score_of text best ->
               (0 < score_of text best)%nat -> (rank best <= rank c)%nat) /\
    ((forall c, score_of text c = 0%nat) -> best = technology).
Proof.
  intros text best. subst best. unfold determineCategory, CATEGORY_KEYWORDS.
  cbn [fold_left fst snd].
  set (a := category_score text _).
  set (b := category_score text _).
  set (c := category_score text _).
  set (d := category_score text _).
  assert (Ea : score_of text regulation = a) by reflexivity.
  assert (Eb : score_of text technology = b) by reflexivity.
  assert (Ec : score_of text adoption = c) by reflexivity.
  assert (Ed : score_of text events = d) by reflexivity.
  clearbody a b c d.
  destruct (Nat.ltb_spec 0 a) as [Ha|Ha]; cbn [fst snd];
    [destruct (Nat.ltb_spec a b) as [Hb|Hb]
    |destruct (Nat.ltb_spec 0 b) as [Hb|Hb]]; cbn [fst snd];
    (match goal with
     | |- context [(?x <? c)%nat] =>
         destruct (Nat.ltb_spec x c) as [Hc|Hc]
     end; cbn [fst snd];
     match goal with
     | |- context [(?x <? d)%nat] =>
         destruct (Nat.ltb_spec x d) as [Hd|Hd]
     end; cbn [fst snd];
     (split; [intros [| | |]; rewrite ?Ea, ?Eb, ?Ec, ?Ed; lia|];
      split; [intros [| | |]; rewrite ?Ea, ?Eb, ?Ec, ?Ed; cbn [rank]; lia|];
      intros Hz;
      pose proof (Hz regulation) as Z1; pose proof (Hz technology) as Z2;
      pose proof (Hz adoption) as Z3; pose proof (Hz events) as Z4;
      rewrite ?Ea, ?Eb, ?Ec, ?Ed in *; try reflexivity; lia)).
Qed.

(** X27: what [scoreRelevance] reports for a text.  The score is capped:
    it is at most 100, unless it is [NaN].  The suggested category is one
    with the highest number of its keywords in the lower-cased text; among
    several with the same positive number it is the first in the order
    regulation, technology, adoption, events; and it is technology when no
    keyword of any category is found. *)
Theorem scoreRelevance_score_and_category :
  forall (toLowerCase : jsstring -> jsstring) (text : jsstring)
         (sourceKeywords : list jsstring) (sourceWeight : f64),
    let r := scoreRelevance toLowerCase text sourceKeywords sourceWeight in
    let lowerText := toLowerCase text in
    let best := suggestedCategory r in
    (score r = NaN \/ num_geb (Num 100) (score r) = true) /\
    (forall c, (score_of lowerText c <= score_of lowerText best)%nat) /\
    (forall c, score_of lowerText c = score_of lowerText best ->
               (0 < score_of lowerText best)%nat ->
               (rank best <= rank c)%nat) /\
    ((forall c, score_of lowerText c = 0%nat) -> best = technology).
Proof.
  intros toLowerCase text sourceKeywords sourceWeight r lowerText best.
  assert (E : best = determineCategory lowerText).
  { subst best r lowerText. unfold scoreRelevance.
    destruct (fold_left _ PRIVACY_KEYWORDS _) as [score1 matched1].
    destruct (fold_left _ sourceKeywords _) as [score2 matched2].
    reflexivity. }
  split; [apply score_is_capped|].
  rewrite E. apply determineCategory_first_maximum.
Qed.

Lemma startsWith_app_l (s p rest : jsstring) :
  startsWith s p = true -> startsWith (s ++ rest) p = true.
Proof.
  revert s; induction p as [|x p IH]; intros s H; [reflexivity|].
  destruct s as [|y s]; [discriminate|]. cbn in *.
  apply andb_true_iff in H as [H1 H2]. rewrite H1. cbn. now apply IH.
Qed.

Lemma endsWith_app (s t suffix : jsstring) :
  endsWith t suffix = true -> endsWith (s ++ t) suffix = true.
Proof.
  unfold endsWith. rewrite rev_app_distr. apply startsWith_app_l.
Qed.

(** X28: the market made from a news event: it lasts 14 days for breaking
    news, 30 for timely news and 90 otherwise; its question begins with
    [Will], quotes the title cut to 50 code units (or a stock phrase when
    the title is empty) and ends with a question mark; its category and
    urgency are those of the event, which it carries along. *)
Theorem generated_market_shape :
  forall (toUpperCase : jsstring -> jsstring) (formatFutureDate : Z -> jsstring)
         (newsEvent : news_event),
    let g := generateMarketFromNews toUpperCase formatFutureDate newsEvent in
    gm_durationDays g
    = (match ne_urgency newsEvent with
       | breaking => 14 | timely => 30 | evergreen => 90 end) /\
    startsWith (gm_question g) (js "Will ") = true /\
    endsWith (gm_question g) (js "?") = true /\
    (exists before quoted after,
        gm_question g = before ++ quote quoted ++ after /\
        quoted <> [] /\ (List.length quoted <= 50)%nat /\
        (ne_title newsEvent <> [] -> quoted = firstn 50 (ne_title newsEvent))) /\
    gm_category g = ne_suggestedCategory newsEvent /\
    gm_urgency g = ne_urgency newsEvent /\ sourceEvent g = newsEvent.
Proof.
  intros toUpperCase formatFutureDate newsEvent g. subst g.
  unfold generateMarketFromNews.
  cbn [gm_durationDays gm_question gm_category gm_urgency sourceEvent].
  set (e := extractEntities toUpperCase (ne_title newsEvent)).
  set (days := match ne_urgency newsEvent with
               | breaking => 14 | timely => 30 | evergreen => 90 end).
  assert (T : forall fallback,
             fallback <> [] -> (List.length fallback <= 50)%nat ->
             topic_or e fallback <> [] /\
             (List.length (topic_or e fallback) <= 50)%nat /\
             (ne_title newsEvent <> [] ->
              topic_or e fallback = firstn 50 (ne_title newsEvent))).
  { intros fallback Hf Hl. unfold topic_or. subst e. cbn [topic extractEntities].
    assert (Hl' : (List.length (firstn 50 (ne_title newsEvent)) <= 50)%nat)
      by apply firstn_le_length.
    assert (Hne : ne_title newsEvent <> [] ->
                  firstn 50 (ne_title newsEvent) <> []).
    { destruct (ne_title newsEvent) as [|c title]; [congruence|].
      intros _. change 50%nat with (S 49). rewrite firstn_cons. discriminate. }
    destruct (firstn 50 (ne_title newsEvent)) as [|c tp] eqn:Etp;
      cbn [truthy_str].
    - repeat split; auto. intros Ht. destruct (Hne Ht). reflexivity.
    - repeat split; auto. discriminate. }
  split; [reflexivity|].
  destruct (ne_suggestedCategory newsEvent) as [[| | |]|].
  - split; [reflexivity|]. split.
    + rewrite !app_assoc. apply endsWith_app. reflexivity.
    + split; [|auto].
      destruct (T (js "this development")) as (T1 & T2 & T3);
        [discriminate|cbn; lia|].
      eexists _, _, _. split; [reflexivity|]. auto.
  - split; [reflexivity|]. split.
    + rewrite !app_assoc. apply endsWith_app. reflexivity.
    + split; [|auto].
      destruct (T (js "this news")) as (T1 & T2 & T3);
        [discriminate|cbn; lia|].
      eexists _, _, _. split; [reflexivity|]. auto.
  - split; [reflexivity|]. split.
    + rewrite !app_assoc. apply endsWith_app. reflexivity.
    + split; [|auto].
      destruct (T (js "this platform")) as (T1 & T2 & T3);
        [discriminate|cbn; lia|].
      eexists _, _, _. split; [reflexivity|]. auto.
  - split; [reflexivity|]. split.
    + rewrite !app_assoc. apply endsWith_app. reflexivity.
    + split; [|auto].
      destruct (T (js "this event")) as (T1 & T2 & T3);
        [discriminate|cbn; lia|].
      eexists _, _, _. split; [reflexivity|]. auto.
  - split; [reflexivity|]. split.
    + rewrite !app_assoc. apply endsWith_app. reflexivity.
    + split; [|auto].
      destruct (T (js "this development")) as (T1 & T2 & T3);
        [discriminate|cbn; lia|].
      eexists _, _, _. split; [reflexivity|]. auto.
Qed.

Lemma scoreRelevance_score_and_category_witness :
  let r := scoreRelevance ascii_toLowerCase
             (js "New GDPR regulation: wallet users face compliance law")
             [] (f64_lit 10 10) in
  suggestedCategory r = regulation /\
  (score r = NaN \/ num_geb (Num 100) (score r) = true) /\
  (score_of
     (ascii_toLowerCase
        (js "New GDPR regulation: wallet users face compliance law"))
     adoption <= 4)%nat.
Proof.
  intros r.
  destruct (scoreRelevance_score_and_category ascii_toLowerCase
              (js "New GDPR regulation: wallet users face compliance law")
              [] (f64_lit 10 10)) as (H1 & H2 & _).
  assert (E : suggestedCategory r = regulation) by (vm_compute; reflexivity).
  split; [exact E|]. split; [exact H1|].
  specialize (H2 adoption). fold r in H2. rewrite E in H2.
  eapply Nat.le_trans; [exact H2|]. vm_compute. repeat constructor.
Defined.

Lemma generated_market_shape_witness :
  let ev := mkNewsEvent (js "Tornado Cash Developer Case Reaches New Development")
              (Some regulation) breaking in
  let g := generateMarketFromNews ascii_toLowerCase
             (fun _ => js "December 2026") ev in
  gm_durationDays g = 14 /\
  endsWith (gm_question g) (js "?") = true /\
  exists before after,
    gm_question g
    = before ++ quote (js "Tornado Cash Developer Case Reaches New Developmen")
      ++ after.
Proof.
  intros ev g.
  destruct (generated_market_shape ascii_toLowerCase
              (fun _ => js "December 2026") ev)
    as (H1 & _ & H3 & (before & quoted & after & Q & _ & _ & T) & _).
  split; [exact H1|]. split; [exact H3|].
  exists before, after. fold g in Q. rewrite Q.
  rewrite T by discriminate. reflexivity.
Defined.

Lemma id_eqb_refl (i : jsopt jsstring) : NewsMonitor.id_eqb i i = true.
Proof. destruct i; cbn; auto. apply str_eqb_refl. Qed.

Lemma existsb_last {A : Type} (p : A -> bool) (l : list A) (x : A) :
  p x = true -> existsb p (l ++ [x]) = true.
Proof.
  intros H. rewrite existsb_app. cbn. rewrite H. apply orb_true_r.
Qed.

Lemma mark_seen_seen (m : NewsMonitor.t) (i : jsopt jsstring) :
  existsb (NewsMonitor.id_eqb i) (NewsMonitor.seenIds m) = false ->
  existsb (NewsMonitor.id_eqb i)
    (NewsMonitor.seenIds (NewsMonitor.mark_seen m i)) = true.
Proof.
  intros H. unfold NewsMonitor.mark_seen. rewrite H.
  cbn [NewsMonitor.seenIds].
  destruct (10000 <? Z.of_nat (List.length (NewsMonitor.seenIds m ++ [i])))
    eqn:E.
  - rewrite skipn_app.
    replace (Z.to_nat (Z.of_nat (List.length (NewsMonitor.seenIds m ++ [i]))
                       - 5000)
             - List.length (NewsMonitor.seenIds m))%nat with 0%nat
      by (rewrite length_app; cbn [List.length]; lia).
    cbn [skipn]. apply existsb_last, id_eqb_refl.
  - apply existsb_last, id_eqb_refl.
Qed.

Lemma mark_seen_bounded (m : NewsMonitor.t) (i : jsopt jsstring) :
  Z.of_nat (List.length (NewsMonitor.seenIds m)) <= 10000 ->
  Z.of_nat (List.length (NewsMonitor.seenIds (NewsMonitor.mark_seen m i)))
  <= 10000.
Proof.
  intros H. unfold NewsMonitor.mark_seen. cbn [NewsMonitor.seenIds].
  set (seen := if existsb _ _ then _ else _).
  assert (Hs : Z.of_nat (List.length seen) <= 10001).
  { subst seen. destruct (existsb _ _); [lia|].
    rewrite length_app. cbn [List.length]. lia. }
  clearbody seen.
  destruct (Z.ltb_spec 10000 (Z.of_nat (List.length seen))).
  - rewrite length_skipn. lia.
  - lia.
Qed.

(** X29: one item of a feed, in the news monitor.  An item whose
    identifier was seen is skipped and changes nothing.  A new item is
    kept, at the head of the buffer, exactly when its score is at least
    30, and is remembered as seen in either case, so that it is skipped
    when it comes again.  The buffer never holds more than [maxEvents]
    events, nor the set of identifiers more than 10000 members. *)
Theorem news_item_checked_once :
  forall (m : NewsMonitor.t) (dedup : jsopt jsstring)
         (event : NewsMonitor.news),
    (List.length (NewsMonitor.recentEvents m) <= NewsMonitor.maxEvents m)%nat ->
    (0 < NewsMonitor.maxEvents m)%nat ->
    Z.of_nat (List.length (NewsMonitor.seenIds m)) <= 10000 ->
    let m' := fst (NewsMonitor.check_item m dedup event) in
    let kept := snd (NewsMonitor.check_item m dedup event) in
    (List.length (NewsMonitor.recentEvents m') <= NewsMonitor.maxEvents m')%nat
    /\ NewsMonitor.maxEvents m' = NewsMonitor.maxEvents m
    /\ Z.of_nat (List.length (NewsMonitor.seenIds m')) <= 10000
    /\ (existsb (NewsMonitor.id_eqb dedup) (NewsMonitor.seenIds m) = true ->
        m' = m /\ kept = false)
    /\ (existsb (NewsMonitor.id_eqb dedup) (NewsMonitor.seenIds m) = false ->
        kept = num_geb (NewsMonitor.relevanceScore event) (Num 30) /\
        (kept = true ->
         hd_error (NewsMonitor.recentEvents m') = Some event) /\
        (kept = false ->
         NewsMonitor.recentEvents m' = NewsMonitor.recentEvents m))
    /\ (forall again,
          NewsMonitor.check_item m' dedup again = (m', false)).
Proof.
  intros m dedup event Hb Hpos Hs m' kept. subst m' kept.
  unfold NewsMonitor.check_item.
  destruct (existsb (NewsMonitor.id_eqb dedup) (NewsMonitor.seenIds m)) eqn:E.
  - cbn [fst snd]. repeat split; auto; try discriminate.
    intros again. now rewrite E.
  - cbn [fst snd].
    set (m1 := if num_geb (NewsMonitor.relevanceScore event) (Num 30)
               then NewsMonitor.addEvent m event else m).
    assert (B1 : (List.length (NewsMonitor.recentEvents m1)
                  <= NewsMonitor.maxEvents m1)%nat
                 /\ NewsMonitor.maxEvents m1 = NewsMonitor.maxEvents m
                 /\ NewsMonitor.seenIds m1 = NewsMonitor.seenIds m).
    { subst m1. destruct (num_geb _ _); [|auto].
      unfold NewsMonitor.addEvent.
      cbn [NewsMonitor.recentEvents NewsMonitor.maxEvents NewsMonitor.seenIds].
      split; [|auto].
      destruct (Nat.ltb_spec (NewsMonitor.maxEvents m)
                  (List.length (event :: NewsMonitor.recentEvents m))).
      - apply firstn_le_length.
      - assumption. }
    destruct B1 as (B1 & B2 & B3).
    assert (S1 : existsb (NewsMonitor.id_eqb dedup) (NewsMonitor.seenIds m1)
                 = false) by (rewrite B3; exact E).
    split; [exact B1|]. split; [exact B2|].
    split; [apply mark_seen_bounded; rewrite B3; exact Hs|].
    split; [discriminate|]. split.
    + intros _. split; [reflexivity|]. split.
      * intros K. subst m1. rewrite K.
        unfold NewsMonitor.mark_seen, NewsMonitor.addEvent.
        cbn [NewsMonitor.recentEvents NewsMonitor.maxEvents].
        destruct (Nat.ltb_spec (NewsMonitor.maxEvents m)
                    (List.length (event :: NewsMonitor.recentEvents m)));
          [|reflexivity].
        destruct (NewsMonitor.maxEvents m); [lia|reflexivity].
      * intros K. subst m1. rewrite K. reflexivity.
    + intros again. now rewrite (mark_seen_seen m1 dedup S1).
Qed.

Lemma news_item_checked_once_witness :
  let item :=
    NewsMonitor.mkNews (Just (js "guid-1")) (js "Zcash announces upgrade")
      (Num 45) technology timely in
  let m := NewsMonitor.create 0 in
  let m' := fst (NewsMonitor.check_item m (Just (js "guid-1")) item) in
  NewsMonitor.recentEvents m' = [item] /\
  NewsMonitor.check_item m' (Just (js "guid-1")) item = (m', false).
Proof.
  intros item m m'.
  destruct (news_item_checked_once m (Just (js "guid-1")) item)
    as (_ & _ & _ & _ & _ & H); [cbn; lia|cbn; lia|cbn; lia|].
  split; [reflexivity|]. apply H.
Defined.

End NewsProperties.

(* ===================================================================== *)
(** * Properties of the shutdown controller *)
(* ===================================================================== *)

Module LifecycleProperties.
Import JS Lifecycle.



End LifecycleProperties.
